(** * Stellinch: hash time-locked atomic swap between Base and Stellar

    A shallow embedding of the swap core of the repository:

    - the [StellarHTLC] class ([stellar/htlc-contract.ts], in its mock
      variant and in its Stellar-SDK variant),
    - the coordinator steps of [real-test-stellar-to-base.js] and
      [real-test-base-to-stellar.js] (hashlock generation, timelock
      packing, the reveal of the secret, secret extraction and
      re-verification),
    - the order scripts (the creation of an order and the maker's claim
      of it) and the simulation of the swap.

    JavaScript strings are modelled as [string] (one [ascii] per code
    unit, code units below 256), Node [Buffer]s as [list byte], numbers
    and BigInts that hold integers as [Z].  Everything the code reads from
    its surroundings (the wall clock, the random source, the Horizon
    server, the escrow factory) is an explicit field of a world record. *)

From Stdlib Require Import ZArith NArith List Bool Lia.
From Stdlib Require Import Strings.String Strings.Ascii Strings.Byte.
From Stdlib Require Import Numbers.DecimalString.
Import ListNotations.

Local Open Scope string_scope.
Local Open Scope Z_scope.

(* ================================================================== *)
(** ** Outcomes of JavaScript calls *)

(** A call either returns a value or throws [new Error(message)]. *)
Inductive result (A : Type) : Type :=
| Ok (value : A)
| Throw (message : string).

Arguments Ok {A} value.
Arguments Throw {A} message.

Definition is_ok {A : Type} (r : result A) : bool :=
  match r with
  | Ok _ => true
  | Throw _ => false
  end.

(* ================================================================== *)
(** ** Strings and buffers as Node sees them *)

Module JS.

(** [s.slice(n)]: the string without its first [n] code units. *)
Fixpoint slice (n : nat) (s : string) : string :=
  match n, s with
  | O, _ => s
  | S _, EmptyString => EmptyString
  | S n', String _ s' => slice n' s'
  end.

(** [s.substring(0, n)]: the first [n] code units. *)
Fixpoint take (n : nat) (s : string) : string :=
  match n, s with
  | O, _ => EmptyString
  | S _, EmptyString => EmptyString
  | S n', String c s' => String c (take n' s')
  end.

(** [s.startsWith(p)]. *)
Fixpoint startsWith (p s : string) : bool :=
  match p, s with
  | EmptyString, _ => true
  | String _ _, EmptyString => false
  | String a p', String b s' => Ascii.eqb a b && startsWith p' s'
  end.

(** [s.replace(pat, rep)] with a string pattern: only the first
    occurrence of [pat] is replaced. *)
Fixpoint replace (pat rep s : string) : string :=
  if startsWith pat s then rep ++ slice (String.length pat) s
  else match s with
       | EmptyString => EmptyString
       | String c s' => String c (replace pat rep s')
       end.

(** Value of one hexadecimal digit, as Node's [unhex] table. *)
Definition unhex (c : ascii) : option N :=
  let n := N_of_ascii c in
  if (48 <=? n)%N && (n <=? 57)%N then Some (n - 48)%N
  else if (65 <=? n)%N && (n <=? 70)%N then Some (n - 55)%N
  else if (97 <=? n)%N && (n <=? 102)%N then Some (n - 87)%N
  else None.

Definition byte_of_N (n : N) : byte :=
  match Byte.of_N n with
  | Some b => b
  | None => x00
  end.

(** [Buffer.from(s, 'hex')]: pairs of hexadecimal digits are decoded from
    the left; decoding stops at the first pair that is not made of two
    hexadecimal digits, and a trailing single character is dropped. *)
Fixpoint hexDecode (s : string) : list byte :=
  match s with
  | String a (String b rest) =>
      match unhex a, unhex b with
      | Some hi, Some lo => byte_of_N (16 * hi + lo) :: hexDecode rest
      | _, _ => []
      end
  | _ => []
  end.

Definition hexdigit (n : N) : ascii :=
  if (n <? 10)%N then ascii_of_N (48 + n) else ascii_of_N (87 + n).

(** [buf.toString('hex')] and [digest('hex')]: two lower-case digits per
    byte. *)
Fixpoint toHex (l : list byte) : string :=
  match l with
  | [] => EmptyString
  | b :: l' =>
      String (hexdigit (Byte.to_N b / 16))
        (String (hexdigit (Byte.to_N b mod 16)) (toHex l'))
  end.

(** The character class [[a-fA-F0-9]]. *)
Definition isHex (c : ascii) : bool :=
  match unhex c with
  | Some _ => true
  | None => false
  end.

(** The character class [[^_]]. *)
Definition notUnderscore (c : ascii) : bool := negb (Ascii.eqb c "_").

(** [Buffer.from(s)] / [update(s)]: the UTF-8 encoding of a string whose
    code units are below 256. *)
Fixpoint utf8 (s : string) : list byte :=
  match s with
  | EmptyString => []
  | String c s' =>
      let n := N_of_ascii c in
      if (n <? 128)%N then byte_of_N n :: utf8 s'
      else byte_of_N (192 + n / 64) :: byte_of_N (128 + n mod 64) :: utf8 s'
  end.

(** [String(n)] for an integer number (below 10^21 in absolute value). *)
Definition numberToString (n : Z) : string :=
  NilEmpty.string_of_int (Z.to_int n).

(** The double quote character, code unit 34. *)
Definition dquote : ascii := ascii_of_N 34.

(** The escape JSON.stringify applies to one code unit of a string. *)
Definition jsonEscape (c : ascii) : string :=
  let n := N_of_ascii c in
  if (n =? 34)%N then String "\" (String dquote "")
  else if (n =? 92)%N then "\\"
  else if (n =? 8)%N then "\b"
  else if (n =? 9)%N then "\t"
  else if (n =? 10)%N then "\n"
  else if (n =? 12)%N then "\f"
  else if (n =? 13)%N then "\r"
  else if (n <? 32)%N then
    "\u00" ++ String (hexdigit (n / 16)) (String (hexdigit (n mod 16)) "")
  else String c "".

Fixpoint jsonChars (s : string) : string :=
  match s with
  | EmptyString => EmptyString
  | String c s' => jsonEscape c ++ jsonChars s'
  end.

(** [JSON.stringify(s)] for a string [s]. *)
Definition jsonString (s : string) : string :=
  String dquote (jsonChars s ++ String dquote "").

End JS.

(* ================================================================== *)
(** ** SHA-256 ([crypto.createHash('sha256')]), after FIPS 180-4 *)

Module SHA256.

Definition mask32 : Z := 0xFFFFFFFF.

Definition add32 (x y : Z) : Z := Z.land (x + y) mask32.

Definition rotr (n x : Z) : Z :=
  Z.lor (Z.shiftr x n) (Z.land (Z.shiftl x (32 - n)) mask32).

Definition Ch (x y z : Z) : Z :=
  Z.lxor (Z.land x y) (Z.land (Z.lxor x mask32) z).

Definition Maj (x y z : Z) : Z :=
  Z.lxor (Z.lxor (Z.land x y) (Z.land x z)) (Z.land y z).

Definition bigSigma0 (x : Z) : Z :=
  Z.lxor (Z.lxor (rotr 2 x) (rotr 13 x)) (rotr 22 x).

Definition bigSigma1 (x : Z) : Z :=
  Z.lxor (Z.lxor (rotr 6 x) (rotr 11 x)) (rotr 25 x).

Definition smallSigma0 (x : Z) : Z :=
  Z.lxor (Z.lxor (rotr 7 x) (rotr 18 x)) (Z.shiftr x 3).

Definition smallSigma1 (x : Z) : Z :=
  Z.lxor (Z.lxor (rotr 17 x) (rotr 19 x)) (Z.shiftr x 10).

(** The first sixty-four primes. *)
Definition primes : list Z :=
  [ 2; 3; 5; 7; 11; 13; 17; 19; 23; 29; 31; 37; 41; 43; 47; 53;
    59; 61; 67; 71; 73; 79; 83; 89; 97; 101; 103; 107; 109; 113; 127; 131;
    137; 139; 149; 151; 157; 163; 167; 173; 179; 181; 191; 193; 197; 199;
    211; 223; 227; 229; 233; 239; 241; 251; 257; 263; 269; 271; 277; 281;
    283; 293; 307; 311 ].

(** Integer cube root of [n] below [2 ^ bits], found bit by bit from the
    top, starting from [r]. *)
Fixpoint cubeRoot (bits : nat) (n r : Z) : Z :=
  match bits with
  | O => r
  | S b =>
      let c := r + 2 ^ Z.of_nat b in
      cubeRoot b n (if c * c * c <=? n then c else r)
  end.

(** The round constants: the first 32 bits of the fractional part of the
    cube root of each prime. *)
Definition K : list Z :=
  Eval vm_compute in
    map (fun p => cubeRoot 36 (p * 2 ^ 96) 0 mod 2 ^ 32) primes.

(** The initial hash value: the first 32 bits of the fractional part of
    the square root of each of the first eight primes. *)
Definition H0 : list Z :=
  Eval vm_compute in
    map (fun p => Z.sqrt (p * 2 ^ 64) mod 2 ^ 32) (firstn 8 primes).

(** Big-endian value of a run of bytes. *)
Definition beValue (l : list byte) : Z :=
  fold_left (fun acc b => 256 * acc + Z.of_N (Byte.to_N b)) l 0.

(** The [n] low bytes of [x], most significant first. *)
Fixpoint beBytes (n : nat) (x : Z) : list byte :=
  match n with
  | O => []
  | S n' =>
      JS.byte_of_N (Z.to_N (Z.land (Z.shiftr x (8 * Z.of_nat n')) 255))
        :: beBytes n' x
  end.

(** Padding: a one bit, zero bits up to 56 mod 64 bytes, then the length
    in bits on 64 bits. *)
Definition pad (msg : list byte) : list byte :=
  let len := Z.of_nat (List.length msg) in
  let zeros := Z.to_nat ((55 - len) mod 64) in
  msg ++ x80 :: repeat x00 zeros ++ beBytes 8 (8 * len).

(** The first sixteen words of the schedule of one 64-byte block, and the
    bytes after that block. *)
Fixpoint words (n : nat) (l : list byte) : list Z * list byte :=
  match n with
  | O => ([], l)
  | S n' =>
      match l with
      | a :: b :: c :: d :: rest =>
          let (ws, tl) := words n' rest in
          (beValue [a; b; c; d] :: ws, tl)
      | _ => ([], [])
      end
  end.

(** Message schedule, kept most recent word first: [extend n w] adds [n]
    words to [w]. *)
Fixpoint extend (n : nat) (w : list Z) : list Z :=
  match n with
  | O => w
  | S n' =>
      match w with
      | _ :: w2 :: _ :: _ :: _ :: _ :: w7 :: _ :: _ :: _
          :: _ :: _ :: _ :: _ :: w15 :: w16 :: _ =>
          extend n'
            (add32 (add32 (smallSigma1 w2) w7) (add32 (smallSigma0 w15) w16)
               :: w)
      | _ => w
      end
  end.

Definition round (st : list Z) (kw : Z * Z) : list Z :=
  match st with
  | [a; b; c; d; e; f; g; h] =>
      let t1 :=
        add32 (add32 (add32 h (bigSigma1 e)) (Ch e f g))
          (add32 (fst kw) (snd kw)) in
      let t2 := add32 (bigSigma0 a) (Maj a b c) in
      [add32 t1 t2; a; b; c; add32 d t1; e; f; g]
  | _ => st
  end.

Definition compress (h : list Z) (block : list Z) : list Z :=
  let w := rev (extend 48 (rev block)) in
  let st := fold_left round (combine K w) h in
  map (fun p => add32 (fst p) (snd p)) (combine h st).

(** The blocks of a padded message: [n] bounds their number. *)
Fixpoint blocks (n : nat) (h : list Z) (l : list byte) : list Z :=
  match n with
  | O => h
  | S n' =>
      match l with
      | [] => h
      | _ :: _ =>
          let (ws, tl) := words 16 l in
          blocks n' (compress h ws) tl
      end
  end.

(** [crypto.createHash('sha256').update(msg).digest()]. *)
Definition sha256 (msg : list byte) : list byte :=
  let p := pad msg in
  flat_map (beBytes 4) (blocks (List.length p) H0 p).

(** [crypto.createHash('sha256').update(msg).digest('hex')]. *)
Definition sha256hex (msg : list byte) : string := JS.toHex (sha256 msg).

End SHA256.

(* ================================================================== *)
(** ** Base64 ([buf.toString('base64')]) *)

Module Base64.

Definition digit (n : N) : ascii :=
  if (n <? 26)%N then ascii_of_N (65 + n)
  else if (n <? 52)%N then ascii_of_N (71 + n)
  else if (n <? 62)%N then ascii_of_N (n - 4)
  else if (n =? 62)%N then "+"%char
  else "/"%char.

Fixpoint encode (l : list byte) : string :=
  match l with
  | [] => EmptyString
  | [a] =>
      let x := Byte.to_N a in
      String (digit (x / 4)) (String (digit (x mod 4 * 16)) "==")
  | [a; b] =>
      let x := Byte.to_N a in
      let y := Byte.to_N b in
      String (digit (x / 4))
        (String (digit (x mod 4 * 16 + y / 16))
           (String (digit (y mod 16 * 4)) "="))
  | a :: b :: c :: rest =>
      let x := Byte.to_N a in
      let y := Byte.to_N b in
      let z := Byte.to_N c in
      String (digit (x / 4))
        (String (digit (x mod 4 * 16 + y / 16))
           (String (digit (y mod 16 * 4 + z / 64))
              (String (digit (z mod 64)) (encode rest))))
  end.

End Base64.


(* ================================================================== *)
(** ** Data of [stellar/htlc-contract.ts] *)

Inductive Network : Type := testnet | mainnet.

Record StellarHTLCConfig : Type := {
  secret : string;
  hashlock : string;
  amount : string;
  makerAddress : string;
  takerAddress : string;
  timelock : Z;            (* Unix timestamp, seconds *)
  network : Network
}.

Inductive TxType : Type := fund | claim | refund.

Definition TxType_eqb (a b : TxType) : bool :=
  match a, b with
  | fund, fund | claim, claim | refund, refund => true
  | _, _ => false
  end.

Record StellarHTLCTransaction : Type := {
  tx_id : string;
  tx_type : TxType;
  tx_from : string;
  tx_to : string;
  tx_amount : string;
  tx_memo : string;
  tx_signature : option string;
  tx_xdr : string;
  tx_hash : string
}.

(** An instance of the class: the two fields every method reads.  The
    SDK variant also keeps [server] and [networkPassphrase], which its
    constructor derives from [config.network] (see [Sdk.server]). *)
Record StellarHTLC : Type := {
  config : StellarHTLCConfig;
  contractId : string
}.

(* ------------------------------------------------------------------ *)
(** *** What the Stellar SDK and Horizon exchange with the class *)

Record Keypair : Type := {
  publicKey : string;
  secretSeed : string
}.

Record Account : Type := {
  accountId : string;
  sequence : Z
}.

Inductive Operation : Type :=
| payment (destination : string) (asset : string) (payAmount : string)
| manageData (name : string) (value : string).

(** The arguments of one [TransactionBuilder ... build()] followed by
    [sign], [toXDR] and [hash]. *)
Record TxRequest : Type := {
  rq_source : Account;
  rq_fee : string;
  rq_networkPassphrase : string;
  rq_operation : Operation;
  rq_memo : string;
  rq_timeout : Z;
  rq_signer : Keypair
}.

Record SignedTx : Type := {
  st_xdr : string;
  st_hash : string
}.

(** An operation as listed in a Horizon transaction record. *)
Record HorizonOperation : Type := {
  op_type : string;
  op_name : option string;
  op_value : option string
}.

(** A Horizon transaction record; [h_operations] is what iterating
    [transaction.operations] gives, an exception when it is not
    iterable. *)
Record HorizonTransaction : Type := {
  h_memo : option string;
  h_memo_type : string;
  h_successful : bool;
  h_operations : result (list HorizonOperation)
}.

(* ------------------------------------------------------------------ *)
(** *** What the coordinator exchanges with the escrow factory *)

Record Immutables : Type := {
  orderHash : string;
  im_hashlock : option string;
  maker : Z;
  taker : Z;
  token : Z;
  im_amount : Z;
  safetyDeposit : Z;
  timelocks : Z
}.

Record EscrowReceipt : Type := {
  rc_hash : string;
  rc_blockNumber : Z;
  rc_gasUsed : Z;
  rc_DstEscrowCreated : option string   (* escrow address of the event *)
}.

(* ================================================================== *)
(** ** The outside world *)

(** Interactions with a ledger, in the order they happen. *)
Inductive Event : Type :=
| EvLoadAccount (pk : string)
| EvBuildTransaction (rq : TxRequest)
| EvSubmitTransaction (xdr : string)
| EvTransactionCall (txHash : string)
| EvCreateDstEscrow (im : Immutables) (value : Z)
| EvAddressOfEscrowDst (im : Immutables).

(** Every read of the surroundings is numbered by [tick]; what the
    [n]-th read returns is given by the field for that kind of read.
    [trace] records the ledger interactions made so far, latest first. *)
Record World : Type := {
  tick : nat;
  trace : list Event;
  Date_now_at : nat -> Z;                         (* milliseconds *)
  randomBytes_at : nat -> list byte;
  loadAccount_at : nat -> string -> result Account;
  buildTransaction_at : nat -> TxRequest -> result SignedTx;
  submitTransaction_at : nat -> string -> result string;
  transactionCall_at : nat -> string -> result HorizonTransaction;
  createDstEscrow_at : nat -> Immutables -> Z -> result EscrowReceipt;
  addressOfEscrowDst_at : nat -> Immutables -> result string
}.

Definition advance (w : World) (evs : list Event) : World :=
  {| tick := S (tick w);
     trace := evs ++ trace w;
     Date_now_at := Date_now_at w;
     randomBytes_at := randomBytes_at w;
     loadAccount_at := loadAccount_at w;
     buildTransaction_at := buildTransaction_at w;
     submitTransaction_at := submitTransaction_at w;
     transactionCall_at := transactionCall_at w;
     createDstEscrow_at := createDstEscrow_at w;
     addressOfEscrowDst_at := addressOfEscrowDst_at w |}.

(** A computation that may read the world and may throw. *)
Definition M (A : Type) : Type := World -> result A * World.

Definition ret {A : Type} (a : A) : M A := fun w => (Ok a, w).

Definition throw {A : Type} (message : string) : M A :=
  fun w => (Throw message, w).

Definition bind {A B : Type} (m : M A) (k : A -> M B) : M B :=
  fun w =>
    match m w with
    | (Ok a, w') => k a w'
    | (Throw e, w') => (Throw e, w')
    end.

(** [try { m } catch (error) { handler(error.message) }]. *)
Definition try_catch {A : Type} (m : M A) (handler : string -> M A) : M A :=
  fun w =>
    match m w with
    | (Ok a, w') => (Ok a, w')
    | (Throw e, w') => handler e w'
    end.

(** Lifting the answer of the outside: an exception there is thrown
    here. *)
Definition lift {A : Type} (r : result A) : M A :=
  fun w => (r, w).

Declare Scope js_scope.
Delimit Scope js_scope with js.
Notation "x <- m ;; k" := (bind m (fun x => k))
  (at level 61, m at next level, right associativity) : js_scope.
Notation "m ;;; k" := (bind m (fun _ => k))
  (at level 61, right associativity) : js_scope.
Local Open Scope js_scope.

(** [Date.now()]. *)
Definition Date_now : M Z :=
  fun w => (Ok (Date_now_at w (tick w)), advance w []).

(** [crypto.randomBytes(n)]: exactly [n] bytes. *)
Definition randomBytes (n : nat) : M (list byte) :=
  fun w =>
    (Ok (firstn n (randomBytes_at w (tick w) ++ repeat x00 n)), advance w []).

(** [server.loadAccount(pk)]. *)
Definition loadAccount (pk : string) : M Account :=
  fun w => (loadAccount_at w (tick w) pk, advance w [EvLoadAccount pk]).

(** [new TransactionBuilder(...).addOperation(...).addMemo(...)
    .setTimeout(...).build()], [sign], [toXDR()] and [hash()]. *)
Definition buildTransaction (rq : TxRequest) : M SignedTx :=
  fun w =>
    (buildTransaction_at w (tick w) rq, advance w [EvBuildTransaction rq]).

(** [server.submitTransaction(transaction)]: the hash of the result. *)
Definition serverSubmit (xdr : string) : M string :=
  fun w =>
    (submitTransaction_at w (tick w) xdr, advance w [EvSubmitTransaction xdr]).

(** [server.transactions().transaction(txHash).call()]. *)
Definition transactionCall (txHash : string) : M HorizonTransaction :=
  fun w =>
    (transactionCall_at w (tick w) txHash, advance w [EvTransactionCall txHash]).

(** [escrowFactory.createDstEscrow(immutables, {value})] and [tx.wait()]. *)
Definition createDstEscrow (im : Immutables) (value : Z) : M EscrowReceipt :=
  fun w =>
    (createDstEscrow_at w (tick w) im value,
     advance w [EvCreateDstEscrow im value]).

(** [escrowFactory.addressOfEscrowDst(immutables)]. *)
Definition addressOfEscrowDst (im : Immutables) : M string :=
  fun w =>
    (addressOfEscrowDst_at w (tick w) im, advance w [EvAddressOfEscrowDst im]).

(* ================================================================== *)
(** ** Methods the two variants of [StellarHTLC] share *)

(** [JSON.stringify] of one member with a string value. *)
Definition jsonMember (key val : string) : string :=
  JS.jsonString key ++ ":" ++ JS.jsonString val.

(** [JSON.stringify] of one member with a number value. *)
Definition jsonNumber (key : string) (val : Z) : string :=
  JS.jsonString key ++ ":" ++ JS.numberToString val.

(** [generateContractId()]: the first 16 hexadecimal digits of the
    SHA-256 of the JSON text of
    [{hashlock, maker, taker, amount, timelock}]. *)
Definition generateContractId (c : StellarHTLCConfig) : string :=
  let data :=
    "{" ++ jsonMember "hashlock" (hashlock c)
        ++ "," ++ jsonMember "maker" (makerAddress c)
        ++ "," ++ jsonMember "taker" (takerAddress c)
        ++ "," ++ jsonMember "amount" (amount c)
        ++ "," ++ jsonNumber "timelock" (timelock c) ++ "}" in
  JS.take 16 (SHA256.sha256hex (JS.utf8 data)).

(** [new StellarHTLC(config)]. *)
Definition newStellarHTLC (c : StellarHTLCConfig) : StellarHTLC :=
  {| config := c; contractId := generateContractId c |}.

Definition getContractId (this : StellarHTLC) : string := contractId this.

(** [validateSecret(secret)]: the hexadecimal secret, with its first
    [0x] removed, is decoded, hashed, and the lower-case hexadecimal
    digest is compared with the hashlock without its first [0x]. *)
Definition validateSecret (this : StellarHTLC) (secret : string) : bool :=
  let secretBuffer := JS.hexDecode (JS.replace "0x" "" secret) in
  let calculatedHash := SHA256.sha256hex secretBuffer in
  let expectedHash := JS.replace "0x" "" (hashlock (config this)) in
  String.eqb calculatedHash expectedHash.

(** [isTimelockExpired()]: [Date.now() / 1000 > this.config.timelock].
    [Date.now()] is an integer number of milliseconds; for an integer
    timelock below 2^43 the floating-point quotient compares with the
    timelock as the exact quotient does, so the test is
    [Date.now() > 1000 * timelock]. *)
Definition isTimelockExpired (this : StellarHTLC) : M bool :=
  now <- Date_now ;;
  ret (1000 * timelock (config this) <? now)%Z.

(* ------------------------------------------------------------------ *)
(** *** The pattern [/HTLC_CLAIM_[^_]+_([a-fA-F0-9]+)/] *)

Module Regex.

(** A literal piece of the pattern, then the rest of the pattern [k]. *)
Definition lit {A : Type} (p : string) (k : string -> option A)
    (s : string) : option A :=
  if JS.startsWith p s then k (JS.slice (String.length p) s) else None.

(** [cls+], greedy: as many characters of the class as possible are
    taken, and one is given back at a time while the rest of the pattern
    [k] does not match.  [k] receives the text taken and what follows. *)
Fixpoint plus {A : Type} (cls : ascii -> bool)
    (k : string -> string -> option A) (taken s : string) : option A :=
  match s with
  | EmptyString => None
  | String c s' =>
      if cls c then
        match plus cls k (taken ++ String c EmptyString) s' with
        | Some r => Some r
        | None => k (taken ++ String c EmptyString) s'
        end
      else None
  end.

(** The whole pattern, anchored at the start of [s]: the text of its
    group. *)
Definition matchHere (s : string) : option string :=
  lit "HTLC_CLAIM_"
    (plus JS.notUnderscore
       (fun _ => lit "_" (plus JS.isHex (fun g _ => Some g) EmptyString))
       EmptyString)
    s.

(** [s.match(pattern)]: the leftmost position where the pattern matches;
    the result is the text of group 1 ([memoMatch[1]]). *)
Fixpoint memoMatch (s : string) : option string :=
  match matchHere s with
  | Some g => Some g
  | None =>
      match s with
      | EmptyString => None
      | String _ s' => memoMatch s'
      end
  end.

End Regex.

(** [extractSecretFromTransaction(tx)], [None] standing for [null]. *)
Definition extractSecretFromTransaction (this : StellarHTLC)
    (tx : StellarHTLCTransaction) : option string :=
  if negb (TxType_eqb (tx_type tx) claim) then None
  else
    match Regex.memoMatch (tx_memo tx) with
    | None => None
    | Some g =>
        let secret := "0x" ++ g in
        if validateSecret this secret then Some secret else None
    end.

(* ================================================================== *)
(** ** The mock variant of [StellarHTLC] (pre-signed transactions are
       simulated) *)

Module Mock.

(** [createMockXDR(type, from, to, secret?)]: the JSON text of the
    transaction data, in base64.  [secret || ''] is the empty string when
    no secret is passed. *)
Definition createMockXDR (this : StellarHTLC) (type from to : string)
    (secret : option string) : M string :=
  timestamp <- Date_now ;;
  let txData :=
    "{" ++ jsonMember "type" type
        ++ "," ++ jsonMember "from" from
        ++ "," ++ jsonMember "to" to
        ++ "," ++ jsonMember "amount" (amount (config this))
        ++ "," ++ jsonMember "contractId" (contractId this)
        ++ "," ++ jsonNumber "timelock" (timelock (config this))
        ++ "," ++ jsonMember "hashlock" (hashlock (config this))
        ++ "," ++ jsonMember "secret"
                    (match secret with Some s => s | None => EmptyString end)
        ++ "," ++ jsonNumber "timestamp" timestamp ++ "}" in
  ret (Base64.encode (JS.utf8 txData)).

Definition createFundingTransaction (this : StellarHTLC)
    : M StellarHTLCTransaction :=
  txId <- randomBytes 16 ;;
  let memo := "HTLC_FUND_" ++ contractId this in
  mockXDR <- createMockXDR this "fund" (takerAddress (config this))
               (makerAddress (config this)) None ;;
  ret {| tx_id := JS.toHex txId;
         tx_type := fund;
         tx_from := takerAddress (config this);
         tx_to := makerAddress (config this);
         tx_amount := amount (config this);
         tx_memo := memo;
         tx_signature := None;
         tx_xdr := mockXDR;
         tx_hash := SHA256.sha256hex (JS.utf8 mockXDR) |}.

Definition createClaimingTransaction (this : StellarHTLC) (secret : string)
    : M StellarHTLCTransaction :=
  if negb (validateSecret this secret) then throw "Invalid secret provided"
  else
    expired <- isTimelockExpired this ;;
    if (expired : bool) then throw "Timelock has expired, cannot claim"
    else
      txId <- randomBytes 16 ;;
      let memo :=
        "HTLC_CLAIM_" ++ contractId this ++ "_" ++ JS.replace "0x" "" secret in
      mockXDR <- createMockXDR this "claim" (makerAddress (config this))
                   (makerAddress (config this)) (Some secret) ;;
      ret {| tx_id := JS.toHex txId;
             tx_type := claim;
             tx_from := makerAddress (config this);
             tx_to := makerAddress (config this);
             tx_amount := amount (config this);
             tx_memo := memo;
             tx_signature := None;
             tx_xdr := mockXDR;
             tx_hash := SHA256.sha256hex (JS.utf8 mockXDR) |}.

Definition createRefundTransaction (this : StellarHTLC)
    : M StellarHTLCTransaction :=
  expired <- isTimelockExpired this ;;
  if negb expired then throw "Timelock has not expired yet, cannot refund"
  else
    txId <- randomBytes 16 ;;
    let memo := "HTLC_REFUND_" ++ contractId this in
    mockXDR <- createMockXDR this "refund" (makerAddress (config this))
                 (takerAddress (config this)) None ;;
    ret {| tx_id := JS.toHex txId;
           tx_type := refund;
           tx_from := makerAddress (config this);
           tx_to := takerAddress (config this);
           tx_amount := amount (config this);
           tx_memo := memo;
           tx_signature := None;
           tx_xdr := mockXDR;
           tx_hash := SHA256.sha256hex (JS.utf8 mockXDR) |}.

End Mock.

(* ================================================================== *)
(** ** The Stellar-SDK variant of [StellarHTLC] *)

Module Sdk.

(** The constructor's choice of Horizon server. *)
Definition server (this : StellarHTLC) : string :=
  match network (config this) with
  | testnet => "https://horizon-testnet.stellar.org"
  | mainnet => "https://horizon.stellar.org"
  end.

(** [StellarSdk.Networks.TESTNET] and [StellarSdk.Networks.PUBLIC]. *)
Definition networkPassphrase (this : StellarHTLC) : string :=
  match network (config this) with
  | testnet => "Test SDF Network ; September 2015"
  | mainnet => "Public Global Stellar Network ; September 2015"
  end.

(** [StellarSdk.BASE_FEE]. *)
Definition BASE_FEE : string := "100".

(** [StellarSdk.Asset.native()]. *)
Definition native : string := "native".

Definition createFundingTransaction (this : StellarHTLC)
    (takerKeypair : Keypair) : M StellarHTLCTransaction :=
  try_catch
    (takerAccount <- loadAccount (publicKey takerKeypair) ;;
     signed <- buildTransaction
       {| rq_source := takerAccount;
          rq_fee := BASE_FEE;
          rq_networkPassphrase := networkPassphrase this;
          rq_operation :=
            payment (makerAddress (config this)) native (amount (config this));
          rq_memo := "HTLC_FUND_" ++ contractId this;
          rq_timeout := 300;
          rq_signer := takerKeypair |} ;;
     ret {| tx_id := st_hash signed;
            tx_type := fund;
            tx_from := takerAddress (config this);
            tx_to := makerAddress (config this);
            tx_amount := amount (config this);
            tx_memo := "HTLC_FUND_" ++ contractId this;
            tx_signature := None;
            tx_xdr := st_xdr signed;
            tx_hash := st_hash signed |})
    (fun message => throw ("Failed to create funding transaction: " ++ message)).

Definition createClaimingTransaction (this : StellarHTLC) (secret : string)
    (makerKeypair : Keypair) : M StellarHTLCTransaction :=
  if negb (validateSecret this secret) then throw "Invalid secret provided"
  else
    expired <- isTimelockExpired this ;;
    if (expired : bool) then throw "Timelock has expired, cannot claim"
    else
      try_catch
        (makerAccount <- loadAccount (publicKey makerKeypair) ;;
         let memo :=
           "HTLC_CLAIM_" ++ contractId this ++ "_"
             ++ JS.replace "0x" "" secret in
         signed <- buildTransaction
           {| rq_source := makerAccount;
              rq_fee := BASE_FEE;
              rq_networkPassphrase := networkPassphrase this;
              rq_operation :=
                manageData ("htlc_secret_" ++ contractId this)
                  (JS.replace "0x" "" secret);
              rq_memo := memo;
              rq_timeout := 300;
              rq_signer := makerKeypair |} ;;
         ret {| tx_id := st_hash signed;
                tx_type := claim;
                tx_from := makerAddress (config this);
                tx_to := makerAddress (config this);
                tx_amount := amount (config this);
                tx_memo := memo;
                tx_signature := None;
                tx_xdr := st_xdr signed;
                tx_hash := st_hash signed |})
        (fun message =>
           throw ("Failed to create claiming transaction: " ++ message)).

Definition createRefundTransaction (this : StellarHTLC)
    (makerKeypair : Keypair) : M StellarHTLCTransaction :=
  expired <- isTimelockExpired this ;;
  if negb expired then throw "Timelock has not expired yet, cannot refund"
  else
    try_catch
      (makerAccount <- loadAccount (publicKey makerKeypair) ;;
       signed <- buildTransaction
         {| rq_source := makerAccount;
            rq_fee := BASE_FEE;
            rq_networkPassphrase := networkPassphrase this;
            rq_operation :=
              payment (takerAddress (config this)) native
                (amount (config this));
            rq_memo := "HTLC_REFUND_" ++ contractId this;
            rq_timeout := 300;
            rq_signer := makerKeypair |} ;;
       ret {| tx_id := st_hash signed;
              tx_type := refund;
              tx_from := makerAddress (config this);
              tx_to := takerAddress (config this);
              tx_amount := amount (config this);
              tx_memo := "HTLC_REFUND_" ++ contractId this;
              tx_signature := None;
              tx_xdr := st_xdr signed;
              tx_hash := st_hash signed |})
      (fun message =>
         throw ("Failed to create refund transaction: " ++ message)).

(** [submitTransaction(xdr)]: the hash of the submitted transaction. *)
Definition submitTransaction (this : StellarHTLC) (xdr : string) : M string :=
  try_catch (serverSubmit xdr)
    (fun message => throw ("Failed to submit transaction: " ++ message)).

(** The memo part of [extractSecretFromTransactionHash]. *)
Definition secretOfMemo (this : StellarHTLC) (t : HorizonTransaction)
    : option string :=
  match h_memo t with
  | Some memo =>
      if negb (String.eqb memo EmptyString) && String.eqb (h_memo_type t) "text"
      then
        match Regex.memoMatch memo with
        | Some g =>
            let secret := "0x" ++ g in
            if validateSecret this secret then Some secret else None
        | None => None
        end
      else None
  | None => None
  end.

(** The loop of [extractSecretFromTransactionHash] over the operations;
    ['0x' + operation.value] is [0xundefined] for an absent value. *)
Fixpoint secretOfOperations (this : StellarHTLC) (ops : list HorizonOperation)
    : option string :=
  match ops with
  | [] => None
  | operation :: rest =>
      let named :=
        match op_name operation with
        | Some n => JS.startsWith ("htlc_secret_" ++ contractId this) n
        | None => false
        end in
      let secret :=
        "0x" ++ match op_value operation with
                | Some v => v
                | None => "undefined"
                end in
      if String.eqb (op_type operation) "manage_data" && named
         && validateSecret this secret
      then Some secret
      else secretOfOperations this rest
  end.

Definition extractSecretFromTransactionHash (this : StellarHTLC)
    (txHash : string) : M (option string) :=
  try_catch
    (transaction <- transactionCall txHash ;;
     match secretOfMemo this transaction with
     | Some secret => ret (Some secret)
     | None =>
         ops <- lift (h_operations transaction) ;;
         ret (secretOfOperations this ops)
     end)
    (fun message =>
       throw ("Failed to extract secret from transaction: " ++ message)).

End Sdk.

(* ================================================================== *)
(** ** Sequences of operations on one escrow record *)

Inductive Op : Type :=
| OpFund
| OpClaim (secret : string)
| OpRefund.

(** One operation of the mock class. *)
Definition perform (this : StellarHTLC) (o : Op) : M StellarHTLCTransaction :=
  match o with
  | OpFund => Mock.createFundingTransaction this
  | OpClaim secret => Mock.createClaimingTransaction this secret
  | OpRefund => Mock.createRefundTransaction this
  end.

(** One operation of the SDK class, signed with [kp]. *)
Definition performSdk (kp : Keypair) (this : StellarHTLC) (o : Op)
    : M StellarHTLCTransaction :=
  match o with
  | OpFund => Sdk.createFundingTransaction this kp
  | OpClaim secret => Sdk.createClaimingTransaction this secret kp
  | OpRefund => Sdk.createRefundTransaction this kp
  end.

(** The operations [ops] applied in order to the same record: the
    outcomes, and the world afterwards.  No method assigns a field of
    [this], so the record is the same at every step, and an exception of
    one call does not stop the next. *)
Fixpoint run (step : StellarHTLC -> Op -> M StellarHTLCTransaction)
    (this : StellarHTLC) (ops : list Op) (w : World)
    : list (result StellarHTLCTransaction) * World :=
  match ops with
  | [] => ([], w)
  | o :: ops' =>
      let (r, w1) := step this o w in
      let (rs, w2) := run step this ops' w1 in
      (r :: rs, w2)
  end.

(** Whether an operation is let through at clock reading [now]
    (milliseconds): what the guards of the three methods test. *)
Definition guardsPass (this : StellarHTLC) (o : Op) (now : Z) : bool :=
  match o with
  | OpFund => true
  | OpClaim secret =>
      validateSecret this secret && negb (1000 * timelock (config this) <? now)%Z
  | OpRefund => (1000 * timelock (config this) <? now)%Z
  end.

(* ================================================================== *)
(** ** The coordinator scripts *)

(** The three checkpoints of the Base escrow, absolute, in seconds. *)
Record Timelocks : Type := {
  withdrawal : Z;
  publicWithdrawal : Z;
  cancellation : Z
}.

(** The expression both scripts use to pack the timelocks in one
    [uint256]; BigInt shifts and ors are those of unbounded integers:
<<
  (deploymentTime << 224n) | (BigInt(timelocks.withdrawal - now) << 0n)
  | (BigInt(timelocks.publicWithdrawal - now) << 32n)
  | (BigInt(timelocks.cancellation - now) << 64n)
>> *)
Definition packedTimelocks (now : Z) (tl : Timelocks) : Z :=
  let deploymentTime := now in
  Z.lor
    (Z.lor
       (Z.lor (Z.shiftl deploymentTime 224)
              (Z.shiftl (withdrawal tl - now) 0))
       (Z.shiftl (publicWithdrawal tl - now) 32))
    (Z.shiftl (cancellation tl - now) 64).

(** The checkpoints [lockETHIntoHTLC] sets: 1 hour, 6 hours, 24 hours. *)
Definition lockTimelocks (now : Z) : Timelocks :=
  {| withdrawal := now + 3600;
     publicWithdrawal := now + 21600;
     cancellation := now + 86400 |}.

(** The checkpoints [testETHRefund] sets: 10, 20 and 30 seconds. *)
Definition shortTimelocks (now : Z) : Timelocks :=
  {| withdrawal := now + 10;
     publicWithdrawal := now + 20;
     cancellation := now + 30 |}.

(** [BigInt(address)] for an address written [0x] and an even number of
    hexadecimal digits. *)
Definition BigInt (address : string) : Z :=
  SHA256.beValue (JS.hexDecode (JS.slice 2 address)).

(** [ethers.parseEther('0.001')] and [ethers.parseEther('0.0001')], in
    wei. *)
Definition ethAmount : Z := 10 ^ 15.
Definition safetyDepositAmount : Z := 10 ^ 14.

(** Reading a property of [null] or [undefined]. *)
Definition TypeError : string := "Cannot read properties of null".

Definition required {A : Type} (o : option A) : M A :=
  match o with
  | Some a => ret a
  | None => throw TypeError
  end.

Record BaseEscrow : Type := {
  be_hash : string;
  be_address : string;
  be_amount : Z;                (* wei; the script keeps its decimal text *)
  be_immutables : Immutables;
  be_blockNumber : Z;
  be_gasUsed : Z
}.

Record SecretReveal : Type := {
  sr_hash : string;
  sr_simulated : bool
}.

(** The check both scripts make on an extracted secret:
    ['0x' + sha256(Buffer.from(extractedSecret.slice(2), 'hex'))] against
    [swapState.hashlock] ([null] before [generateHashlock]). *)
Definition calculatedHash (extractedSecret : string) : string :=
  "0x" ++ SHA256.sha256hex (JS.hexDecode (JS.slice 2 extractedSecret)).

Definition isValidSecret (extractedSecret : string)
    (expected : option string) : bool :=
  match expected with
  | Some h => String.eqb (calculatedHash extractedSecret) h
  | None => false
  end.

(* ------------------------------------------------------------------ *)
(** *** [real-test-stellar-to-base.js] *)

Module StellarToBase.

(** [CONFIG.swap.xlmAmount]. *)
Definition xlmAmount : string := "10".

(** The global [swapState]; [None] stands for [null] or for a key of
    [transactions] that is not set yet. *)
Record SwapState : Type := {
  s_secret : option string;
  s_hashlock : option string;
  s_orderId : option string;
  baseSigner : option string;            (* address of the signer *)
  stellarMaker : option Keypair;
  stellarTaker : option Keypair;
  stellarHTLC : option StellarHTLC;
  baseEscrow : option BaseEscrow;
  secretReveal : option SecretReveal
}.

(** [generateHashlock()]: the new state; the script stops at the first
    exception, so no state is kept for that case. *)
Definition generateHashlock (st : SwapState) : M (bool * SwapState) :=
  secretBytes <- randomBytes 32 ;;
  let secret := "0x" ++ JS.toHex secretBytes in
  let hashlock := "0x" ++ JS.toHex (SHA256.sha256 secretBytes) in
  t0 <- Date_now ;;
  let orderId := "atomic_swap_" ++ JS.numberToString t0 in
  makerKp <- required (stellarMaker st) ;;
  takerKp <- required (stellarTaker st) ;;
  t1 <- Date_now ;;
  let htlcConfig :=
    {| secret := secret;
       hashlock := hashlock;
       amount := xlmAmount;
       makerAddress := publicKey makerKp;
       takerAddress := publicKey takerKp;
       timelock := t1 / 1000 + 86400;
       network := testnet |} in
  ret (true,
       {| s_secret := Some secret;
          s_hashlock := Some hashlock;
          s_orderId := Some orderId;
          baseSigner := baseSigner st;
          stellarMaker := stellarMaker st;
          stellarTaker := stellarTaker st;
          stellarHTLC := Some (newStellarHTLC htlcConfig);
          baseEscrow := baseEscrow st;
          secretReveal := secretReveal st |}).

(** [lockETHIntoHTLC()]. *)
Definition lockETHIntoHTLC (st : SwapState) : M (bool * SwapState) :=
  try_catch
    (t <- Date_now ;;
     let now := t / 1000 in
     let timelocks := lockTimelocks now in
     let packed := packedTimelocks now timelocks in
     oh <- randomBytes 32 ;;
     signer <- required (baseSigner st) ;;
     tk <- randomBytes 20 ;;
     let immutables :=
       {| orderHash := "0x" ++ JS.toHex oh;
          im_hashlock := s_hashlock st;
          maker := BigInt signer;
          taker := BigInt ("0x" ++ JS.toHex tk);
          token := 0;
          im_amount := ethAmount;
          safetyDeposit := safetyDepositAmount;
          timelocks := packed |} in
     let totalValue := im_amount immutables + safetyDeposit immutables in
     receipt <- createDstEscrow immutables totalValue ;;
     escrowAddress <-
       match rc_DstEscrowCreated receipt with
       | Some a => ret a
       | None => addressOfEscrowDst immutables
       end ;;
     ret (true,
          {| s_secret := s_secret st;
             s_hashlock := s_hashlock st;
             s_orderId := s_orderId st;
             baseSigner := baseSigner st;
             stellarMaker := stellarMaker st;
             stellarTaker := stellarTaker st;
             stellarHTLC := stellarHTLC st;
             baseEscrow :=
               Some {| be_hash := rc_hash receipt;
                       be_address := escrowAddress;
                       be_amount := im_amount immutables;
                       be_immutables := immutables;
                       be_blockNumber := rc_blockNumber receipt;
                       be_gasUsed := rc_gasUsed receipt |};
             secretReveal := secretReveal st |}))
    (fun message => throw message).

(** The first steps of [runAtomicSwapTest()] once the connections are
    made: the session is set up, then the Base leg is funded. *)
Definition runAtomicSwapTestSetup (st : SwapState) : M (bool * SwapState) :=
  r <- generateHashlock st ;;
  lockETHIntoHTLC (snd r).

(** The first half of [claimAssets()]: where the secret used for the
    dependent claim comes from. *)
Definition extractedSecretOf (st : SwapState) : M string :=
  reveal <- required (secretReveal st) ;;
  if sr_simulated reveal then required (s_secret st)
  else
    try_catch
      (htlc <- required (stellarHTLC st) ;;
       extracted <- Sdk.extractSecretFromTransactionHash htlc (sr_hash reveal) ;;
       match extracted with
       | Some s => if String.eqb s EmptyString
                   then throw "Secret not found in transaction"
                   else ret s
       | None => throw "Secret not found in transaction"
       end)
      (fun _ => required (s_secret st)).

(** [claimAssets()]. *)
Definition claimAssets (st : SwapState) : M bool :=
  try_catch
    (extractedSecret <- extractedSecretOf st ;;
     if negb (isValidSecret extractedSecret (s_hashlock st))
     then throw "Invalid secret extracted!"
     else
       escrow <- required (baseEscrow st) ;;
       ret true)
    (fun message => throw message).

End StellarToBase.

(* ------------------------------------------------------------------ *)
(** *** [real-test-base-to-stellar.js] *)

Module BaseToStellar.

Record SwapState : Type := {
  s_secret : option string;
  s_hashlock : option string;
  s_orderId : option string;
  makerSigner : option string;           (* addresses of the signers *)
  takerSigner : option string;
  baseEscrow : option BaseEscrow
}.

(** [generateHashlock()]. *)
Definition generateHashlock (st : SwapState) : M (bool * SwapState) :=
  secretBytes <- randomBytes 32 ;;
  let secret := "0x" ++ JS.toHex secretBytes in
  let hashlock := "0x" ++ JS.toHex (SHA256.sha256 secretBytes) in
  t0 <- Date_now ;;
  let orderId := "base_to_stellar_" ++ JS.numberToString t0 in
  ret (true,
       {| s_secret := Some secret;
          s_hashlock := Some hashlock;
          s_orderId := Some orderId;
          makerSigner := makerSigner st;
          takerSigner := takerSigner st;
          baseEscrow := baseEscrow st |}).

(** [lockETHIntoHTLC()]. *)
Definition lockETHIntoHTLC (st : SwapState) : M (bool * SwapState) :=
  try_catch
    (t <- Date_now ;;
     let now := t / 1000 in
     let timelocks := lockTimelocks now in
     let packed := packedTimelocks now timelocks in
     oh <- randomBytes 32 ;;
     mk <- required (makerSigner st) ;;
     tk <- required (takerSigner st) ;;
     let immutables :=
       {| orderHash := "0x" ++ JS.toHex oh;
          im_hashlock := s_hashlock st;
          maker := BigInt mk;
          taker := BigInt tk;
          token := 0;
          im_amount := ethAmount;
          safetyDeposit := safetyDepositAmount;
          timelocks := packed |} in
     let totalValue := im_amount immutables + safetyDeposit immutables in
     receipt <- createDstEscrow immutables totalValue ;;
     escrowAddress <-
       match rc_DstEscrowCreated receipt with
       | Some a => ret a
       | None => addressOfEscrowDst immutables
       end ;;
     ret (true,
          {| s_secret := s_secret st;
             s_hashlock := s_hashlock st;
             s_orderId := s_orderId st;
             makerSigner := makerSigner st;
             takerSigner := takerSigner st;
             baseEscrow :=
               Some {| be_hash := rc_hash receipt;
                       be_address := escrowAddress;
                       be_amount := im_amount immutables;
                       be_immutables := immutables;
                       be_blockNumber := rc_blockNumber receipt;
                       be_gasUsed := rc_gasUsed receipt |} |}))
    (fun message => throw message).

(** [ethTakerClaimETH()]: the extraction is simulated, the secret is the
    one of [swapState]. *)
Definition ethTakerClaimETH (st : SwapState) : M bool :=
  try_catch
    (extractedSecret <- required (s_secret st) ;;
     if negb (isValidSecret extractedSecret (s_hashlock st))
     then throw "Invalid secret extracted!"
     else
       escrow <- required (baseEscrow st) ;;
       ret true)
    (fun message => throw message).

End BaseToStellar.

(** Whether a trace holds a submission to a ledger (a Stellar
    transaction or an escrow call). *)
Fixpoint submitted (evs : list Event) : bool :=
  match evs with
  | [] => false
  | EvSubmitTransaction _ :: _ => true
  | EvCreateDstEscrow _ _ :: _ => true
  | _ :: rest => submitted rest
  end.

(* ================================================================== *)
(** ** Predicates used in the statements *)

(** Every character of [s] is in the class [p]. *)
Fixpoint allb (p : ascii -> bool) (s : string) : bool :=
  match s with
  | EmptyString => true
  | String c s' => p c && allb p s'
  end.

(** The text [g] occurs in [memo]. *)
Definition embeds (memo g : string) : Prop :=
  exists pre post, memo = pre ++ g ++ post.

(** The hashlock the scripts derive from the bytes of a secret, and the
    way they write the secret itself. *)
Definition deriveHashlock (secretBytes : list byte) : string :=
  "0x" ++ JS.toHex (SHA256.sha256 secretBytes).

Definition writeSecret (secretBytes : list byte) : string :=
  "0x" ++ JS.toHex secretBytes.

(** The clock reading a method takes first when it starts in world [w]. *)
Definition reading (w : World) : Z := Date_now_at w (tick w).

(** A computation that makes no submission to a ledger: the
    interactions it adds to the trace hold none. *)
Definition quiet {A : Type} (m : M A) : Prop :=
  forall w, exists evs,
    trace (snd (m w)) = (evs ++ trace w)%list /\ submitted evs = false.

(* ================================================================== *)
(** ** Concrete records and worlds used in the examples *)

Module Fixture.

(** The 32-byte secret made of zero bytes, as the scripts write it. *)
Definition secret0 : string := "0x" ++ JS.toHex (repeat x00 32).

Definition hashlock0 : string :=
  "0x66687aadf862bd776c8fc18b8e9f8e20089714856ee233b3902a591d0d5f2925".

Definition config0 : StellarHTLCConfig :=
  {| secret := secret0;
     hashlock := hashlock0;
     amount := "10";
     makerAddress := "GCYYNNOGU2NX2KQN3MVFTA2A2EMJ7K3BMYUQB7AVZ7FX4J4YW7MMFMWN";
     takerAddress := "GBI4P5IHHXBQQ4BQQBF453NOEAWVAOJIBNMVQQXRZS4PSUUCZ3XWIJOY";
     timelock := 1700086400;
     network := testnet |}.

Definition htlc0 : StellarHTLC := newStellarHTLC config0.

(** A world whose clock gives [clock n] at the [n]-th read, whose random
    source gives zero bytes, and whose ledgers answer every call. *)
Definition worldAt (clock : nat -> Z) : World :=
  {| tick := 0;
     trace := [];
     Date_now_at := clock;
     randomBytes_at := fun _ => [];
     loadAccount_at := fun _ pk => Ok {| accountId := pk; sequence := 1 |};
     buildTransaction_at :=
       fun _ rq => Ok {| st_xdr := "AAAA"; st_hash := "00" |};
     submitTransaction_at := fun _ _ => Ok "00";
     transactionCall_at := fun _ _ => Throw "Not Found";
     createDstEscrow_at :=
       fun _ _ _ => Ok {| rc_hash := "0x00"; rc_blockNumber := 1;
                          rc_gasUsed := 21000;
                          rc_DstEscrowCreated := Some "0x01" |};
     addressOfEscrowDst_at := fun _ _ => Ok "0x01" |}.

(** [config0] with another hashlock. *)
Definition configWith (h : string) : StellarHTLCConfig :=
  {| secret := secret0;
     hashlock := h;
     amount := amount config0;
     makerAddress := makerAddress config0;
     takerAddress := takerAddress config0;
     timelock := timelock config0;
     network := network config0 |}.

(** The key pair that signs in the examples. *)
Definition keypair0 : Keypair :=
  {| publicKey := "GCYYNNOGU2NX2KQN3MVFTA2A2EMJ7K3BMYUQB7AVZ7FX4J4YW7MMFMWN";
     secretSeed := "S" |}.

(** The secret of [config0] written without its [0x]. *)
Definition bareSecret0 : string := JS.toHex (repeat x00 32).

(** A claim transaction and a funding transaction of [htlc0]. *)
Definition claimTx0 : StellarHTLCTransaction :=
  {| tx_id := "00";
     tx_type := claim;
     tx_from := makerAddress config0;
     tx_to := makerAddress config0;
     tx_amount := "10";
     tx_memo := "HTLC_CLAIM_ec892d500d9e1f35_" ++ bareSecret0;
     tx_signature := None;
     tx_xdr := "AAAA";
     tx_hash := "00" |}.

Definition fundTx0 : StellarHTLCTransaction :=
  {| tx_id := "00";
     tx_type := fund;
     tx_from := takerAddress config0;
     tx_to := makerAddress config0;
     tx_amount := "10";
     tx_memo := "HTLC_FUND_ec892d500d9e1f35";
     tx_signature := None;
     tx_xdr := "AAAA";
     tx_hash := "00" |}.

(** One second before the deadline of [config0], in milliseconds. *)
Definition early : Z := 1700086399000.

(** Exactly the deadline of [config0], in milliseconds. *)
Definition deadline : Z := 1700086400000.

(** One millisecond after the deadline of [config0]. *)
Definition late : Z := 1700086400001.

(** A record whose hashlock is the digest of the single byte 00. *)
Definition config1 : StellarHTLCConfig :=
  {| secret := "0x00";
     hashlock :=
       "0x6e340b9cffb37a989ca544e6bb780a2c78901d3fb33738768511a30617afa01d";
     amount := "10";
     makerAddress := makerAddress config0;
     takerAddress := takerAddress config0;
     timelock := 1700086400;
     network := testnet |}.

Definition htlc1 : StellarHTLC := newStellarHTLC config1.

(** A clock that reads [early] for its first six reads and [late]
    afterwards. *)
Definition clockPassing (n : nat) : Z :=
  if (n <? 6)%nat then early else late.

(** A state of the Stellar-to-Base script after a simulated reveal,
    holding a secret that is not the preimage of its hashlock. *)
Definition mismatched : StellarToBase.SwapState :=
  {| StellarToBase.s_secret := Some "0x01";
     StellarToBase.s_hashlock := Some hashlock0;
     StellarToBase.s_orderId := Some "atomic_swap_0";
     StellarToBase.baseSigner := None;
     StellarToBase.stellarMaker := Some keypair0;
     StellarToBase.stellarTaker := Some keypair0;
     StellarToBase.stellarHTLC := Some htlc0;
     StellarToBase.baseEscrow := None;
     StellarToBase.secretReveal :=
       Some {| sr_hash := "00"; sr_simulated := true |} |}.

(** The same for the Base-to-Stellar script. *)
Definition mismatched' : BaseToStellar.SwapState :=
  {| BaseToStellar.s_secret := Some "0x01";
     BaseToStellar.s_hashlock := Some hashlock0;
     BaseToStellar.s_orderId := Some "base_to_stellar_0";
     BaseToStellar.makerSigner := None;
     BaseToStellar.takerSigner := None;
     BaseToStellar.baseEscrow := None |}.

(** A clock that reads [late] first and [early] afterwards. *)
Definition clockTurning (n : nat) : Z :=
  match n with
  | O => late
  | S _ => early
  end.

(** The state of the Stellar-to-Base script once the connections are
    made. *)
Definition connected : StellarToBase.SwapState :=
  {| StellarToBase.s_secret := None;
     StellarToBase.s_hashlock := None;
     StellarToBase.s_orderId := None;
     StellarToBase.baseSigner :=
       Some "0x71A076E706c058cee2c7c87bA2Dc6fAe23Ec208e";
     StellarToBase.stellarMaker := Some keypair0;
     StellarToBase.stellarTaker := Some keypair0;
     StellarToBase.stellarHTLC := None;
     StellarToBase.baseEscrow := None;
     StellarToBase.secretReveal := None |}.

(** A clock that reads 0 ms for its first three reads (those of
    [generateHashlock]) and 1000 ms afterwards. *)
Definition clockSecondLater (n : nat) : Z :=
  if (n <? 3)%nat then 0 else 1000.

(** A world like [worldAt clock] whose Horizon server knows one
    transaction: a text memo that reveals the secret of [config0]. *)
Definition worldRevealed (clock : nat -> Z) : World :=
  {| tick := 0;
     trace := [];
     Date_now_at := clock;
     randomBytes_at := randomBytes_at (worldAt clock);
     loadAccount_at := loadAccount_at (worldAt clock);
     buildTransaction_at := buildTransaction_at (worldAt clock);
     submitTransaction_at := submitTransaction_at (worldAt clock);
     transactionCall_at :=
       fun _ _ =>
         Ok {| h_memo := Some (tx_memo claimTx0);
               h_memo_type := "text";
               h_successful := true;
               h_operations := Throw "operations is not iterable" |};
     createDstEscrow_at := createDstEscrow_at (worldAt clock);
     addressOfEscrowDst_at := addressOfEscrowDst_at (worldAt clock) |}.

(** The state [generateHashlock] makes of [connected]. *)
Definition generated : StellarToBase.SwapState :=
  match
    fst (StellarToBase.generateHashlock connected (worldAt clockSecondLater))
  with
  | Ok (_, st) => st
  | Throw _ => connected
  end.

End Fixture.

(* ================================================================== *)
(** ** The reveal steps of the coordinator scripts *)

(** [s.slice(a, b)] for [0 <= a <= b]. *)
Definition sliceBetween (a b : nat) (s : string) : string :=
  JS.take (b - a) (JS.slice a s).

(** [s.includes(pat)]. *)
Fixpoint includes (pat s : string) : bool :=
  JS.startsWith pat s
  || match s with
     | EmptyString => false
     | String _ s' => includes pat s'
     end.

(** [StellarSdk.Networks.TESTNET]. *)
Definition TESTNET : string := "Test SDF Network ; September 2015".

(* ------------------------------------------------------------------ *)
(** *** [revealSecret()] of [real-test-stellar-to-base.js] *)

Module StellarToBaseReveal.

(** The maker claims on Stellar through the SDK class.  A submission
    that Horizon refuses is not an error of the step: the reveal is then
    recorded with the hash of the transaction that was built and marked
    [simulated]. *)
Definition revealSecret (st : StellarToBase.SwapState)
    : M (bool * StellarToBase.SwapState) :=
  try_catch
    (htlc <- required (StellarToBase.stellarHTLC st) ;;
     makerKp <- required (StellarToBase.stellarMaker st) ;;
     secret <- required (StellarToBase.s_secret st) ;;
     if negb (validateSecret htlc secret) then throw "Invalid secret for HTLC"
     else
       expired <- isTimelockExpired htlc ;;
       if (expired : bool) then throw "HTLC timelock has expired"
       else
         claimingTx <- Sdk.createClaimingTransaction htlc secret makerKp ;;
         reveal <-
           try_catch
             (hash <- Sdk.submitTransaction htlc (tx_xdr claimingTx) ;;
              ret {| sr_hash := hash; sr_simulated := false |})
             (fun _ =>
                ret {| sr_hash := tx_hash claimingTx;
                       sr_simulated := true |}) ;;
         ret (true,
              {| StellarToBase.s_secret := StellarToBase.s_secret st;
                 StellarToBase.s_hashlock := StellarToBase.s_hashlock st;
                 StellarToBase.s_orderId := StellarToBase.s_orderId st;
                 StellarToBase.baseSigner := StellarToBase.baseSigner st;
                 StellarToBase.stellarMaker := StellarToBase.stellarMaker st;
                 StellarToBase.stellarTaker := StellarToBase.stellarTaker st;
                 StellarToBase.stellarHTLC := StellarToBase.stellarHTLC st;
                 StellarToBase.baseEscrow := StellarToBase.baseEscrow st;
                 StellarToBase.secretReveal := Some reveal |}))
    (fun message => throw message).

End StellarToBaseReveal.

(* ------------------------------------------------------------------ *)
(** *** [stellarMakerRevealSecret()] of [real-test-base-to-stellar.js] *)

Module BaseToStellarReveal.

(** The Stellar key pairs of [swapState]. *)
Record StellarKeys : Type := {
  stellarMaker : option Keypair;
  stellarTaker : option Keypair
}.

(** What the step stores in [swapState.transactions.secretReveal]. *)
Record SecretRevealMemo : Type := {
  rv_hash : string;
  rv_memo : string;
  rv_secret : string
}.

(** [`CLAIM_${swapState.secret.slice(2, 22)}`]. *)
Definition claimMemo (secret : string) : string :=
  "CLAIM_" ++ sliceBetween 2 22 secret.

(** The maker sends one stroop to itself with the memo [claimMemo]; the
    result is [true] and the entry stored in [swapState.transactions]. *)
Definition stellarMakerRevealSecret (keys : StellarKeys)
    (st : BaseToStellar.SwapState) : M (bool * SecretRevealMemo) :=
  try_catch
    (makerKp <- required (stellarMaker keys) ;;
     makerAccount <- loadAccount (publicKey makerKp) ;;
     secret <- required (BaseToStellar.s_secret st) ;;
     signed <- buildTransaction
       {| rq_source := makerAccount;
          rq_fee := Sdk.BASE_FEE;
          rq_networkPassphrase := TESTNET;
          rq_operation := payment (publicKey makerKp) Sdk.native "0.0000001";
          rq_memo := claimMemo secret;
          rq_timeout := 300;
          rq_signer := makerKp |} ;;
     hash <- serverSubmit (st_xdr signed) ;;
     ret (true,
          {| rv_hash := hash;
             rv_memo := claimMemo secret;
             rv_secret := secret |}))
    (fun message => throw message).

End BaseToStellarReveal.

(* ================================================================== *)
(** ** The order scripts ([scripts/stellar]) *)

(** [getSummary()], the same in both variants of the class. *)
Record Summary : Type := {
  sm_contractId : string;
  sm_hashlock : string;
  sm_amount : string;
  sm_makerAddress : string;
  sm_takerAddress : string;
  sm_timelock : Z;
  sm_timelockExpired : bool;
  sm_network : Network
}.

Definition getSummary (this : StellarHTLC) : M Summary :=
  expired <- isTimelockExpired this ;;
  ret {| sm_contractId := contractId this;
         sm_hashlock := hashlock (config this);
         sm_amount := amount (config this);
         sm_makerAddress := makerAddress (config this);
         sm_takerAddress := takerAddress (config this);
         sm_timelock := timelock (config this);
         sm_timelockExpired := expired;
         sm_network := network (config this) |}.

Module Orders.

(** The [AtomicSwapOrder] of the scripts; an optional member that is
    absent is [None].  The wei amount of [provides] is kept as a number
    (the file holds its decimal text). *)
Inductive OrderStatus : Type :=
| CREATED | FILLED | FUNDED | COMPLETED | CANCELLED.

Definition statusText (s : OrderStatus) : string :=
  match s with
  | CREATED => "CREATED"
  | FILLED => "FILLED"
  | FUNDED => "FUNDED"
  | COMPLETED => "COMPLETED"
  | CANCELLED => "CANCELLED"
  end.

Definition OrderStatus_eqb (a b : OrderStatus) : bool :=
  match a, b with
  | CREATED, CREATED | FILLED, FILLED | FUNDED, FUNDED
  | COMPLETED, COMPLETED | CANCELLED, CANCELLED => true
  | _, _ => false
  end.

Record Provides : Type := {
  pv_asset : string;
  pv_amount : Z;
  pv_token : option string
}.

Record Wants : Type := {
  wn_asset : string;
  wn_amount : string;
  wn_address : string;
  wn_publicKey : option string
}.

Record Maker : Type := {
  mk_address : string;
  mk_provides : Provides;
  mk_wants : Wants
}.

Record Taker : Type := {
  tk_address : string;
  tk_stellarAddress : string
}.

Record TimelockPeriods : Type := {
  withdrawalPeriod : Z;
  cancellationPeriod : Z
}.

Record Contracts : Type := {
  escrowFactory : string;
  accessToken : string
}.

Record StellarHTLCInfo : Type := {
  sh_address : string;
  sh_contractId : string;
  sh_amount : string;
  sh_network : string;
  sh_claimBefore : Z
}.

Record EvmEscrow : Type := {
  ev_address : string;
  ev_txHash : string;
  ev_amount : string;
  ev_safetyDeposit : string;
  ev_creationFee : string
}.

Record Transactions : Type := {
  stellarHTLCFunding : option string;
  evmEscrowCreation : option string;
  stellarHTLCClaim : option string;
  evmEscrowClaim : option string
}.

Record Order : Type := {
  o_orderId : string;
  o_timestamp : Z;
  o_network : string;
  o_chainId : Z;
  o_maker : Maker;
  o_taker : option Taker;
  o_secret : string;
  o_hashlock : string;
  o_timelock : TimelockPeriods;
  o_status : OrderStatus;
  o_contracts : Contracts;
  o_stellarHTLC : option StellarHTLCInfo;
  o_evmEscrow : option EvmEscrow;
  o_transactions : option Transactions
}.

(** The file the creation script writes next to the order. *)
Record ContractFile : Type := {
  cf_contractId : string;
  cf_config : StellarHTLCConfig;
  cf_summary : Summary;
  cf_orderId : string
}.

(** The two directories the scripts write, as the values their JSON
    files hold, by path. *)
Record Disk : Type := {
  orderFiles : string -> option Order;
  contractFiles : string -> option ContractFile
}.

(** [fs.writeFileSync(path, JSON.stringify(order, null, 2))]. *)
Definition writeOrder (disk : Disk) (path : string) (order : Order) : Disk :=
  {| orderFiles :=
       fun p => if String.eqb p path then Some order else orderFiles disk p;
     contractFiles := contractFiles disk |}.

Definition writeContract (disk : Disk) (path : string) (file : ContractFile)
    : Disk :=
  {| orderFiles := orderFiles disk;
     contractFiles :=
       fun p => if String.eqb p path then Some file else contractFiles disk p |}.

(** [path.join(dir, file)] for a normalized [dir] and a [file] that is
    one segment. *)
Definition pathJoin (dir file : string) : string := dir ++ "/" ++ file.

(** Whether [new Date(ms).toISOString()] returns: a time value is at
    most 8.64e15 milliseconds from the epoch. *)
Definition validDate (ms : Z) : bool := Z.abs ms <=? 8640000000000000.

(** The [RangeError] of [toISOString]. *)
Definition RangeError : string := "Invalid time value".

(** [ethers.sha256(data)] for [data] written [0x] and an even number of
    hexadecimal digits. *)
Definition ethers_sha256 (data : string) : string :=
  "0x" ++ SHA256.sha256hex (JS.hexDecode (JS.slice 2 data)).

(* ------------------------------------------------------------------ *)
(** *** The creation of an order *)

(** [STELLAR_CONFIG] of the creation script, read from [wallet.json]. *)
Record StellarConfig : Type := {
  sc_makerAddress : string;
  sc_takerAddress : string;
  sc_takerSecret : string
}.

(** The factory and the access token the order names. *)
Definition factoryAddress : string :=
  "0x119c71D3BbAC22029622cbaEc24854d3D32D2828".

Definition accessTokenAddress : string :=
  "0x0000000000000000000000000000000000000000".

Definition networkName (chainId : Z) : string :=
  if chainId =? 8453 then "base"
  else if chainId =? 11155111 then "sepolia"
  else "unknown".

(** [main()] of the creation script once the EVM provider has answered:
    [chainId] is the chain of [ethers.provider.getNetwork()] and
    [makerEvm] the address of the first signer.  [ordersDir] and
    [htlcDir] are the two directories.  The class is the mock variant
    (its methods are called without [await]). *)
Definition createOrder (cfg : StellarConfig) (chainId : Z) (makerEvm : string)
    (ordersDir htlcDir : string) (disk : Disk) : M (Order * Disk) :=
  secretBytes <- randomBytes 32 ;;
  let secret := "0x" ++ JS.toHex secretBytes in
  let hashlock := ethers_sha256 secret in
  t0 <- Date_now ;;
  let orderId := "stellar_order_" ++ JS.numberToString t0 in
  timestamp <- Date_now ;;
  t2 <- Date_now ;;
  let claimBefore := t2 / 1000 + 24 * 60 * 60 in
  let wants :=
    {| wn_asset := "XLM";
       wn_amount := "10.0";
       wn_address := sc_makerAddress cfg;
       wn_publicKey := None |} in
  let htlcConfig :=
    {| secret := secret;
       hashlock := hashlock;
       amount := wn_amount wants;
       makerAddress := sc_makerAddress cfg;
       takerAddress := sc_takerAddress cfg;
       timelock := claimBefore;
       network := testnet |} in
  let stellarHTLC := newStellarHTLC htlcConfig in
  let order :=
    {| o_orderId := orderId;
       o_timestamp := timestamp;
       o_network := networkName chainId;
       o_chainId := chainId;
       o_maker :=
         {| mk_address := makerEvm;
            mk_provides :=
              {| pv_asset := "ETH"; pv_amount := ethAmount; pv_token := None |};
            mk_wants := wants |};
       o_taker := None;
       o_secret := secret;
       o_hashlock := hashlock;
       o_timelock :=
         {| withdrawalPeriod := 3600; cancellationPeriod := 86400 |};
       o_status := CREATED;
       o_contracts :=
         {| escrowFactory := factoryAddress;
            accessToken := accessTokenAddress |};
       o_stellarHTLC :=
         Some {| sh_address := sc_takerAddress cfg;
                 sh_contractId := getContractId stellarHTLC;
                 sh_amount := wn_amount wants;
                 sh_network := "testnet";
                 sh_claimBefore := claimBefore |};
       o_evmEscrow := None;
       o_transactions := None |} in
  if negb (validDate (claimBefore * 1000)) then throw RangeError
  else
    let orderPath := pathJoin ordersDir (orderId ++ ".json") in
    let disk1 := writeOrder disk orderPath order in
    summary <- getSummary stellarHTLC ;;
    let htlcPath :=
      pathJoin htlcDir (getContractId stellarHTLC ++ ".json") in
    let disk2 :=
      writeContract disk1 htlcPath
        {| cf_contractId := getContractId stellarHTLC;
           cf_config := htlcConfig;
           cf_summary := summary;
           cf_orderId := orderId |} in
    try_catch
      (fundingTx <- Mock.createFundingTransaction stellarHTLC ;;
       ret tt)
      (fun _ => ret tt) ;;;
    ret (order, disk2).

(* ------------------------------------------------------------------ *)
(** *** The maker's claim of an order *)

(** [STELLAR_CONFIG.makerAddress] of the claim script. *)
Definition makerAddressOfClaim : string :=
  "GCYYNNOGU2NX2KQN3MVFTA2A2EMJ7K3BMYUQB7AVZ7FX4J4YW7MMFMWN".

(** What [main()] of the claim script returns. *)
Record ClaimResult : Type := {
  cr_success : bool;
  cr_orderId : string;
  cr_xlmAmount : string;
  cr_claimTx : string;
  cr_revealedSecret : string;
  cr_order : Order
}.

(** The order once claimed: [status] and
    [transactions.stellarHTLCClaim] are assigned. *)
Definition claimed (order : Order) (stellarClaimTx : string) : Order :=
  let transactions :=
    match o_transactions order with
    | Some t => t
    | None =>
        {| stellarHTLCFunding := None;
           evmEscrowCreation := None;
           stellarHTLCClaim := None;
           evmEscrowClaim := None |}
    end in
  {| o_orderId := o_orderId order;
     o_timestamp := o_timestamp order;
     o_network := o_network order;
     o_chainId := o_chainId order;
     o_maker := o_maker order;
     o_taker := o_taker order;
     o_secret := o_secret order;
     o_hashlock := o_hashlock order;
     o_timelock := o_timelock order;
     o_status := COMPLETED;
     o_contracts := o_contracts order;
     o_stellarHTLC := o_stellarHTLC order;
     o_evmEscrow := o_evmEscrow order;
     o_transactions :=
       Some {| stellarHTLCFunding := stellarHTLCFunding transactions;
               evmEscrowCreation := evmEscrowCreation transactions;
               stellarHTLCClaim := Some stellarClaimTx;
               evmEscrowClaim := evmEscrowClaim transactions |} |}.

(** The record of the class the claim script makes of an order. *)
Definition htlcOfOrder (order : Order) (taker : Taker)
    (info : StellarHTLCInfo) : StellarHTLC :=
  newStellarHTLC
    {| secret := o_secret order;
       hashlock := o_hashlock order;
       amount := sh_amount info;
       makerAddress := makerAddressOfClaim;
       takerAddress := tk_stellarAddress taker;
       timelock := sh_claimBefore info;
       network := testnet |}.

(** [process.exit(1)]: the process ends there with code 1.  The claim
    script calls it before its first [try], so no handler of the script
    runs after it: for [main] it is an outcome that is not a return,
    written as the outcome with the message below. *)
Definition processExit1 : string := "process.exit(1)".

(** [main()] of the claim script.  [orderId] is what its first
    statement computes,
    [process.env.ORDER_ID || process.argv[process.argv.length - 1]]; an
    empty id, or one that contains [.ts], prints the usage and exits.
    The error messages of the script start with a cross mark, written
    here in UTF-8. *)
Definition makerClaim (ordersDir orderId : string) (disk : Disk)
    : M (ClaimResult * Disk) :=
  if String.eqb orderId EmptyString || includes ".ts" orderId
  then throw processExit1
  else
  let orderPath := pathJoin ordersDir (orderId ++ ".json") in
  match orderFiles disk orderPath with
  | None => throw ("❌ Order not found: " ++ orderPath)
  | Some order =>
      if negb (validDate (o_timestamp order)) then throw RangeError
      else if negb (OrderStatus_eqb (o_status order) FUNDED)
      then throw ("❌ Order status is " ++ statusText (o_status order)
                  ++ ", expected FUNDED (Stellar HTLC must be funded first)")
      else
        match o_taker order, o_stellarHTLC order, o_evmEscrow order with
        | Some taker, Some info, Some escrow =>
            let calculatedHashlock :=
              "0x" ++ SHA256.sha256hex
                        (JS.hexDecode (JS.slice 2 (o_secret order))) in
            if negb (String.eqb calculatedHashlock (o_hashlock order))
            then throw "❌ Secret doesn't match hashlock! Invalid order."
            else
              let stellarHTLC := htlcOfOrder order taker info in
              try_catch
                (logged <- isTimelockExpired stellarHTLC ;;
                 expired <- isTimelockExpired stellarHTLC ;;
                 if (expired : bool)
                 then throw "❌ HTLC timelock has expired! Cannot claim funds."
                 else if negb (validateSecret stellarHTLC (o_secret order))
                 then throw "❌ Invalid secret for this HTLC!"
                 else
                   claimTx <- Mock.createClaimingTransaction stellarHTLC
                                (o_secret order) ;;
                   let stellarClaimTx := tx_hash claimTx in
                   let order' := claimed order stellarClaimTx in
                   ret ({| cr_success := true;
                           cr_orderId := orderId;
                           cr_xlmAmount := sh_amount info;
                           cr_claimTx := stellarClaimTx;
                           cr_revealedSecret := o_secret order';
                           cr_order := order' |},
                        writeOrder disk orderPath order'))
                (fun message => throw message)
        | _, _, _ => throw "❌ Order missing required components"
        end
  end.

End Orders.

(* ================================================================== *)
(** ** The simulation of the swap ([test-atomic-swap-simulation]) *)

Module Sim.

Import Orders.

(** [TEST_CONFIG]. *)
Definition ethWalletAddress : string :=
  "0x71A076E706c058cee2c7c87bA2Dc6fAe23Ec208e".

Definition stellarMakerAddress : string :=
  "GCYYNNOGU2NX2KQN3MVFTA2A2EMJ7K3BMYUQB7AVZ7FX4J4YW7MMFMWN".

Definition stellarTakerAddress : string :=
  "GBI4P5IHHXBQQ4BQQBF453NOEAWVAOJIBNMVQQXRZS4PSUUCZ3XWIJOY".

(** [mockEthers.sha256(data)]. *)
Definition sha256 (data : string) : string :=
  "0x" ++ SHA256.sha256hex (JS.hexDecode (JS.slice 2 data)).

(** The free function [validateSecret(secret, hashlock)]. *)
Definition validateSecret (secret hashlock : string) : bool :=
  let secretBuffer := JS.hexDecode (JS.replace "0x" "" secret) in
  let calculatedHash := SHA256.sha256hex secretBuffer in
  let expectedHash := JS.replace "0x" "" hashlock in
  String.eqb calculatedHash expectedHash.

(** The free function [generateContractId(config)], of the five members
    it reads. *)
Definition generateContractId (hashlock makerAddress takerAddress
    amount : string) (timelock : Z) : string :=
  let data :=
    "{" ++ jsonMember "hashlock" hashlock
        ++ "," ++ jsonMember "maker" makerAddress
        ++ "," ++ jsonMember "taker" takerAddress
        ++ "," ++ jsonMember "amount" amount
        ++ "," ++ jsonNumber "timelock" timelock ++ "}" in
  JS.take 16 (SHA256.sha256hex (JS.utf8 data)).

(** The free function [createMockXDR]. *)
Definition createMockXDR (type from to amount contractId : string)
    (secret : option string) : M string :=
  timestamp <- Date_now ;;
  let txData :=
    "{" ++ jsonMember "type" type
        ++ "," ++ jsonMember "from" from
        ++ "," ++ jsonMember "to" to
        ++ "," ++ jsonMember "amount" amount
        ++ "," ++ jsonMember "contractId" contractId
        ++ "," ++ jsonMember "secret"
                    (match secret with Some s => s | None => EmptyString end)
        ++ "," ++ jsonNumber "timestamp" timestamp ++ "}" in
  ret (Base64.encode (JS.utf8 txData)).

(** [testOrderCreation()]. *)
Definition testOrderCreation : M Order :=
  secretBytes <- randomBytes 32 ;;
  let secret := "0x" ++ JS.toHex secretBytes in
  let hashlock := sha256 secret in
  t0 <- Date_now ;;
  let orderId := "test_stellar_order_" ++ JS.numberToString t0 in
  t1 <- Date_now ;;
  let claimBefore := t1 / 1000 + 3600 in
  timestamp <- Date_now ;;
  ret {| o_orderId := orderId;
         o_timestamp := timestamp;
         o_network := "base";
         o_chainId := 8453;
         o_maker :=
           {| mk_address := ethWalletAddress;
              mk_provides :=
                {| pv_asset := "ETH"; pv_amount := 10 ^ 15;
                   pv_token := None |};
              mk_wants :=
                {| wn_asset := "XLM";
                   wn_amount := "10.0";
                   wn_address := stellarMakerAddress;
                   wn_publicKey := None |} |};
         o_taker := None;
         o_secret := secret;
         o_hashlock := hashlock;
         o_timelock :=
           {| withdrawalPeriod := 600; cancellationPeriod := 3600 |};
         o_status := CREATED;
         o_contracts :=
           {| escrowFactory := factoryAddress;
              accessToken := accessTokenAddress |};
         o_stellarHTLC :=
           Some {| sh_address :=
                     "GDQP2KPQGKIHYJGXNUIYOMHARUARCA7DJT5FO2FFOOKY3B2WSQHG4W37";
                   sh_contractId :=
                     generateContractId hashlock stellarMakerAddress
                       stellarTakerAddress "10.0" claimBefore;
                   sh_amount := "10.0";
                   sh_network := "testnet";
                   sh_claimBefore := claimBefore |};
         o_evmEscrow := None;
         o_transactions := None |}.

(** [testHTLCFunctionality(order)]: the funding transaction and
    [htlcValid]. *)
Definition testHTLCFunctionality (order : Order)
    : M (StellarHTLCTransaction * bool) :=
  let isSecretValid := validateSecret (o_secret order) (o_hashlock order) in
  now <- Date_now ;;
  info <- required (o_stellarHTLC order) ;;
  let isTimelockExpired := (1000 * sh_claimBefore info <? now)%Z in
  txId <- randomBytes 16 ;;
  xdr <- createMockXDR "fund" "taker" "maker" (sh_amount info)
           (sh_contractId info) None ;;
  hash <- randomBytes 32 ;;
  ret ({| tx_id := JS.toHex txId;
          tx_type := fund;
          tx_from := stellarTakerAddress;
          tx_to := stellarMakerAddress;
          tx_amount := sh_amount info;
          tx_memo := "HTLC_FUND_" ++ sh_contractId info;
          tx_signature := None;
          tx_xdr := xdr;
          tx_hash := JS.toHex hash |},
       isSecretValid && negb isTimelockExpired).

(** [testClaimProcess(order)]: the claim transaction it returns, the
    order as it leaves it, and the [extractedSecret] it prints and
    compares with the secret of the order. *)
Definition testClaimProcess (order : Order)
    : M (StellarHTLCTransaction * Order * option string) :=
  takerBytes <- randomBytes 20 ;;
  let taker :=
    {| tk_address := "0x" ++ JS.toHex takerBytes;
       tk_stellarAddress := stellarTakerAddress |} in
  txId <- randomBytes 16 ;;
  info <- required (o_stellarHTLC order) ;;
  let memo :=
    "HTLC_CLAIM_" ++ sh_contractId info ++ "_"
      ++ JS.replace "0x" "" (o_secret order) in
  xdr <- createMockXDR "claim" "maker" "maker" (sh_amount info)
           (sh_contractId info) (Some (o_secret order)) ;;
  hash <- randomBytes 32 ;;
  let claimTx :=
    {| tx_id := JS.toHex txId;
       tx_type := claim;
       tx_from := stellarMakerAddress;
       tx_to := stellarMakerAddress;
       tx_amount := sh_amount info;
       tx_memo := memo;
       tx_signature := None;
       tx_xdr := xdr;
       tx_hash := JS.toHex hash |} in
  let extractedSecret :=
    match Regex.memoMatch (tx_memo claimTx) with
    | Some g => Some ("0x" ++ g)
    | None => None
    end in
  funding <- randomBytes 32 ;;
  ret (claimTx,
       {| o_orderId := o_orderId order;
          o_timestamp := o_timestamp order;
          o_network := o_network order;
          o_chainId := o_chainId order;
          o_maker := o_maker order;
          o_taker := Some taker;
          o_secret := o_secret order;
          o_hashlock := o_hashlock order;
          o_timelock := o_timelock order;
          o_status := COMPLETED;
          o_contracts := o_contracts order;
          o_stellarHTLC := o_stellarHTLC order;
          o_evmEscrow := o_evmEscrow order;
          o_transactions :=
            Some {| stellarHTLCFunding := Some (JS.toHex funding);
                    evmEscrowCreation := None;
                    stellarHTLCClaim := Some (tx_hash claimTx);
                    evmEscrowClaim := None |} |},
       extractedSecret).

End Sim.

(* ================================================================== *)
(** ** Further notions used in the statements *)

(** The state of the Base-to-Stellar script with another secret. *)
Definition withSecret (st : BaseToStellar.SwapState) (s : string)
    : BaseToStellar.SwapState :=
  {| BaseToStellar.s_secret := Some s;
     BaseToStellar.s_hashlock := BaseToStellar.s_hashlock st;
     BaseToStellar.s_orderId := BaseToStellar.s_orderId st;
     BaseToStellar.makerSigner := BaseToStellar.makerSigner st;
     BaseToStellar.takerSigner := BaseToStellar.takerSigner st;
     BaseToStellar.baseEscrow := BaseToStellar.baseEscrow st |}.

(** What the reveal of the Base-to-Stellar script shows outside the
    script: its outcome without the copy of the secret it keeps. *)
Definition published (r : result (bool * BaseToStellarReveal.SecretRevealMemo))
    : result (bool * string * string) :=
  match r with
  | Ok (b, rv) =>
      Ok (b, BaseToStellarReveal.rv_hash rv, BaseToStellarReveal.rv_memo rv)
  | Throw message => Throw message
  end.

(** The class of the characters that are not the letter H. *)
Definition noH (c : ascii) : bool := negb (Ascii.eqb c "H").

(** An order once the taker has funded the Stellar side and the maker
    has created the EVM escrow: what the claim script expects to
    find. *)
Definition fundedWith (order : Orders.Order) (taker : Orders.Taker)
    (escrow : Orders.EvmEscrow) : Orders.Order :=
  {| Orders.o_orderId := Orders.o_orderId order;
     Orders.o_timestamp := Orders.o_timestamp order;
     Orders.o_network := Orders.o_network order;
     Orders.o_chainId := Orders.o_chainId order;
     Orders.o_maker := Orders.o_maker order;
     Orders.o_taker := Some taker;
     Orders.o_secret := Orders.o_secret order;
     Orders.o_hashlock := Orders.o_hashlock order;
     Orders.o_timelock := Orders.o_timelock order;
     Orders.o_status := Orders.FUNDED;
     Orders.o_contracts := Orders.o_contracts order;
     Orders.o_stellarHTLC := Orders.o_stellarHTLC order;
     Orders.o_evmEscrow := Some escrow;
     Orders.o_transactions := Orders.o_transactions order |}.

(** Whether a character occurs in a string. *)
Fixpoint occurs (c : ascii) (s : string) : bool :=
  match s with
  | EmptyString => false
  | String a s' => Ascii.eqb c a || occurs c s'
  end.

(** The limit of [StellarSdk.Memo.text] in a world: the transaction
    builder throws for a memo of more than 28 bytes. *)
Definition memoLimit (w : World) : Prop :=
  forall n rq,
    (28 < List.length (JS.utf8 (rq_memo rq)))%nat ->
    exists e, buildTransaction_at w n rq = Throw e.

(** The path of the file of an order. *)
Definition orderPathOf (ordersDir orderId : string) : string :=
  Orders.pathJoin ordersDir (orderId ++ ".json").

(* ================================================================== *)
(** ** Further records and worlds used in the examples *)

Module Sample.

Import Fixture.

(** The state of the Stellar-to-Base script after [generateHashlock] and
    [lockETHIntoHTLC], run from [connected]. *)
Definition funded : StellarToBase.SwapState :=
  match
    fst (StellarToBase.lockETHIntoHTLC generated (worldAt clockSecondLater))
  with
  | Ok (_, st) => st
  | Throw _ => generated
  end.

(** The configuration of the Stellar record of [funded], and its
    secret. *)
Definition fundedConfig : StellarHTLCConfig :=
  match StellarToBase.stellarHTLC funded with
  | Some htlc => config htlc
  | None => config0
  end.

Definition fundedSecret : string :=
  match StellarToBase.s_secret funded with
  | Some secret => secret
  | None => EmptyString
  end.

(** A world like [worldAt clock] whose transaction builder keeps the
    limit of [Memo.text]. *)
Definition worldStrict (clock : nat -> Z) : World :=
  {| tick := 0;
     trace := [];
     Date_now_at := clock;
     randomBytes_at := randomBytes_at (worldAt clock);
     loadAccount_at := loadAccount_at (worldAt clock);
     buildTransaction_at :=
       fun n rq =>
         if (28 <? List.length (JS.utf8 (rq_memo rq)))%nat
         then Throw "Expects string, array or buffer, max 28 bytes"
         else buildTransaction_at (worldAt clock) n rq;
     submitTransaction_at := submitTransaction_at (worldAt clock);
     transactionCall_at := transactionCall_at (worldAt clock);
     createDstEscrow_at := createDstEscrow_at (worldAt clock);
     addressOfEscrowDst_at := addressOfEscrowDst_at (worldAt clock) |}.

(** The Stellar key pairs of the examples. *)
Definition keys0 : BaseToStellarReveal.StellarKeys :=
  {| BaseToStellarReveal.stellarMaker := Some keypair0;
     BaseToStellarReveal.stellarTaker := Some keypair0 |}.

(** Two secrets of 32 bytes that share their first ten bytes. *)
Definition bytesA : list byte := repeat x01 10 ++ repeat x02 22.
Definition bytesB : list byte := repeat x01 10 ++ repeat x03 22.

(** The creation script's configuration, an empty disk, and what the
    script makes of them at second 0. *)
Definition stellarConfig0 : Orders.StellarConfig :=
  {| Orders.sc_makerAddress := makerAddress config0;
     Orders.sc_takerAddress := takerAddress config0;
     Orders.sc_takerSecret := "S" |}.

Definition emptyDisk : Orders.Disk :=
  {| Orders.orderFiles := fun _ => None;
     Orders.contractFiles := fun _ => None |}.

Definition created : result (Orders.Order * Orders.Disk) :=
  fst (Orders.createOrder stellarConfig0 8453
         "0x71A076E706c058cee2c7c87bA2Dc6fAe23Ec208e" "orders" "contracts"
         emptyDisk (worldAt (fun _ => 0))).

Definition order0 : Orders.Order :=
  match created with
  | Ok (order, _) => order
  | Throw _ =>
      {| Orders.o_orderId := "";
         Orders.o_timestamp := 0;
         Orders.o_network := "";
         Orders.o_chainId := 0;
         Orders.o_maker :=
           {| Orders.mk_address := "";
              Orders.mk_provides :=
                {| Orders.pv_asset := ""; Orders.pv_amount := 0;
                   Orders.pv_token := None |};
              Orders.mk_wants :=
                {| Orders.wn_asset := ""; Orders.wn_amount := "";
                   Orders.wn_address := ""; Orders.wn_publicKey := None |} |};
         Orders.o_taker := None;
         Orders.o_secret := "";
         Orders.o_hashlock := "";
         Orders.o_timelock :=
           {| Orders.withdrawalPeriod := 0; Orders.cancellationPeriod := 0 |};
         Orders.o_status := Orders.CANCELLED;
         Orders.o_contracts :=
           {| Orders.escrowFactory := ""; Orders.accessToken := "" |};
         Orders.o_stellarHTLC := None;
         Orders.o_evmEscrow := None;
         Orders.o_transactions := None |}
  end.

Definition disk0 : Orders.Disk :=
  match created with
  | Ok (_, disk) => disk
  | Throw _ => emptyDisk
  end.

(** The taker and the escrow other scripts add to the order, and the
    disk once they have. *)
Definition taker0 : Orders.Taker :=
  {| Orders.tk_address := "0x01";
     Orders.tk_stellarAddress := takerAddress config0 |}.

Definition escrow0 : Orders.EvmEscrow :=
  {| Orders.ev_address := "0x02";
     Orders.ev_txHash := "0x03";
     Orders.ev_amount := "1000000000000000";
     Orders.ev_safetyDeposit := "100000000000000";
     Orders.ev_creationFee := "0" |}.

Definition diskFunded : Orders.Disk :=
  Orders.writeOrder disk0 (orderPathOf "orders" (Orders.o_orderId order0))
    (fundedWith order0 taker0 escrow0).

(** A clock that reads 0 ms first and one millisecond after the deadline
    of [funded] (86400 s) afterwards. *)
Definition clockJumping (n : nat) : Z :=
  match n with
  | O => 0
  | S _ => 86400001
  end.

(** The state of the Base-to-Stellar script once the connections are
    made, and after [generateHashlock] and [lockETHIntoHTLC]. *)
Definition connectedB : BaseToStellar.SwapState :=
  {| BaseToStellar.s_secret := None;
     BaseToStellar.s_hashlock := None;
     BaseToStellar.s_orderId := None;
     BaseToStellar.makerSigner :=
       Some "0x71A076E706c058cee2c7c87bA2Dc6fAe23Ec208e";
     BaseToStellar.takerSigner :=
       Some "0x119c71D3BbAC22029622cbaEc24854d3D32D2828";
     BaseToStellar.baseEscrow := None |}.

Definition generatedB : BaseToStellar.SwapState :=
  match
    fst (BaseToStellar.generateHashlock connectedB (worldAt clockSecondLater))
  with
  | Ok (_, st) => st
  | Throw _ => connectedB
  end.

Definition fundedB : BaseToStellar.SwapState :=
  match
    fst (BaseToStellar.lockETHIntoHTLC generatedB (worldAt clockSecondLater))
  with
  | Ok (_, st) => st
  | Throw _ => generatedB
  end.

End Sample.

(* ================================================================== *)
(** * Checks of the model on known values *)

Example round_constants :
  nth 0 SHA256.K 0 = 0x428a2f98 /\ nth 63 SHA256.K 0 = 0xc67178f2
  /\ List.length SHA256.K = 64%nat.
Proof. vm_compute. auto. Qed.

Example initial_hash :
  nth 0 SHA256.H0 0 = 0x6a09e667 /\ nth 7 SHA256.H0 0 = 0x5be0cd19.
Proof. vm_compute. auto. Qed.

Example sha_abc : SHA256.sha256hex (JS.utf8 "abc") = "ba7816bf8f01cfea414140de5dae2223b00361a396177a9cb410ff61f20015ad".
Proof. vm_compute. reflexivity. Qed.
Example sha_empty : SHA256.sha256hex [] = "e3b0c44298fc1c149afbf4c8996fb92427ae41e4649b934ca495991b7852b855".
Proof. vm_compute. reflexivity. Qed.
Example sha_z32 : SHA256.sha256hex (repeat x00 32) = "66687aadf862bd776c8fc18b8e9f8e20089714856ee233b3902a591d0d5f2925".
Proof. vm_compute. reflexivity. Qed.
Example sha_a100 : SHA256.sha256hex (repeat x61 100) = "2816597888e4a0d3a36b82b83316ab32680eb8f00f8cd3b904d681246d285a0e".
Proof. vm_compute. reflexivity. Qed.
Example b64 : Base64.encode (JS.utf8 "hello!!") = "aGVsbG8hIQ==".
Proof. vm_compute. reflexivity. Qed.
Example b64b : Base64.encode (JS.utf8 "hello!") = "aGVsbG8h".
Proof. vm_compute. reflexivity. Qed.
Example b64c : Base64.encode (JS.utf8 "hello") = "aGVsbG8=".
Proof. vm_compute. reflexivity. Qed.
Example num1 : JS.numberToString 0 = "0" /\ JS.numberToString (-15) = "-15" /\ JS.numberToString 1700086400 = "1700086400".
Proof. vm_compute. auto. Qed.

Example hexDecode_stops :
  JS.hexDecode "1ag123" = [x1a] /\ JS.hexDecode "1a7" = [x1a]
  /\ JS.hexDecode "1634" = [x16; x34].
Proof. repeat split. Qed.

Example replace_first_only : JS.replace "0x" "" "ab0xcd0x" = "abcd0x".
Proof. reflexivity. Qed.

Example memoMatch_leftmost :
  Regex.memoMatch "xxHTLC_CLAIM_ab_cd_12fz" = Some "cd"
  /\ Regex.memoMatch "HTLC_CLAIM__12f" = None
  /\ Regex.memoMatch "HTLC_CLAIM_abc_HTLC_CLAIM_q_99" = Some "99".
Proof. repeat split. Qed.

Example contractId_known :
  generateContractId Fixture.config0 = "ec892d500d9e1f35".
Proof. vm_compute. reflexivity. Qed.

(* ================================================================== *)
(** * Properties *)

Import Fixture.

(* ------------------------------------------------------------------ *)
(** ** Hexadecimal text *)

Lemma unhex_hexdigit_high (b : byte) :
  JS.unhex (JS.hexdigit (Byte.to_N b / 16)) = Some (Byte.to_N b / 16)%N.
Proof. destruct b; reflexivity. Qed.

Lemma unhex_hexdigit_low (b : byte) :
  JS.unhex (JS.hexdigit (Byte.to_N b mod 16)) = Some (Byte.to_N b mod 16)%N.
Proof. destruct b; reflexivity. Qed.

Lemma byte_of_nibbles (b : byte) :
  JS.byte_of_N (16 * (Byte.to_N b / 16) + Byte.to_N b mod 16) = b.
Proof. destruct b; reflexivity. Qed.

(** Decoding the hexadecimal text of a buffer gives the buffer back. *)
Lemma hexDecode_toHex (l : list byte) : JS.hexDecode (JS.toHex l) = l.
Proof.
  induction l as [|b l IH]; [reflexivity|].
  cbn [JS.toHex JS.hexDecode].
  rewrite unhex_hexdigit_high, unhex_hexdigit_low, byte_of_nibbles, IH.
  reflexivity.
Qed.

Lemma isHex_hexdigit_high (b : byte) :
  JS.isHex (JS.hexdigit (Byte.to_N b / 16)) = true.
Proof. unfold JS.isHex. now rewrite unhex_hexdigit_high. Qed.

Lemma isHex_hexdigit_low (b : byte) :
  JS.isHex (JS.hexdigit (Byte.to_N b mod 16)) = true.
Proof. unfold JS.isHex. now rewrite unhex_hexdigit_low. Qed.

Lemma toHex_allHex (l : list byte) : allb JS.isHex (JS.toHex l) = true.
Proof.
  induction l as [|b l IH]; [reflexivity|].
  cbn [JS.toHex allb].
  now rewrite isHex_hexdigit_high, isHex_hexdigit_low, IH.
Qed.

Lemma toHex_length (l : list byte) :
  String.length (JS.toHex l) = (2 * List.length l)%nat.
Proof.
  induction l as [|b l IH]; [reflexivity|].
  cbn [JS.toHex String.length List.length]. rewrite IH. lia.
Qed.

(** A hexadecimal digit is not an underscore. *)
Lemma isHex_notUnderscore (c : ascii) :
  JS.isHex c = true -> JS.notUnderscore c = true.
Proof.
  unfold JS.notUnderscore.
  destruct (Ascii.eqb_spec c "_") as [->|]; [discriminate|reflexivity].
Qed.

Lemma allb_imp (p q : ascii -> bool) (s : string) :
  (forall c, p c = true -> q c = true) -> allb p s = true -> allb q s = true.
Proof.
  intros Hpq. induction s as [|c s IH]; [reflexivity|].
  cbn [allb]. rewrite !andb_true_iff. intros [Hc Hs]. auto.
Qed.

Lemma allb_app (p : ascii -> bool) (s t : string) :
  allb p (s ++ t) = allb p s && allb p t.
Proof.
  induction s as [|c s IH]; [reflexivity|].
  cbn [append allb]. now rewrite IH, andb_assoc.
Qed.

Lemma allb_take (p : ascii -> bool) (n : nat) (s : string) :
  allb p s = true -> allb p (JS.take n s) = true.
Proof.
  revert s. induction n as [|n IH]; intros [|c s]; try reflexivity.
  cbn [allb JS.take]. rewrite !andb_true_iff. intros [Hc Hs]. auto.
Qed.

(** Removing the first [0x] of a text that starts with it. *)
Lemma replace_0x_prefixed (s : string) : JS.replace "0x" "" ("0x" ++ s) = s.
Proof. destruct s; reflexivity. Qed.

(* ------------------------------------------------------------------ *)
(** ** Shape of a SHA-256 digest *)

Lemma round_length (st : list Z) (kw : Z * Z) :
  List.length (SHA256.round st kw) = List.length st.
Proof.
  unfold SHA256.round.
  destruct st as [|a [|b [|c [|d [|e [|f [|g [|h [|i st]]]]]]]]]; reflexivity.
Qed.

Lemma fold_round_length (l : list (Z * Z)) (st : list Z) :
  List.length (fold_left SHA256.round l st) = List.length st.
Proof.
  revert st. induction l as [|kw l IH]; intros st; [reflexivity|].
  cbn [fold_left]. now rewrite IH, round_length.
Qed.

Lemma compress_length (h block : list Z) :
  List.length (SHA256.compress h block) = List.length h.
Proof.
  unfold SHA256.compress.
  rewrite length_map, length_combine, fold_round_length. lia.
Qed.

Lemma blocks_length (n : nat) (h : list Z) (l : list byte) :
  List.length (SHA256.blocks n h l) = List.length h.
Proof.
  revert h l. induction n as [|n IH]; intros h l; [reflexivity|].
  cbn [SHA256.blocks]. destruct l as [|b l]; [reflexivity|].
  destruct (SHA256.words 16 (b :: l)) as [ws tl].
  now rewrite IH, compress_length.
Qed.

Lemma flat_map_beBytes_length (ws : list Z) :
  List.length (flat_map (SHA256.beBytes 4) ws) = (4 * List.length ws)%nat.
Proof.
  induction ws as [|x ws IH]; [reflexivity|].
  cbn [flat_map]. rewrite length_app, IH. cbn. lia.
Qed.

(** A digest has 32 bytes, whatever the message. *)
Lemma sha256_length (msg : list byte) :
  List.length (SHA256.sha256 msg) = 32%nat.
Proof.
  unfold SHA256.sha256.
  rewrite flat_map_beBytes_length, blocks_length. reflexivity.
Qed.

Lemma sha256hex_allHex (msg : list byte) :
  allb JS.isHex (SHA256.sha256hex msg) = true.
Proof. apply toHex_allHex. Qed.

Lemma sha256hex_length (msg : list byte) :
  String.length (SHA256.sha256hex msg) = 64%nat.
Proof.
  unfold SHA256.sha256hex. now rewrite toHex_length, sha256_length.
Qed.

Lemma take_nonempty (n : nat) (s : string) :
  (0 < n)%nat -> (0 < String.length s)%nat ->
  exists c s', JS.take n s = String c s'.
Proof.
  intros Hn Hs. destruct n as [|n]; [lia|].
  destruct s as [|c s]; [cbn in Hs; lia|].
  cbn [JS.take]. eauto.
Qed.

(** A contract id is a non-empty run of hexadecimal digits. *)
Lemma generateContractId_hex (c : StellarHTLCConfig) :
  allb JS.isHex (generateContractId c) = true /\
  exists a s, generateContractId c = String a s.
Proof.
  unfold generateContractId. split.
  - apply allb_take, sha256hex_allHex.
  - apply take_nonempty; [lia|]. rewrite sha256hex_length. lia.
Qed.

(* ------------------------------------------------------------------ *)
(** ** The memo pattern *)

Lemma append_assoc_char (a : string) (c : ascii) (b : string) :
  (a ++ String c EmptyString) ++ b = a ++ String c b.
Proof. induction a as [|x a IH]; cbn; [reflexivity|now rewrite IH]. Qed.

Lemma append_nil_r (a : string) : a ++ EmptyString = a.
Proof. induction a as [|x a IH]; cbn; [reflexivity|now rewrite IH]. Qed.

Lemma append_assoc (a b c : string) : (a ++ b) ++ c = a ++ (b ++ c).
Proof. induction a as [|x a IH]; cbn; [reflexivity|now rewrite IH]. Qed.

Lemma startsWith_split (p s : string) :
  JS.startsWith p s = true -> s = p ++ JS.slice (String.length p) s.
Proof.
  revert s. induction p as [|a p IH]; intros s H; [reflexivity|].
  destruct s as [|b s]; [discriminate|].
  cbn in H. apply andb_true_iff in H as [Hab Hp].
  apply Ascii.eqb_eq in Hab. subst b. cbn. f_equal. now apply IH.
Qed.

Lemma startsWith_app (p s : string) : JS.startsWith p (p ++ s) = true.
Proof.
  induction p as [|a p IH]; [reflexivity|].
  cbn. now rewrite Ascii.eqb_refl, IH.
Qed.

Lemma slice_app (p s : string) : JS.slice (String.length p) (p ++ s) = s.
Proof. induction p as [|a p IH]; [reflexivity|exact IH]. Qed.

(** A literal that is there is consumed. *)
Lemma lit_app {A : Type} (p : string) (k : string -> option A) (s : string) :
  Regex.lit p k (p ++ s) = k s.
Proof. unfold Regex.lit. now rewrite startsWith_app, slice_app. Qed.

Lemma lit_sound {A : Type} (p : string) (k : string -> option A)
    (s : string) (r : A) :
  Regex.lit p k s = Some r -> exists rest, s = p ++ rest /\ k rest = Some r.
Proof.
  unfold Regex.lit. destruct (JS.startsWith p s) eqn:E; [|discriminate].
  intros H. exists (JS.slice (String.length p) s). split; [|exact H].
  now apply startsWith_split.
Qed.

(** What a match of [cls+] consumed: a non-empty run of the class, after
    which the rest of the pattern matched. *)
Lemma plus_sound {A : Type} (cls : ascii -> bool)
    (k : string -> string -> option A) (s taken : string) (r : A) :
  Regex.plus cls k taken s = Some r ->
  exists c t rest,
    s = String c t ++ rest /\ allb cls (String c t) = true /\
    k (taken ++ String c t) rest = Some r.
Proof.
  revert taken. induction s as [|c s IH]; intros taken H; [discriminate|].
  cbn [Regex.plus] in H. destruct (cls c) eqn:Hc; [|discriminate].
  destruct (Regex.plus cls k (taken ++ String c EmptyString) s) eqn:E.
  - injection H as <-. apply IH in E as (c' & t & rest & -> & Hall & Hk).
    exists c, (String c' t), rest. repeat split.
    + cbn [allb] in *. now rewrite Hc.
    + now rewrite append_assoc_char in Hk.
  - exists c, EmptyString, s. repeat split.
    + cbn. now rewrite Hc.
    + exact H.
Qed.

(** A run of the class that ends the text, or that a character outside
    the class follows, is taken whole when the rest of the pattern
    matches after it. *)
Lemma plus_cons {A : Type} (cls : ascii -> bool)
    (k : string -> string -> option A) (taken : string) (c : ascii)
    (s : string) :
  Regex.plus cls k taken (String c s) =
  if cls c then
    match Regex.plus cls k (taken ++ String c EmptyString) s with
    | Some r => Some r
    | None => k (taken ++ String c EmptyString) s
    end
  else None.
Proof. reflexivity. Qed.

Lemma plus_run {A : Type} (cls : ascii -> bool)
    (k : string -> string -> option A) (t : string) :
  forall (taken rest : string) (c : ascii) (r : A),
    allb cls (String c t) = true ->
    Regex.plus cls k (taken ++ String c t) rest = None ->
    k (taken ++ String c t) rest = Some r ->
    Regex.plus cls k taken (String c t ++ rest) = Some r.
Proof.
  induction t as [|d t IH]; intros taken rest c r Hall Hstop Hk;
    change (String c ?x ++ rest) with (String c (x ++ rest));
    rewrite plus_cons;
    cbn [allb] in Hall; apply andb_true_iff in Hall as [Hc Hall]; rewrite Hc.
  - cbn [append]. now rewrite Hstop.
  - rewrite (IH (taken ++ String c EmptyString) rest d r); trivial;
      now rewrite append_assoc_char.
Qed.

Lemma plus_stops {A : Type} (cls : ascii -> bool)
    (k : string -> string -> option A) (taken rest : string) :
  match rest with
  | EmptyString => True
  | String c _ => cls c = false
  end ->
  Regex.plus cls k taken rest = None.
Proof. destruct rest as [|c rest]; cbn; [reflexivity|now intros ->]. Qed.

(** The memo of a claim: the pattern matches at its start and its group
    is the hexadecimal text after the contract id. *)
Lemma matchHere_claim_memo (cid g : string) :
  cid <> EmptyString -> allb JS.notUnderscore cid = true ->
  g <> EmptyString -> allb JS.isHex g = true ->
  Regex.matchHere ("HTLC_CLAIM_" ++ cid ++ "_" ++ g) = Some g.
Proof.
  intros Hcid Hcls Hg Hhex.
  destruct cid as [|c cid]; [contradiction|].
  destruct g as [|d g]; [contradiction|].
  unfold Regex.matchHere. rewrite lit_app.
  apply plus_run; [exact Hcls|reflexivity|].
  rewrite lit_app.
  rewrite <- (append_nil_r (String d g)) at 1.
  apply plus_run; [exact Hhex|reflexivity|reflexivity].
Qed.

Lemma memoMatch_here (s g : string) :
  Regex.matchHere s = Some g -> Regex.memoMatch s = Some g.
Proof. intros H. destruct s; cbn [Regex.memoMatch]; now rewrite H. Qed.

Lemma matchHere_sound (s g : string) :
  Regex.matchHere s = Some g ->
  g <> EmptyString /\ allb JS.isHex g = true /\
  exists mid post, s = "HTLC_CLAIM_" ++ mid ++ "_" ++ g ++ post.
Proof.
  unfold Regex.matchHere. intros H.
  apply lit_sound in H as (s1 & -> & H).
  apply plus_sound in H as (c & t & s2 & -> & _ & H).
  apply lit_sound in H as (s3 & -> & H).
  apply plus_sound in H as (d & u & s4 & -> & Hhex & H).
  injection H as <-. repeat split.
  - discriminate.
  - exact Hhex.
  - exists (String c t), s4. cbn [append]. reflexivity.
Qed.

(** What [memoMatch] returns is a non-empty hexadecimal text that the
    memo holds after [HTLC_CLAIM_], some text and an underscore. *)
Lemma memoMatch_sound (s g : string) :
  Regex.memoMatch s = Some g ->
  g <> EmptyString /\ allb JS.isHex g = true /\
  exists pre mid post, s = pre ++ "HTLC_CLAIM_" ++ mid ++ "_" ++ g ++ post.
Proof.
  induction s as [|c s IH]; cbn [Regex.memoMatch];
    destruct (Regex.matchHere _) as [g'|] eqn:E; try discriminate.
  - intros [= ->]. apply matchHere_sound in E as (? & ? & mid & post & E).
    repeat split; trivial. now exists EmptyString, mid, post.
  - intros H. apply IH in H as (? & ? & pre & mid & post & ->).
    repeat split; trivial. now exists (String c pre), mid, post.
Qed.

Lemma memoMatch_embeds (s g : string) :
  Regex.memoMatch s = Some g -> embeds s g.
Proof.
  intros H. apply memoMatch_sound in H as (_ & _ & pre & mid & post & ->).
  exists (pre ++ "HTLC_CLAIM_" ++ mid ++ "_"), post.
  now rewrite !append_assoc.
Qed.

(* ------------------------------------------------------------------ *)
(** ** Guards of the class methods *)

Ltac unfold_monad :=
  unfold reading, isTimelockExpired, required in *;
  unfold Date_now, randomBytes, loadAccount, buildTransaction, serverSubmit,
    transactionCall, createDstEscrow, addressOfEscrowDst in *;
  unfold bind, ret, throw, try_catch, lift in *;
  cbv beta iota in *.

Lemma validateSecret_prefixed (this : StellarHTLC) (g : string) :
  validateSecret this ("0x" ++ g) =
  String.eqb (SHA256.sha256hex (JS.hexDecode g))
             (JS.replace "0x" "" (hashlock (config this))).
Proof. unfold validateSecret. now rewrite replace_0x_prefixed. Qed.

(** The three exits of the mock [createClaimingTransaction]. *)
Lemma Mock_claim_cases (this : StellarHTLC) (secret : string) (w : World) :
  (validateSecret this secret = false /\
   Mock.createClaimingTransaction this secret w
   = (Throw "Invalid secret provided", w))
  \/
  (validateSecret this secret = true /\
   1000 * timelock (config this) < reading w /\
   Mock.createClaimingTransaction this secret w
   = (Throw "Timelock has expired, cannot claim", advance w []))
  \/
  (validateSecret this secret = true /\
   reading w <= 1000 * timelock (config this) /\
   exists tx w',
     Mock.createClaimingTransaction this secret w = (Ok tx, w') /\
     tx_type tx = claim /\
     tx_memo tx
     = "HTLC_CLAIM_" ++ contractId this ++ "_" ++ JS.replace "0x" "" secret).
Proof.
  unfold Mock.createClaimingTransaction.
  destruct (validateSecret this secret); cbn [negb]; [|left; now split].
  right. unfold_monad.
  destruct (Z.ltb_spec (1000 * timelock (config this)) (Date_now_at w (tick w))).
  - left. now repeat split.
  - right. repeat split; trivial.
    unfold Mock.createMockXDR. unfold_monad.
    eexists. eexists. split; [reflexivity|]. split; reflexivity.
Qed.

(** The two exits of the mock [createRefundTransaction]. *)
Lemma Mock_refund_cases (this : StellarHTLC) (w : World) :
  (reading w <= 1000 * timelock (config this) /\
   Mock.createRefundTransaction this w
   = (Throw "Timelock has not expired yet, cannot refund", advance w []))
  \/
  (1000 * timelock (config this) < reading w /\
   exists tx w',
     Mock.createRefundTransaction this w = (Ok tx, w') /\
     tx_type tx = refund).
Proof.
  unfold Mock.createRefundTransaction. unfold_monad.
  destruct (Z.ltb_spec (1000 * timelock (config this)) (Date_now_at w (tick w)));
    cbn [negb].
  - right. split; trivial. unfold Mock.createMockXDR. unfold_monad.
    eexists. eexists. split; reflexivity.
  - left. now split.
Qed.

(** The mock [createFundingTransaction] has no guard. *)
Lemma Mock_fund_ok (this : StellarHTLC) (w : World) :
  exists tx w', Mock.createFundingTransaction this w = (Ok tx, w') /\
                tx_type tx = fund.
Proof.
  unfold Mock.createFundingTransaction, Mock.createMockXDR. unfold_monad.
  eexists. eexists. split; reflexivity.
Qed.

(** The exits of the SDK [createClaimingTransaction]: the two guards,
    then whatever Horizon and the transaction builder answer. *)
Lemma Sdk_claim_cases (this : StellarHTLC) (secret : string) (kp : Keypair)
    (w : World) :
  (validateSecret this secret = false /\
   Sdk.createClaimingTransaction this secret kp w
   = (Throw "Invalid secret provided", w))
  \/
  (validateSecret this secret = true /\
   1000 * timelock (config this) < reading w /\
   Sdk.createClaimingTransaction this secret kp w
   = (Throw "Timelock has expired, cannot claim", advance w []))
  \/
  (validateSecret this secret = true /\
   reading w <= 1000 * timelock (config this) /\
   ((exists message w',
       Sdk.createClaimingTransaction this secret kp w
       = (Throw ("Failed to create claiming transaction: " ++ message), w'))
    \/
    (exists tx w',
       Sdk.createClaimingTransaction this secret kp w = (Ok tx, w') /\
       tx_type tx = claim /\
       tx_memo tx
       = "HTLC_CLAIM_" ++ contractId this ++ "_"
           ++ JS.replace "0x" "" secret))).
Proof.
  unfold Sdk.createClaimingTransaction.
  destruct (validateSecret this secret); cbn [negb]; [|left; now split].
  right. unfold_monad.
  destruct (Z.ltb_spec (1000 * timelock (config this)) (Date_now_at w (tick w))).
  - left. now repeat split.
  - right. repeat split; trivial.
    destruct (loadAccount_at (advance w []) (tick (advance w [])) (publicKey kp))
      as [acc|e]; [|left; eauto].
    match goal with
    | |- context [buildTransaction_at ?w' ?n ?rq] =>
        destruct (buildTransaction_at w' n rq) as [signed|e]
    end; [|left; eauto].
    right. eexists. eexists. split; [reflexivity|]. split; reflexivity.
Qed.

(** The exits of the SDK [createRefundTransaction]. *)
Lemma Sdk_refund_cases (this : StellarHTLC) (kp : Keypair) (w : World) :
  (reading w <= 1000 * timelock (config this) /\
   Sdk.createRefundTransaction this kp w
   = (Throw "Timelock has not expired yet, cannot refund", advance w []))
  \/
  (1000 * timelock (config this) < reading w /\
   ((exists message w',
       Sdk.createRefundTransaction this kp w
       = (Throw ("Failed to create refund transaction: " ++ message), w'))
    \/
    (exists tx w',
       Sdk.createRefundTransaction this kp w = (Ok tx, w') /\
       tx_type tx = refund))).
Proof.
  unfold Sdk.createRefundTransaction. unfold_monad.
  destruct (Z.ltb_spec (1000 * timelock (config this)) (Date_now_at w (tick w)));
    cbn [negb]; [|left; now split].
  right. split; trivial.
  destruct (loadAccount_at (advance w []) (tick (advance w [])) (publicKey kp))
    as [acc|e]; [|left; eauto].
  match goal with
  | |- context [buildTransaction_at ?w' ?n ?rq] =>
      destruct (buildTransaction_at w' n rq) as [signed|e]
  end; [|left; eauto].
  right. eexists. eexists. split; reflexivity.
Qed.

(* ------------------------------------------------------------------ *)
(** ** Secret extraction *)

(** C10.  Secret extraction is sound.  Whenever
    [extractSecretFromTransaction] returns a secret [s], the transaction
    is a claim, [s] is [0x] followed by a non-empty hexadecimal text that
    the memo holds, and [validateSecret s] is true.  For a transaction
    that is not a claim, and for a memo that holds no text whose [0x]
    form hashes to the hashlock, extraction returns [null]. *)
Theorem extractSecretFromTransaction_sound
    (this : StellarHTLC) (tx : StellarHTLCTransaction) :
  (forall s,
      extractSecretFromTransaction this tx = Some s ->
      validateSecret this s = true /\ tx_type tx = claim /\
      exists g, s = "0x" ++ g /\ g <> EmptyString /\
                allb JS.isHex g = true /\ embeds (tx_memo tx) g)
  /\ (tx_type tx <> claim -> extractSecretFromTransaction this tx = None)
  /\ ((forall g, embeds (tx_memo tx) g ->
                 validateSecret this ("0x" ++ g) = false) ->
      extractSecretFromTransaction this tx = None).
Proof.
  assert (Hsound : forall s,
      extractSecretFromTransaction this tx = Some s ->
      validateSecret this s = true /\ tx_type tx = claim /\
      exists g, s = "0x" ++ g /\ g <> EmptyString /\
                allb JS.isHex g = true /\ embeds (tx_memo tx) g).
  { intros s. unfold extractSecretFromTransaction.
    destruct (tx_type tx) eqn:Ety; cbn [TxType_eqb negb]; try discriminate.
    destruct (Regex.memoMatch (tx_memo tx)) as [g|] eqn:Em; [|discriminate].
    destruct (validateSecret this ("0x" ++ g)) eqn:Ev; [|discriminate].
    intros [= <-]. repeat split; trivial.
    pose proof (memoMatch_sound _ _ Em) as (Hne & Hhex & _).
    exists g. repeat split; trivial. now apply memoMatch_embeds. }
  split; [exact Hsound|]. split.
  - intros Hty. unfold extractSecretFromTransaction.
    destruct (tx_type tx); cbn [TxType_eqb negb]; trivial. now elim Hty.
  - intros Hnone.
    destruct (extractSecretFromTransaction this tx) as [s|] eqn:E; trivial.
    destruct (Hsound s eq_refl) as (Hv & _ & g & -> & _ & _ & Hemb).
    apply Hnone in Hemb. congruence.
Qed.

Lemma extractSecretFromTransaction_sound_witness :
  validateSecret htlc0 secret0 = true /\
  extractSecretFromTransaction htlc0 fundTx0 = None.
Proof.
  split.
  - apply (proj1 (extractSecretFromTransaction_sound htlc0 claimTx0) secret0).
    vm_compute. reflexivity.
  - apply (proj1 (proj2 (extractSecretFromTransaction_sound htlc0 fundTx0))).
    discriminate.
Defined.

(** The memo of a claim made with [0x] and hexadecimal digits gives the
    secret back. *)
Lemma extract_of_claim_memo (c : StellarHTLCConfig) (g : string)
    (tx : StellarHTLCTransaction) :
  g <> EmptyString -> allb JS.isHex g = true ->
  validateSecret (newStellarHTLC c) ("0x" ++ g) = true ->
  tx_type tx = claim ->
  tx_memo tx
  = "HTLC_CLAIM_" ++ contractId (newStellarHTLC c) ++ "_"
      ++ JS.replace "0x" "" ("0x" ++ g) ->
  extractSecretFromTransaction (newStellarHTLC c) tx = Some ("0x" ++ g).
Proof.
  intros Hne Hhex Hv Hty Hmemo.
  unfold extractSecretFromTransaction.
  rewrite Hty, Hmemo, replace_0x_prefixed. cbn [TxType_eqb negb].
  destruct (generateContractId_hex c) as (Hcid & a & t & Ecid).
  rewrite (memoMatch_here _ g).
  - now rewrite Hv.
  - cbn [contractId newStellarHTLC].
    apply matchHere_claim_memo; trivial.
    + rewrite Ecid. discriminate.
    + eapply allb_imp; [exact isHex_notUnderscore|exact Hcid].
Qed.

(** C4 (as amended).  For every secret written [0x] followed by one or
    more hexadecimal digits such that [validateSecret] accepts it and the
    timelock has not expired, the claim transaction is produced and
    extracting the secret from it returns exactly that secret.  In the
    SDK variant the same holds whenever the transaction is produced. *)
Theorem claim_then_extract (c : StellarHTLCConfig) (g : string) (w : World) :
  let this := newStellarHTLC c in
  let s := "0x" ++ g in
  g <> EmptyString -> allb JS.isHex g = true ->
  validateSecret this s = true ->
  reading w <= 1000 * timelock c ->
  (exists tx w',
      Mock.createClaimingTransaction this s w = (Ok tx, w') /\
      extractSecretFromTransaction this tx = Some s)
  /\ (forall kp tx w',
         Sdk.createClaimingTransaction this s kp w = (Ok tx, w') ->
         extractSecretFromTransaction this tx = Some s).
Proof.
  intros this s Hne Hhex Hv Hnow. subst this s. split.
  - destruct (Mock_claim_cases (newStellarHTLC c) ("0x" ++ g) w)
      as [[Hf _]|[(_ & Hlt & _)|(_ & _ & tx & w' & E & Hty & Hmemo)]].
    + congruence.
    + cbn [config newStellarHTLC] in Hlt. lia.
    + exists tx, w'. split; trivial. now apply extract_of_claim_memo.
  - intros kp tx w' E.
    destruct (Sdk_claim_cases (newStellarHTLC c) ("0x" ++ g) kp w)
      as [[_ E']|[(_ & _ & E')|(_ & _ & [(m & w1 & E')|(tx1 & w1 & E' & Hty & Hmemo)])]];
      rewrite E in E'; try discriminate.
    injection E' as <- <-. now apply extract_of_claim_memo.
Qed.

Lemma claim_then_extract_witness :
  (exists tx w',
      Mock.createClaimingTransaction htlc0 secret0 (worldAt (fun _ => early))
      = (Ok tx, w') /\
      extractSecretFromTransaction htlc0 tx = Some secret0)
  /\ (forall kp tx w',
         Sdk.createClaimingTransaction htlc0 secret0 kp
           (worldAt (fun _ => early)) = (Ok tx, w') ->
         extractSecretFromTransaction htlc0 tx = Some secret0).
Proof.
  apply (claim_then_extract config0 bareSecret0 (worldAt (fun _ => early))).
  - discriminate.
  - vm_compute. reflexivity.
  - vm_compute. reflexivity.
  - vm_compute. discriminate.
Defined.

(** C4, as the claim states it, fails: a secret written without [0x] is
    accepted by [validateSecret] and claimed, and extraction returns it
    with [0x] in front, which is another text. *)
Lemma claim_then_extract_counterexample :
  validateSecret htlc0 bareSecret0 = true /\
  exists tx w',
    Mock.createClaimingTransaction htlc0 bareSecret0
      (worldAt (fun _ => early)) = (Ok tx, w') /\
    extractSecretFromTransaction htlc0 tx = Some ("0x" ++ bareSecret0) /\
    String.eqb ("0x" ++ bareSecret0) bareSecret0 = false.
Proof.
  split; [vm_compute; reflexivity|].
  eexists. eexists. split; [vm_compute; reflexivity|].
  split; vm_compute; reflexivity.
Qed.

(* ------------------------------------------------------------------ *)
(** ** Claim and refund windows of the single-stage escrow *)

(** C3 (as amended).  With the clock in milliseconds and the deadline
    [D] in seconds, the timelock is expired when the clock is strictly
    after [1000 * D].  A claim fails with the invalid-secret message
    whenever [validateSecret] rejects the secret (whatever the clock);
    with an accepted secret it fails with the expired message when the
    clock is strictly after the deadline, and is let through when the
    clock is at or before it.  A refund is let through when the clock is
    strictly after the deadline and fails with the not-yet-expired
    message when the clock is at or before it.  In the mock class a
    request that is let through succeeds; in the SDK class success
    implies that it was let through. *)
Theorem single_stage_gating
    (this : StellarHTLC) (secret : string) (kp : Keypair) (w : World) :
  let D := timelock (config this) in
  let now := reading w in
  (validateSecret this secret = false ->
     fst (Mock.createClaimingTransaction this secret w)
     = Throw "Invalid secret provided")
  /\ (validateSecret this secret = true -> 1000 * D < now ->
     fst (Mock.createClaimingTransaction this secret w)
     = Throw "Timelock has expired, cannot claim")
  /\ (validateSecret this secret = true -> now <= 1000 * D ->
     is_ok (fst (Mock.createClaimingTransaction this secret w)) = true)
  /\ (1000 * D < now ->
     is_ok (fst (Mock.createRefundTransaction this w)) = true)
  /\ (now <= 1000 * D ->
     fst (Mock.createRefundTransaction this w)
     = Throw "Timelock has not expired yet, cannot refund")
  /\ (validateSecret this secret = false ->
     fst (Sdk.createClaimingTransaction this secret kp w)
     = Throw "Invalid secret provided")
  /\ (validateSecret this secret = true -> 1000 * D < now ->
     fst (Sdk.createClaimingTransaction this secret kp w)
     = Throw "Timelock has expired, cannot claim")
  /\ (is_ok (fst (Sdk.createClaimingTransaction this secret kp w)) = true ->
     validateSecret this secret = true /\ now <= 1000 * D)
  /\ (is_ok (fst (Sdk.createRefundTransaction this kp w)) = true ->
     1000 * D < now)
  /\ (now <= 1000 * D ->
     fst (Sdk.createRefundTransaction this kp w)
     = Throw "Timelock has not expired yet, cannot refund").
Proof.
  intros D now. subst D now.
  pose proof (Mock_claim_cases this secret w) as MC.
  pose proof (Mock_refund_cases this w) as MR.
  pose proof (Sdk_claim_cases this secret kp w) as SC.
  pose proof (Sdk_refund_cases this kp w) as SR.
  split; [|split; [|split; [|split; [|split; [|split; [|split;
    [|split; [|split]]]]]]]].
  - intros Hv.
    destruct MC as [[_ E]|[(Hv' & _)|(Hv' & _)]]; try congruence.
    now rewrite E.
  - intros Hv Hlt.
    destruct MC as [[Hv' _]|[(_ & _ & E)|(_ & Hle & _)]];
      [congruence|now rewrite E|lia].
  - intros Hv Hle.
    destruct MC as [[Hv' _]|[(_ & Hlt & _)|(_ & _ & tx & w' & E & _)]];
      [congruence|lia|now rewrite E].
  - intros Hlt.
    destruct MR as [[Hle _]|(_ & tx & w' & E & _)]; [lia|now rewrite E].
  - intros Hle.
    destruct MR as [[_ E]|(Hlt & _)]; [now rewrite E|lia].
  - intros Hv.
    destruct SC as [[_ E]|[(Hv' & _)|(Hv' & _)]]; try congruence.
    now rewrite E.
  - intros Hv Hlt.
    destruct SC as [[Hv' _]|[(_ & _ & E)|(_ & Hle & _)]];
      [congruence|now rewrite E|lia].
  - intros Hok.
    destruct SC as [[_ E]|[(_ & _ & E)|(Hv & Hle & _)]];
      try (rewrite E in Hok; discriminate).
    now split.
  - intros Hok.
    destruct SR as [[_ E]|(Hlt & _)]; [|exact Hlt].
    rewrite E in Hok. discriminate.
  - intros Hle.
    destruct SR as [[_ E]|(Hlt & _)]; [now rewrite E|lia].
Qed.

Lemma single_stage_gating_witness :
  is_ok (fst (Mock.createClaimingTransaction htlc0 secret0
                (worldAt (fun _ => early)))) = true
  /\ fst (Mock.createClaimingTransaction htlc0 secret0
            (worldAt (fun _ => late)))
     = Throw "Timelock has expired, cannot claim"
  /\ fst (Mock.createClaimingTransaction htlc0 "0x01"
            (worldAt (fun _ => early)))
     = Throw "Invalid secret provided"
  /\ is_ok (fst (Mock.createRefundTransaction htlc0
                   (worldAt (fun _ => late)))) = true
  /\ fst (Sdk.createRefundTransaction htlc0 keypair0
            (worldAt (fun _ => early)))
     = Throw "Timelock has not expired yet, cannot refund".
Proof.
  pose proof (single_stage_gating htlc0 secret0 keypair0
                (worldAt (fun _ => early))) as E.
  pose proof (single_stage_gating htlc0 secret0 keypair0
                (worldAt (fun _ => late))) as L.
  pose proof (single_stage_gating htlc0 "0x01" keypair0
                (worldAt (fun _ => early))) as B.
  cbv zeta in E, L, B.
  destruct E as (_ & _ & E3 & _ & _ & _ & _ & _ & _ & E10).
  destruct L as (_ & L2 & _ & L4 & _).
  destruct B as (B1 & _).
  split; [apply E3; [vm_compute; reflexivity|vm_compute; discriminate]|].
  split; [apply L2; vm_compute; reflexivity|].
  split; [apply B1; vm_compute; reflexivity|].
  split; [apply L4; vm_compute; reflexivity|].
  apply E10. vm_compute. discriminate.
Defined.

(** C3, as the claim states it, fails at the deadline itself: with the
    clock exactly at [1000 * D] milliseconds a claim with the right
    secret still succeeds (the claim says it fails as expired at or
    after [D]), and a refund is still refused. *)
Lemma single_stage_gating_counterexample :
  reading (worldAt (fun _ => deadline)) = 1000 * timelock (config htlc0)
  /\ is_ok (fst (Mock.createClaimingTransaction htlc0 secret0
                   (worldAt (fun _ => deadline)))) = true
  /\ fst (Mock.createRefundTransaction htlc0 (worldAt (fun _ => deadline)))
     = Throw "Timelock has not expired yet, cannot refund"
  /\ fst (Sdk.createRefundTransaction htlc0 keypair0
            (worldAt (fun _ => deadline)))
     = Throw "Timelock has not expired yet, cannot refund".
Proof. repeat split; vm_compute; reflexivity. Qed.

(* ------------------------------------------------------------------ *)
(** ** No lifecycle state *)

Lemma Mock_perform_guards (this : StellarHTLC) (o : Op) (w : World) :
  is_ok (fst (perform this o w)) = guardsPass this o (reading w).
Proof.
  destruct o as [|secret|]; cbn [perform guardsPass].
  - destruct (Mock_fund_ok this w) as (tx & w' & E & _). now rewrite E.
  - destruct (Mock_claim_cases this secret w)
      as [[Hv E]|[(Hv & Hlt & E)|(Hv & Hle & tx & w' & E & _)]];
      rewrite E, Hv; cbn [fst is_ok andb]; trivial.
    + symmetry. apply negb_false_iff. now apply Z.ltb_lt.
    + symmetry. apply negb_true_iff. now apply Z.ltb_ge.
  - destruct (Mock_refund_cases this w) as [[Hle E]|(Hlt & tx & w' & E & _)];
      rewrite E; cbn [fst is_ok]; symmetry.
    + now apply Z.ltb_ge.
    + now apply Z.ltb_lt.
Qed.

Lemma Sdk_perform_guards (kp : Keypair) (this : StellarHTLC) (o : Op)
    (w : World) :
  is_ok (fst (performSdk kp this o w)) = true ->
  guardsPass this o (reading w) = true.
Proof.
  destruct o as [|secret|]; cbn [performSdk guardsPass]; trivial.
  - destruct (Sdk_claim_cases this secret kp w)
      as [[_ E]|[(_ & _ & E)|(Hv & Hle & _)]];
      try (rewrite E; discriminate).
    intros _. rewrite Hv. cbn [andb].
    apply negb_true_iff. now apply Z.ltb_ge.
  - destruct (Sdk_refund_cases this kp w) as [[_ E]|(Hlt & _)];
      try (rewrite E; discriminate).
    intros _. now apply Z.ltb_lt.
Qed.

Lemma Mock_perform_messages (this : StellarHTLC) (o : Op) (w : World)
    (message : string) :
  fst (perform this o w) = Throw message ->
  message = "Invalid secret provided" \/
  message = "Timelock has expired, cannot claim" \/
  message = "Timelock has not expired yet, cannot refund".
Proof.
  destruct o as [|secret|]; cbn [perform].
  - destruct (Mock_fund_ok this w) as (tx & w' & E & _). now rewrite E.
  - destruct (Mock_claim_cases this secret w)
      as [[_ E]|[(_ & _ & E)|(_ & _ & tx & w' & E & _)]];
      rewrite E; cbn [fst]; intros [= <-]; auto.
  - destruct (Mock_refund_cases this w) as [[_ E]|(_ & tx & w' & E & _)];
      rewrite E; cbn [fst]; intros [= <-]; auto.
Qed.

(** C1 (as amended).  The record keeps no lifecycle state and there is
    no already-terminal failure.  Whatever operations were applied to a
    record before (successful claims and refunds included), the next
    operation succeeds exactly when its own guards pass at the clock
    reading of that moment: a funding always, a claim when the secret
    validates and the timelock is not expired, a refund when the timelock
    is expired (in the SDK class: only when they pass).  The failures are
    the three messages of the guards.  At one clock reading the guards of
    claim and of refund never pass together. *)
Theorem no_lifecycle_state
    (this : StellarHTLC) (history : list Op) (w0 : World) (o : Op)
    (kp : Keypair) :
  let w := snd (run perform this history w0) in
  let wSdk := snd (run (performSdk kp) this history w0) in
  is_ok (fst (perform this o w)) = guardsPass this o (reading w)
  /\ (forall message,
        fst (perform this o w) = Throw message ->
        message = "Invalid secret provided" \/
        message = "Timelock has expired, cannot claim" \/
        message = "Timelock has not expired yet, cannot refund")
  /\ (is_ok (fst (performSdk kp this o wSdk)) = true ->
      guardsPass this o (reading wSdk) = true)
  /\ (forall secret now,
        guardsPass this (OpClaim secret) now && guardsPass this OpRefund now
        = false).
Proof.
  intros w wSdk. split; [apply Mock_perform_guards|].
  split; [intros m; apply Mock_perform_messages|].
  split; [apply Sdk_perform_guards|].
  intros secret now. cbn [guardsPass].
  destruct (validateSecret this secret), (1000 * timelock (config this) <? now);
    reflexivity.
Qed.

Lemma no_lifecycle_state_witness :
  guardsPass htlc0 OpRefund
    (reading (snd (run (performSdk keypair0) htlc0 [OpClaim secret0]
                     (worldAt (fun _ => late))))) = true.
Proof.
  apply (proj1 (proj2 (proj2
           (no_lifecycle_state htlc0 [OpClaim secret0]
              (worldAt (fun _ => late)) OpRefund keypair0)))).
  vm_compute. reflexivity.
Defined.

(** C1, as the claim states it, fails: on one record a claim succeeds, a
    second claim succeeds again, and once the clock has passed the
    deadline a refund succeeds too. *)
Lemma no_lifecycle_state_counterexample :
  map is_ok
    (fst (run perform htlc0 [OpClaim secret0; OpClaim secret0; OpRefund]
            (worldAt clockPassing)))
  = [true; true; true].
Proof. vm_compute. reflexivity. Qed.

(* ------------------------------------------------------------------ *)
(** ** The clock *)

(** C8 (as amended).  Whether the timelock is expired is a
    deterministic function of the configured timelock and of the reading
    of the ambient wall clock that the method takes itself: no clock
    value is supplied to it.  Two evaluations that read the same value
    return the same result, which is whether the reading (milliseconds)
    is strictly after 1000 times the timelock. *)
Theorem isTimelockExpired_reads_clock (this : StellarHTLC) (w1 w2 : World) :
  reading w1 = reading w2 ->
  fst (isTimelockExpired this w1) = fst (isTimelockExpired this w2)
  /\ fst (isTimelockExpired this w1)
     = Ok (1000 * timelock (config this) <? reading w1).
Proof.
  intros E. unfold isTimelockExpired, bind, Date_now, ret, reading in *.
  cbn [fst]. now rewrite E.
Qed.

Lemma isTimelockExpired_reads_clock_witness :
  fst (isTimelockExpired htlc0 (worldAt (fun _ => late)))
  = fst (isTimelockExpired htlc0 (worldAt clockTurning)).
Proof.
  exact (proj1 (isTimelockExpired_reads_clock htlc0
                  (worldAt (fun _ => late)) (worldAt clockTurning) eq_refl)).
Defined.

(** C8, as the claim states it, fails: the same record, evaluated with
    no clock value supplied, is not expired in a world whose wall clock
    is before the deadline and expired in a world whose wall clock is
    after it. *)
Lemma isTimelockExpired_reads_clock_counterexample :
  fst (isTimelockExpired htlc0 (worldAt (fun _ => early))) = Ok false
  /\ fst (isTimelockExpired htlc0 (worldAt (fun _ => late))) = Ok true.
Proof. split; vm_compute; reflexivity. Qed.

(* ------------------------------------------------------------------ *)
(** ** Secrets of any length *)

(** What [validateSecret] answers for the hexadecimal text of a buffer. *)
Lemma validateSecret_writeSecret
    (this : StellarHTLC) (secretBytes : list byte) :
  validateSecret this (writeSecret secretBytes) = true
  <-> SHA256.sha256hex secretBytes
      = JS.replace "0x" "" (hashlock (config this)).
Proof.
  unfold writeSecret. rewrite validateSecret_prefixed, hexDecode_toHex.
  apply String.eqb_eq.
Qed.

(** C9 (as amended).  [validateSecret] makes no length check and has no
    malformed-input failure: for the bytes of a secret of any length,
    written in hexadecimal after [0x], it returns an ordinary boolean,
    true exactly when the SHA-256 of the bytes, in lower-case
    hexadecimal, is the hashlock without its [0x].  An input it answers
    false for, whatever its length or shape, makes a claim fail with the
    invalid-secret message. *)
Theorem validateSecret_no_length_check
    (this : StellarHTLC) (secretBytes : list byte) (secret : string)
    (kp : Keypair) (w : World) :
  (validateSecret this (writeSecret secretBytes) = true
   <-> SHA256.sha256hex secretBytes
       = JS.replace "0x" "" (hashlock (config this)))
  /\ (validateSecret this secret = false ->
      fst (Mock.createClaimingTransaction this secret w)
      = Throw "Invalid secret provided"
      /\ fst (Sdk.createClaimingTransaction this secret kp w)
         = Throw "Invalid secret provided").
Proof.
  split; [apply validateSecret_writeSecret|].
  intros Hv. split.
  - destruct (Mock_claim_cases this secret w)
      as [[_ E]|[(Hv' & _)|(Hv' & _)]]; try congruence.
    now rewrite E.
  - destruct (Sdk_claim_cases this secret kp w)
      as [[_ E]|[(Hv' & _)|(Hv' & _)]]; try congruence.
    now rewrite E.
Qed.

Lemma validateSecret_no_length_check_witness :
  validateSecret htlc1 (writeSecret [x00]) = true
  /\ fst (Mock.createClaimingTransaction htlc0 "0x00"
            (worldAt (fun _ => early)))
     = Throw "Invalid secret provided".
Proof.
  pose proof (validateSecret_no_length_check htlc1 [x00] "0x00" keypair0
                (worldAt (fun _ => early))) as [A _].
  pose proof (validateSecret_no_length_check htlc0 [x00] "0x00" keypair0
                (worldAt (fun _ => early))) as [_ B].
  split.
  - apply A. vm_compute. reflexivity.
  - apply B. vm_compute. reflexivity.
Defined.

(** C9, as the claim states it, fails: a secret of one byte is not
    refused as malformed; [validateSecret] returns true for it when its
    digest is the hashlock, and the claim made with it succeeds.  The
    empty secret gets the ordinary answer false. *)
Lemma validateSecret_no_length_check_counterexample :
  validateSecret htlc1 "0x00" = true
  /\ is_ok (fst (Mock.createClaimingTransaction htlc1 "0x00"
                   (worldAt (fun _ => early)))) = true
  /\ validateSecret htlc0 EmptyString = false.
Proof. repeat split; vm_compute; reflexivity. Qed.

(* ------------------------------------------------------------------ *)
(** ** Re-verification before the dependent claim *)

Lemma submitted_app (a b : list Event) :
  submitted (a ++ b)%list = submitted a || submitted b.
Proof.
  induction a as [|e a IH]; [reflexivity|].
  destruct e; cbn [app submitted orb]; trivial.
Qed.

Lemma quiet_ret {A : Type} (a : A) : quiet (ret a).
Proof. intros w. now exists []. Qed.

Lemma quiet_throw {A : Type} (message : string) : quiet (@throw A message).
Proof. intros w. now exists []. Qed.

Lemma quiet_lift {A : Type} (r : result A) : quiet (lift r).
Proof. intros w. now exists []. Qed.

Lemma quiet_required {A : Type} (o : option A) : quiet (required o).
Proof. destruct o; [apply quiet_ret|apply quiet_throw]. Qed.

Lemma quiet_bind {A B : Type} (m : M A) (k : A -> M B) :
  quiet m -> (forall a, quiet (k a)) -> quiet (bind m k).
Proof.
  intros Hm Hk w. unfold bind.
  destruct (Hm w) as (evs1 & E1 & S1).
  destruct (m w) as [[a|e] w1]; cbn [snd] in *.
  - destruct (Hk a w1) as (evs2 & E2 & S2).
    exists (evs2 ++ evs1)%list. rewrite E2, E1, app_assoc, submitted_app, S1, S2.
    now split.
  - now exists evs1.
Qed.

Lemma quiet_try_catch {A : Type} (m : M A) (handler : string -> M A) :
  quiet m -> (forall e, quiet (handler e)) -> quiet (try_catch m handler).
Proof.
  intros Hm Hh w. unfold try_catch.
  destruct (Hm w) as (evs1 & E1 & S1).
  destruct (m w) as [[a|e] w1]; cbn [snd] in *.
  - now exists evs1.
  - destruct (Hh e w1) as (evs2 & E2 & S2).
    exists (evs2 ++ evs1)%list. rewrite E2, E1, app_assoc, submitted_app, S1, S2.
    now split.
Qed.

Lemma quiet_transactionCall (txHash : string) : quiet (transactionCall txHash).
Proof. intros w. now exists [EvTransactionCall txHash]. Qed.

Lemma quiet_extractSecretFromTransactionHash
    (this : StellarHTLC) (txHash : string) :
  quiet (Sdk.extractSecretFromTransactionHash this txHash).
Proof.
  apply quiet_try_catch; [|intros; apply quiet_throw].
  apply quiet_bind; [apply quiet_transactionCall|].
  intros t. destruct (Sdk.secretOfMemo this t); [apply quiet_ret|].
  apply quiet_bind; [apply quiet_lift|intros; apply quiet_ret].
Qed.

Lemma quiet_extractedSecretOf (st : StellarToBase.SwapState) :
  quiet (StellarToBase.extractedSecretOf st).
Proof.
  apply quiet_bind; [apply quiet_required|].
  intros reveal. destruct (sr_simulated reveal); [apply quiet_required|].
  apply quiet_try_catch; [|intros; apply quiet_required].
  apply quiet_bind; [apply quiet_required|]. intros htlc.
  apply quiet_bind; [apply quiet_extractSecretFromTransactionHash|].
  intros [s|]; [|apply quiet_throw].
  destruct (String.eqb s EmptyString); [apply quiet_throw|apply quiet_ret].
Qed.

Lemma quiet_claimAssets (st : StellarToBase.SwapState) :
  quiet (StellarToBase.claimAssets st).
Proof.
  apply quiet_try_catch; [|intros; apply quiet_throw].
  apply quiet_bind; [apply quiet_extractedSecretOf|]. intros e.
  destruct (negb _); [apply quiet_throw|].
  apply quiet_bind; [apply quiet_required|intros; apply quiet_ret].
Qed.

(** The check of the coordinator, spelled out: the SHA-256 of the bytes
    the text decodes to after its first two characters, in lower-case
    hexadecimal after [0x], is compared with the hashlock. *)
Lemma isValidSecret_sha256 (e h : string) :
  isValidSecret e (Some h)
  = String.eqb ("0x" ++ SHA256.sha256hex (JS.hexDecode (JS.slice 2 e))) h.
Proof. reflexivity. Qed.

Lemma isValidSecret_false (e : string) (expected : option string) :
  Some ("0x" ++ SHA256.sha256hex (JS.hexDecode (JS.slice 2 e))) <> expected ->
  isValidSecret e expected = false.
Proof.
  destruct expected as [h|]; [|reflexivity].
  rewrite isValidSecret_sha256.
  intros Hne. apply String.eqb_neq. congruence.
Qed.

Lemma isValidSecret_true (e : string) (expected : option string) :
  isValidSecret e expected = true ->
  Some ("0x" ++ SHA256.sha256hex (JS.hexDecode (JS.slice 2 e))) = expected.
Proof.
  destruct expected as [h|]; [|discriminate].
  rewrite isValidSecret_sha256.
  intros H. apply String.eqb_eq in H. now subst.
Qed.

Lemma toHex_inj (a b : list byte) : JS.toHex a = JS.toHex b -> a = b.
Proof.
  intros E. rewrite <- (hexDecode_toHex a), <- (hexDecode_toHex b).
  now rewrite E.
Qed.

(** For the bytes of a secret written [0x] and hexadecimal digits, and
    a hashlock derived from bytes, the check compares the two SHA-256
    digests. *)
Lemma isValidSecret_bytes (bytes secretBytes : list byte) :
  isValidSecret (writeSecret bytes) (Some (deriveHashlock secretBytes)) = true
  <-> SHA256.sha256 bytes = SHA256.sha256 secretBytes.
Proof.
  rewrite isValidSecret_sha256. unfold writeSecret, deriveHashlock.
  change (JS.slice 2 ("0x" ++ JS.toHex bytes)) with (JS.toHex bytes).
  rewrite hexDecode_toHex. unfold SHA256.sha256hex.
  rewrite String.eqb_eq. split.
  - intros [= E]. now apply toHex_inj.
  - now intros ->.
Qed.

(** C5.  Before the dependent claim the coordinator verifies locally
    that the SHA-256 of the extracted secret is the hashlock of the
    session: [0x] and the lower-case hexadecimal SHA-256 digest of the
    bytes of the extracted secret must be the hashlock.  In both
    scripts, for every extracted secret whose digest differs from the
    hashlock the claim step fails with the invalid-secret-extracted
    error and nothing is submitted to a ledger; the step succeeds only
    with an extracted secret whose digest is the hashlock; and for a
    session whose hashlock was derived from the bytes of a secret, an
    extracted secret written [0x] and hexadecimal digits passes exactly
    when its bytes have the SHA-256 digest of those bytes. *)
Theorem dependent_claim_reverifies (w : World) :
  (forall st e w1,
      StellarToBase.extractedSecretOf st w = (Ok e, w1) ->
      Some ("0x" ++ SHA256.sha256hex (JS.hexDecode (JS.slice 2 e)))
      <> StellarToBase.s_hashlock st ->
      fst (StellarToBase.claimAssets st w) = Throw "Invalid secret extracted!"
      /\ exists evs,
           trace (snd (StellarToBase.claimAssets st w)) = (evs ++ trace w)%list
           /\ submitted evs = false)
  /\ (forall st,
      fst (StellarToBase.claimAssets st w) = Ok true ->
      exists e w1,
        StellarToBase.extractedSecretOf st w = (Ok e, w1)
        /\ Some ("0x" ++ SHA256.sha256hex (JS.hexDecode (JS.slice 2 e)))
           = StellarToBase.s_hashlock st)
  /\ (forall st bytes secretBytes w1,
      StellarToBase.s_hashlock st = Some (deriveHashlock secretBytes) ->
      StellarToBase.extractedSecretOf st w = (Ok (writeSecret bytes), w1) ->
      (SHA256.sha256 bytes <> SHA256.sha256 secretBytes ->
       fst (StellarToBase.claimAssets st w)
       = Throw "Invalid secret extracted!")
      /\ (fst (StellarToBase.claimAssets st w) = Ok true ->
          SHA256.sha256 bytes = SHA256.sha256 secretBytes))
  /\ (forall st e,
      BaseToStellar.s_secret st = Some e ->
      Some ("0x" ++ SHA256.sha256hex (JS.hexDecode (JS.slice 2 e)))
      <> BaseToStellar.s_hashlock st ->
      fst (BaseToStellar.ethTakerClaimETH st w)
      = Throw "Invalid secret extracted!"
      /\ trace (snd (BaseToStellar.ethTakerClaimETH st w)) = trace w)
  /\ (forall st,
      fst (BaseToStellar.ethTakerClaimETH st w) = Ok true ->
      exists e,
        BaseToStellar.s_secret st = Some e
        /\ Some ("0x" ++ SHA256.sha256hex (JS.hexDecode (JS.slice 2 e)))
           = BaseToStellar.s_hashlock st)
  /\ (forall st bytes secretBytes,
      BaseToStellar.s_hashlock st = Some (deriveHashlock secretBytes) ->
      BaseToStellar.s_secret st = Some (writeSecret bytes) ->
      (SHA256.sha256 bytes <> SHA256.sha256 secretBytes ->
       fst (BaseToStellar.ethTakerClaimETH st w)
       = Throw "Invalid secret extracted!")
      /\ (fst (BaseToStellar.ethTakerClaimETH st w) = Ok true ->
          SHA256.sha256 bytes = SHA256.sha256 secretBytes)).
Proof.
  assert (S1 : forall st e w1,
      StellarToBase.extractedSecretOf st w = (Ok e, w1) ->
      isValidSecret e (StellarToBase.s_hashlock st) = false ->
      fst (StellarToBase.claimAssets st w) = Throw "Invalid secret extracted!").
  { intros st e w1 E Hf.
    unfold StellarToBase.claimAssets, try_catch, bind. now rewrite E, Hf. }
  assert (S2 : forall st e w1,
      StellarToBase.extractedSecretOf st w = (Ok e, w1) ->
      fst (StellarToBase.claimAssets st w) = Ok true ->
      isValidSecret e (StellarToBase.s_hashlock st) = true).
  { intros st e w1 E. unfold StellarToBase.claimAssets, try_catch, bind.
    rewrite E.
    destruct (isValidSecret e (StellarToBase.s_hashlock st)); cbn [negb];
      [trivial|discriminate]. }
  assert (B1 : forall st e,
      BaseToStellar.s_secret st = Some e ->
      isValidSecret e (BaseToStellar.s_hashlock st) = false ->
      BaseToStellar.ethTakerClaimETH st w
      = (Throw "Invalid secret extracted!", w)).
  { intros st e E Hf.
    unfold BaseToStellar.ethTakerClaimETH, try_catch, bind, required.
    rewrite E. unfold ret. now rewrite Hf. }
  assert (B2 : forall st e,
      BaseToStellar.s_secret st = Some e ->
      fst (BaseToStellar.ethTakerClaimETH st w) = Ok true ->
      isValidSecret e (BaseToStellar.s_hashlock st) = true).
  { intros st e E.
    unfold BaseToStellar.ethTakerClaimETH, try_catch, bind, required.
    rewrite E. unfold ret.
    destruct (isValidSecret e (BaseToStellar.s_hashlock st)); cbn [negb];
      [trivial|discriminate]. }
  split; [|split; [|split; [|split; [|split]]]].
  - intros st e w1 E Hne. split; [|apply quiet_claimAssets].
    apply (S1 st e w1 E). now apply isValidSecret_false.
  - intros st Hok.
    destruct (StellarToBase.extractedSecretOf st w) as [[e|m] w1] eqn:E.
    + exists e, w1. split; trivial.
      apply isValidSecret_true. now apply (S2 st e w1).
    + unfold StellarToBase.claimAssets, try_catch, bind in Hok.
      rewrite E in Hok. discriminate.
  - intros st bytes secretBytes w1 Hh E. split.
    + intros Hne. apply (S1 st _ w1 E). rewrite Hh.
      apply not_true_is_false. now rewrite isValidSecret_bytes.
    + intros Hok. apply isValidSecret_bytes. rewrite <- Hh.
      now apply (S2 st _ w1).
  - intros st e E Hne. rewrite (B1 st e E); [now split|].
    now apply isValidSecret_false.
  - intros st Hok.
    destruct (BaseToStellar.s_secret st) as [e|] eqn:E.
    + exists e. split; trivial. apply isValidSecret_true. now apply B2.
    + unfold BaseToStellar.ethTakerClaimETH, try_catch, bind, required in Hok.
      rewrite E in Hok. discriminate.
  - intros st bytes secretBytes Hh E. split.
    + intros Hne. rewrite (B1 st _ E); [reflexivity|]. rewrite Hh.
      apply not_true_is_false. now rewrite isValidSecret_bytes.
    + intros Hok. apply isValidSecret_bytes. rewrite <- Hh. now apply B2.
Qed.

Lemma dependent_claim_reverifies_witness :
  fst (StellarToBase.claimAssets mismatched (worldAt (fun _ => early)))
  = Throw "Invalid secret extracted!"
  /\ fst (BaseToStellar.ethTakerClaimETH mismatched' (worldAt (fun _ => early)))
     = Throw "Invalid secret extracted!".
Proof.
  pose proof (dependent_claim_reverifies (worldAt (fun _ => early)))
    as (S & _ & _ & B & _).
  split.
  - refine (proj1 (S mismatched "0x01" (worldAt (fun _ => early)) eq_refl _)).
    vm_compute. discriminate.
  - refine (proj1 (B mismatched' "0x01" eq_refl _)).
    vm_compute. discriminate.
Defined.

(* ------------------------------------------------------------------ *)
(** ** Packing of the timelocks *)

Lemma lor_shiftl_add (a b n : Z) :
  0 <= n -> 0 <= a < 2 ^ n -> Z.lor a (Z.shiftl b n) = a + b * 2 ^ n.
Proof.
  intros Hn Ha. rewrite <- Z.add_lor_land, <- Z.shiftl_mul_pow2 by trivial.
  assert (E : Z.land a (Z.shiftl b n) = 0); [|rewrite E; lia].
  apply Z.bits_inj'. intros m Hm.
  rewrite Z.land_spec, Z.bits_0.
  destruct (Z.lt_ge_cases m n) as [Hlt|Hge].
  - rewrite (Z.shiftl_spec_low b n m Hlt). apply andb_false_r.
  - destruct (Z.eq_dec a 0) as [->|Hne]; [now rewrite Z.bits_0|].
    rewrite (Z.bits_above_log2 a m); [reflexivity|lia|].
    apply Z.log2_lt_pow2; [lia|].
    apply Z.lt_le_trans with (2 ^ n); [lia|].
    apply Z.pow_le_mono_r; lia.
Qed.

Lemma lor_rearrange (n x y z : Z) :
  Z.lor (Z.lor (Z.lor n x) y) z = Z.lor x (Z.lor y (Z.lor z n)).
Proof.
  apply Z.bits_inj'. intros m _. rewrite !Z.lor_spec.
  destruct (Z.testbit n m), (Z.testbit x m), (Z.testbit y m),
    (Z.testbit z m); reflexivity.
Qed.

(** With offsets that fit 32 bits the packed word is the positional sum
    of its four fields. *)
Lemma packedTimelocks_value (now : Z) (tl : Timelocks) :
  0 <= now ->
  0 <= withdrawal tl - now < 2 ^ 32 ->
  0 <= publicWithdrawal tl - now < 2 ^ 32 ->
  0 <= cancellation tl - now < 2 ^ 32 ->
  packedTimelocks now tl
  = (withdrawal tl - now) + (publicWithdrawal tl - now) * 2 ^ 32
    + (cancellation tl - now) * 2 ^ 64 + now * 2 ^ 224.
Proof.
  intros Hn Hw Hp Hc. unfold packedTimelocks. cbv zeta.
  set (x := withdrawal tl - now) in *.
  set (y := publicWithdrawal tl - now) in *.
  set (z := cancellation tl - now) in *.
  rewrite Z.shiftl_0_r, lor_rearrange.
  replace (Z.shiftl now 224) with (Z.shiftl (Z.shiftl now 160) 64)
    by (rewrite Z.shiftl_shiftl by lia; reflexivity).
  rewrite <- Z.shiftl_lor.
  replace (Z.shiftl (Z.lor z (Z.shiftl now 160)) 64)
    with (Z.shiftl (Z.shiftl (Z.lor z (Z.shiftl now 160)) 32) 32)
    by (rewrite Z.shiftl_shiftl by lia; reflexivity).
  rewrite <- Z.shiftl_lor.
  rewrite (lor_shiftl_add z now 160) by lia.
  rewrite (lor_shiftl_add y _ 32) by lia.
  rewrite (lor_shiftl_add x _ 32) by lia.
  change (2 ^ 224) with (2 ^ 160 * 2 ^ 32 * 2 ^ 32).
  change (2 ^ 64) with (2 ^ 32 * 2 ^ 32).
  ring.
Qed.



(* ------------------------------------------------------------------ *)
(** ** Creation of a session *)

Lemma firstn_pad_length (n : nat) (l : list byte) :
  List.length (firstn n (l ++ repeat x00 n)) = n.
Proof.
  rewrite length_firstn, length_app, repeat_length. lia.
Qed.

(** [generateHashlock] succeeds once the key pairs are there, whatever
    the clock reads. *)
Lemma generateHashlock_ok (st : StellarToBase.SwapState) (w : World)
    (mk tk : Keypair) :
  StellarToBase.stellarMaker st = Some mk ->
  StellarToBase.stellarTaker st = Some tk ->
  exists st1 w1 secretBytes htlc,
    StellarToBase.generateHashlock st w = (Ok (true, st1), w1)
    /\ List.length secretBytes = 32%nat
    /\ StellarToBase.s_secret st1 = Some (writeSecret secretBytes)
    /\ StellarToBase.s_hashlock st1 = Some (deriveHashlock secretBytes)
    /\ StellarToBase.stellarHTLC st1 = Some htlc
    /\ hashlock (config htlc) = deriveHashlock secretBytes
    /\ timelock (config htlc)
       = Date_now_at w (2 + tick w)%nat / 1000 + 86400
    /\ StellarToBase.baseSigner st1 = StellarToBase.baseSigner st
    /\ tick w1 = (3 + tick w)%nat
    /\ Date_now_at w1 = Date_now_at w
    /\ trace w1 = trace w.
Proof.
  intros Hm Ht. unfold StellarToBase.generateHashlock.
  rewrite Hm, Ht. unfold_monad.
  do 4 eexists. split; [reflexivity|].
  cbn [StellarToBase.s_secret StellarToBase.s_hashlock
       StellarToBase.stellarHTLC StellarToBase.baseSigner
       config newStellarHTLC hashlock timelock tick advance
       Date_now_at trace app].
  split; [apply firstn_pad_length|].
  repeat split.
Qed.

(** [lockETHIntoHTLC] submits the escrow with the checkpoints 3600,
    21600 and 86400 seconds after its own clock reading, whatever the
    state holds about the Stellar leg. *)
Lemma lockETHIntoHTLC_submits (st : StellarToBase.SwapState) (w : World)
    (signer : string) :
  StellarToBase.baseSigner st = Some signer ->
  let now := reading w / 1000 in
  exists im evs,
    trace (snd (StellarToBase.lockETHIntoHTLC st w))
    = (evs ++ EvCreateDstEscrow im (ethAmount + safetyDepositAmount)
           :: trace w)%list
    /\ timelocks im = packedTimelocks now (lockTimelocks now).
Proof.
  intros Hs now. subst now. unfold StellarToBase.lockETHIntoHTLC.
  rewrite Hs. unfold_monad.
  match goal with
  | |- context [createDstEscrow_at ?w' ?n ?im ?v] =>
      destruct (createDstEscrow_at w' n im v) as [receipt|e];
      exists im
  end.
  - destruct (rc_DstEscrowCreated receipt) as [a|].
    + exists []. split; reflexivity.
    + match goal with
      | |- context [addressOfEscrowDst_at ?w' ?n ?im] =>
          destruct (addressOfEscrowDst_at w' n im) as [a|e];
          exists [EvAddressOfEscrowDst im]
      end; split; reflexivity.
  - exists []. split; reflexivity.
Qed.


(* ------------------------------------------------------------------ *)
(** ** The packed timelocks of the escrow *)



(** C6 (as amended).  Session creation makes no check on the pair of
    schedules and rejects none.  Once the key pairs and the signer are
    loaded, [generateHashlock] always succeeds and sets the deadline of
    the Stellar leg (the leg whose claim reveals the secret) 86400
    seconds after its clock reading, in whole seconds (that reading is
    its third read of the world, after the random bytes and the reading
    that names the order); [lockETHIntoHTLC] then always submits the
    Base escrow (the dependent leg), with checkpoints 3600, 21600 and
    86400 seconds after its own reading.
    When the clock has not run backwards between the two readings, the
    Stellar deadline is at or before the Base cancellation checkpoint. *)
Theorem session_creation_no_margin_check
    (st : StellarToBase.SwapState) (w : World) (mk tk : Keypair)
    (signer : string) :
  StellarToBase.stellarMaker st = Some mk ->
  StellarToBase.stellarTaker st = Some tk ->
  StellarToBase.baseSigner st = Some signer ->
  exists st1 w1 htlc,
    StellarToBase.generateHashlock st w = (Ok (true, st1), w1)
    /\ StellarToBase.stellarHTLC st1 = Some htlc
    /\ timelock (config htlc) = Date_now_at w (2 + tick w)%nat / 1000 + 86400
    /\ exists im evs,
         trace (snd (StellarToBase.lockETHIntoHTLC st1 w1))
         = (evs ++ EvCreateDstEscrow im (ethAmount + safetyDepositAmount)
                :: trace w)%list
         /\ timelocks im
            = packedTimelocks (reading w1 / 1000)
                (lockTimelocks (reading w1 / 1000))
         /\ (Date_now_at w (2 + tick w)%nat <= reading w1 ->
             timelock (config htlc)
             <= cancellation (lockTimelocks (reading w1 / 1000))).
Proof.
  intros Hm Ht Hs.
  destruct (generateHashlock_ok st w mk tk Hm Ht)
    as (st1 & w1 & b & htlc & E & _ & _ & _ & Eh & _ & Et & Es & _ & _ & Etr).
  exists st1, w1, htlc. repeat split; trivial.
  rewrite Hs in Es.
  destruct (lockETHIntoHTLC_submits st1 w1 signer Es) as (im & evs & E1 & E2).
  exists im, evs. rewrite <- Etr. repeat split; trivial.
  intros Hle. rewrite Et. cbn [cancellation lockTimelocks].
  apply Z.add_le_mono_r. apply Z.div_le_mono; lia.
Qed.

Lemma session_creation_no_margin_check_witness :
  exists st1 w1 htlc,
    StellarToBase.generateHashlock connected (worldAt clockSecondLater)
    = (Ok (true, st1), w1)
    /\ StellarToBase.stellarHTLC st1 = Some htlc
    /\ timelock (config htlc) = 0 / 1000 + 86400
    /\ exists im evs,
         trace (snd (StellarToBase.lockETHIntoHTLC st1 w1))
         = (evs ++ [EvCreateDstEscrow im (ethAmount + safetyDepositAmount)])%list
         /\ timelocks im
            = packedTimelocks (reading w1 / 1000)
                (lockTimelocks (reading w1 / 1000))
         /\ (0 <= reading w1 ->
             timelock (config htlc)
             <= cancellation (lockTimelocks (reading w1 / 1000))).
Proof.
  exact (session_creation_no_margin_check connected (worldAt clockSecondLater)
           keypair0 keypair0 "0x71A076E706c058cee2c7c87bA2Dc6fAe23Ec208e"
           eq_refl eq_refl eq_refl).
Defined.

(** C6, as the claim states it, fails: with a clock that passes from
    second 0 to second 1 between the two steps, the Stellar deadline
    (86400) is before the Base cancellation checkpoint (86401), which is
    the ordering the claim says is rejected; the session is created all
    the same and the Base escrow is submitted. *)
Lemma session_creation_no_margin_check_counterexample :
  exists st2 w2 htlc escrow,
    StellarToBase.runAtomicSwapTestSetup connected (worldAt clockSecondLater)
    = (Ok (true, st2), w2)
    /\ StellarToBase.stellarHTLC st2 = Some htlc
    /\ timelock (config htlc) = 86400
    /\ StellarToBase.baseEscrow st2 = Some escrow
    /\ timelocks (be_immutables escrow) = packedTimelocks 1 (lockTimelocks 1)
    /\ cancellation (lockTimelocks 1) = 86401
    /\ submitted (trace w2) = true.
Proof.
  do 4 eexists. split; [vm_compute; reflexivity|].
  repeat split; vm_compute; reflexivity.
Qed.

(* ------------------------------------------------------------------ *)
(** ** Hash binding of a generated session *)

(** X1.  A generated session holds a 32-byte secret, written [0x] and
    hexadecimal digits, and the hashlock derived from its bytes; its own
    Stellar record and the re-verification of the coordinator both
    accept that secret. *)
Theorem generateHashlock_binds (st st1 : StellarToBase.SwapState)
    (w w1 : World) :
  StellarToBase.generateHashlock st w = (Ok (true, st1), w1) ->
  exists secretBytes htlc,
    List.length secretBytes = 32%nat
    /\ StellarToBase.s_secret st1 = Some (writeSecret secretBytes)
    /\ StellarToBase.s_hashlock st1 = Some (deriveHashlock secretBytes)
    /\ StellarToBase.stellarHTLC st1 = Some htlc
    /\ validateSecret htlc (writeSecret secretBytes) = true
    /\ isValidSecret (writeSecret secretBytes) (StellarToBase.s_hashlock st1)
       = true.
Proof.
  intros E.
  destruct (StellarToBase.stellarMaker st) as [mk|] eqn:Hm.
  2:{ unfold StellarToBase.generateHashlock in E. rewrite Hm in E.
      unfold_monad. discriminate. }
  destruct (StellarToBase.stellarTaker st) as [tk|] eqn:Ht.
  2:{ unfold StellarToBase.generateHashlock in E. rewrite Hm, Ht in E.
      unfold_monad. discriminate. }
  destruct (generateHashlock_ok st w mk tk Hm Ht)
    as (st' & w' & b & htlc & E' & Hlen & Hsec & Hh & Hhtlc & Hcfg & _).
  rewrite E in E'. injection E' as <- <-.
  exists b, htlc. repeat split; trivial.
  - apply validateSecret_writeSecret. rewrite Hcfg.
    unfold deriveHashlock. now rewrite replace_0x_prefixed.
  - rewrite Hh. unfold isValidSecret, calculatedHash, writeSecret, deriveHashlock.
    change (JS.slice 2 ("0x" ++ JS.toHex b)) with (JS.toHex b).
    rewrite hexDecode_toHex. apply String.eqb_refl.
Qed.

Lemma generateHashlock_binds_witness :
  exists secretBytes htlc,
    List.length secretBytes = 32%nat
    /\ StellarToBase.s_secret generated = Some (writeSecret secretBytes)
    /\ StellarToBase.s_hashlock generated = Some (deriveHashlock secretBytes)
    /\ StellarToBase.stellarHTLC generated = Some htlc
    /\ validateSecret htlc (writeSecret secretBytes) = true
    /\ isValidSecret (writeSecret secretBytes)
         (StellarToBase.s_hashlock generated) = true.
Proof.
  apply (generateHashlock_binds connected generated
           (worldAt clockSecondLater)
           (snd (StellarToBase.generateHashlock connected
                   (worldAt clockSecondLater)))).
  vm_compute. reflexivity.
Defined.

(* ------------------------------------------------------------------ *)
(** ** Secret extraction from the network *)

Lemma secretOfMemo_sound (this : StellarHTLC) (t : HorizonTransaction)
    (s : string) :
  Sdk.secretOfMemo this t = Some s -> validateSecret this s = true.
Proof.
  unfold Sdk.secretOfMemo.
  destruct (h_memo t) as [memo|]; [|discriminate].
  destruct (negb (String.eqb memo EmptyString) && String.eqb (h_memo_type t) "text");
    [|discriminate].
  destruct (Regex.memoMatch memo) as [g|]; [|discriminate].
  destruct (validateSecret this ("0x" ++ g)) eqn:Ev; [|discriminate].
  now intros [= <-].
Qed.

Lemma secretOfOperations_sound (this : StellarHTLC)
    (ops : list HorizonOperation) (s : string) :
  Sdk.secretOfOperations this ops = Some s -> validateSecret this s = true.
Proof.
  induction ops as [|operation rest IH]; [discriminate|].
  cbn [Sdk.secretOfOperations].
  destruct (String.eqb (op_type operation) "manage_data"); cbn [andb]; trivial.
  destruct (match op_name operation with
            | Some n => JS.startsWith ("htlc_secret_" ++ contractId this) n
            | None => false
            end); cbn [andb]; trivial.
  match goal with
  | |- context [if validateSecret this ?x then _ else _] =>
      destruct (validateSecret this x) eqn:Ev; trivial
  end.
  intros [= E]. now rewrite <- E.
Qed.

(** X2.  Extraction from a transaction of the network is sound as
    well: a secret that [extractSecretFromTransactionHash] returns,
    from the memo or from a manage-data operation, is one that
    [validateSecret] accepts. *)
Theorem extractSecretFromTransactionHash_sound
    (this : StellarHTLC) (txHash s : string) (w w' : World) :
  Sdk.extractSecretFromTransactionHash this txHash w = (Ok (Some s), w') ->
  validateSecret this s = true.
Proof.
  unfold Sdk.extractSecretFromTransactionHash. unfold_monad.
  destruct (transactionCall_at w (tick w) txHash) as [t|e]; [|discriminate].
  destruct (Sdk.secretOfMemo this t) as [s1|] eqn:Em.
  - intros [= <- _]. now apply (secretOfMemo_sound this t).
  - destruct (h_operations t) as [ops|e]; [|discriminate].
    intros [= E _]. now apply (secretOfOperations_sound this ops).
Qed.

Lemma extractSecretFromTransactionHash_sound_witness :
  validateSecret htlc0 secret0 = true.
Proof.
  apply (extractSecretFromTransactionHash_sound htlc0 "00" secret0
           (worldRevealed (fun _ => early))
           (snd (Sdk.extractSecretFromTransactionHash htlc0 "00"
                   (worldRevealed (fun _ => early))))).
  vm_compute. reflexivity.
Defined.

(* ================================================================== *)
(** * Further properties of the class *)

(* ------------------------------------------------------------------ *)
(** ** Lengths of the memos *)

Lemma length_append (a b : string) :
  String.length (a ++ b) = (String.length a + String.length b)%nat.
Proof. induction a as [|c a IH]; [reflexivity|]. cbn. now rewrite IH. Qed.

Lemma take_length (n : nat) (s : string) :
  String.length (JS.take n s) = Nat.min n (String.length s).
Proof.
  revert s. induction n as [|n IH]; intros [|c s]; try reflexivity.
  cbn. now rewrite IH.
Qed.

(** A contract id has exactly 16 characters. *)
Lemma generateContractId_length (c : StellarHTLCConfig) :
  String.length (generateContractId c) = 16%nat.
Proof.
  unfold generateContractId. cbv zeta.
  now rewrite take_length, sha256hex_length.
Qed.

(** The memo each method of the mock class writes. *)
Lemma Mock_perform_memo (this : StellarHTLC) (o : Op) (w w' : World)
    (tx : StellarHTLCTransaction) :
  perform this o w = (Ok tx, w') ->
  tx_memo tx
  = match o with
    | OpFund => "HTLC_FUND_" ++ contractId this
    | OpClaim s =>
        "HTLC_CLAIM_" ++ contractId this ++ "_" ++ JS.replace "0x" "" s
    | OpRefund => "HTLC_REFUND_" ++ contractId this
    end
  /\ tx_type tx
     = match o with OpFund => fund | OpClaim _ => claim | OpRefund => refund end
  /\ tx_from tx
     = match o with
       | OpFund => takerAddress (config this)
       | _ => makerAddress (config this)
       end
  /\ tx_to tx
     = match o with
       | OpRefund => takerAddress (config this)
       | _ => makerAddress (config this)
       end
  /\ tx_amount tx = amount (config this)
  /\ tx_signature tx = None.
Proof.
  destruct o as [|s|]; cbn [perform].
  - unfold Mock.createFundingTransaction, Mock.createMockXDR. unfold_monad.
    intros [= <- _]. now repeat split.
  - unfold Mock.createClaimingTransaction, Mock.createMockXDR.
    destruct (validateSecret this s); cbn [negb]; [|discriminate].
    unfold_monad.
    destruct (1000 * timelock (config this) <? Date_now_at w (tick w));
      [discriminate|].
    intros [= <- _]. now repeat split.
  - unfold Mock.createRefundTransaction, Mock.createMockXDR. unfold_monad.
    destruct (1000 * timelock (config this) <? Date_now_at w (tick w));
      cbn [negb]; [|discriminate].
    intros [= <- _]. now repeat split.
Qed.

(** The same for the SDK class. *)
Lemma Sdk_perform_memo (kp : Keypair) (this : StellarHTLC) (o : Op)
    (w w' : World) (tx : StellarHTLCTransaction) :
  performSdk kp this o w = (Ok tx, w') ->
  tx_memo tx
  = match o with
    | OpFund => "HTLC_FUND_" ++ contractId this
    | OpClaim s =>
        "HTLC_CLAIM_" ++ contractId this ++ "_" ++ JS.replace "0x" "" s
    | OpRefund => "HTLC_REFUND_" ++ contractId this
    end
  /\ tx_type tx
     = match o with OpFund => fund | OpClaim _ => claim | OpRefund => refund end
  /\ tx_from tx
     = match o with
       | OpFund => takerAddress (config this)
       | _ => makerAddress (config this)
       end
  /\ tx_to tx
     = match o with
       | OpRefund => takerAddress (config this)
       | _ => makerAddress (config this)
       end
  /\ tx_amount tx = amount (config this)
  /\ tx_signature tx = None.
Proof.
  destruct o as [|s|]; cbn [performSdk].
  - unfold Sdk.createFundingTransaction. unfold_monad.
    destruct (loadAccount_at w (tick w) (publicKey kp)) as [acc|e];
      [|discriminate].
    match goal with
    | |- context [buildTransaction_at ?w1 ?n ?rq] =>
        destruct (buildTransaction_at w1 n rq) as [signed|e]
    end; [|discriminate].
    intros [= <- _]. now repeat split.
  - unfold Sdk.createClaimingTransaction.
    destruct (validateSecret this s); cbn [negb]; [|discriminate].
    unfold_monad.
    destruct (1000 * timelock (config this) <? Date_now_at w (tick w));
      [discriminate|].
    destruct (loadAccount_at (advance w []) (tick (advance w [])) (publicKey kp))
      as [acc|e]; [|discriminate].
    match goal with
    | |- context [buildTransaction_at ?w1 ?n ?rq] =>
        destruct (buildTransaction_at w1 n rq) as [signed|e]
    end; [|discriminate].
    intros [= <- _]. now repeat split.
  - unfold Sdk.createRefundTransaction. unfold_monad.
    destruct (1000 * timelock (config this) <? Date_now_at w (tick w));
      cbn [negb]; [|discriminate].
    destruct (loadAccount_at (advance w []) (tick (advance w [])) (publicKey kp))
      as [acc|e]; [|discriminate].
    match goal with
    | |- context [buildTransaction_at ?w1 ?n ?rq] =>
        destruct (buildTransaction_at w1 n rq) as [signed|e]
    end; [|discriminate].
    intros [= <- _]. now repeat split.
Qed.

(** X3.  The memos have fixed lengths: a funding memo has 26
    characters and a refund memo 28, whatever the record; a claim memo
    has 28 characters more than the secret written without its [0x], 92
    for a secret of 32 bytes.  This holds in the mock class and in the
    SDK class, whose memo is the text handed to [Memo.text]. *)
Theorem memo_lengths (c : StellarHTLCConfig) (o : Op) (kp : Keypair)
    (w w' : World) (tx : StellarHTLCTransaction) :
  let this := newStellarHTLC c in
  perform this o w = (Ok tx, w') \/ performSdk kp this o w = (Ok tx, w') ->
  String.length (tx_memo tx)
  = match o with
    | OpFund => 26%nat
    | OpClaim s => (28 + String.length (JS.replace "0x" "" s))%nat
    | OpRefund => 28%nat
    end
  /\ forall secretBytes,
       o = OpClaim (writeSecret secretBytes) ->
       List.length secretBytes = 32%nat ->
       String.length (tx_memo tx) = 92%nat.
Proof.
  intros this H.
  assert (Hmemo : tx_memo tx
    = match o with
      | OpFund => "HTLC_FUND_" ++ contractId this
      | OpClaim s =>
          "HTLC_CLAIM_" ++ contractId this ++ "_" ++ JS.replace "0x" "" s
      | OpRefund => "HTLC_REFUND_" ++ contractId this
      end).
  { destruct H as [H|H].
    - exact (proj1 (Mock_perform_memo this o w w' tx H)).
    - exact (proj1 (Sdk_perform_memo kp this o w w' tx H)). }
  assert (Hlen : String.length (tx_memo tx)
    = match o with
      | OpFund => 26%nat
      | OpClaim s => (28 + String.length (JS.replace "0x" "" s))%nat
      | OpRefund => 28%nat
      end).
  { rewrite Hmemo. subst this. cbn [contractId newStellarHTLC].
    destruct o as [|s|]; rewrite !length_append, ?generateContractId_length;
      reflexivity. }
  split; [exact Hlen|].
  intros b -> Hb. rewrite Hlen. unfold writeSecret.
  rewrite replace_0x_prefixed, toHex_length, Hb. reflexivity.
Qed.

Lemma memo_lengths_witness :
  exists tx,
    fst (perform htlc0 OpFund (worldAt (fun _ => early))) = Ok tx
    /\ String.length (tx_memo tx) = 26%nat.
Proof.
  destruct (perform htlc0 OpFund (worldAt (fun _ => early)))
    as [[tx|e] w'] eqn:E.
  - exists tx. split; [reflexivity|].
    exact (proj1 (memo_lengths config0 OpFund keypair0
                    (worldAt (fun _ => early)) w' tx (or_introl E))).
  - exfalso. vm_compute in E. discriminate.
Defined.

(* ------------------------------------------------------------------ *)
(** ** The two variants of the class *)

(** X4.  The mock class and the SDK class describe the same
    transaction: for the same record and the same operation, whenever
    both return a transaction (in whatever worlds), the two have the
    same type, sender, receiver, amount and memo, and neither carries a
    signature.  A funding goes from the taker to the maker, a claim from
    the maker to the maker, a refund from the maker to the taker. *)
Theorem mock_agrees_with_sdk (this : StellarHTLC) (o : Op) (kp : Keypair)
    (w1 w1' w2 w2' : World) (tx1 tx2 : StellarHTLCTransaction) :
  perform this o w1 = (Ok tx1, w1') ->
  performSdk kp this o w2 = (Ok tx2, w2') ->
  tx_type tx1 = tx_type tx2
  /\ tx_from tx1 = tx_from tx2
  /\ tx_to tx1 = tx_to tx2
  /\ tx_amount tx1 = tx_amount tx2
  /\ tx_memo tx1 = tx_memo tx2
  /\ tx_signature tx1 = tx_signature tx2
  /\ tx_from tx1
     = match o with
       | OpFund => takerAddress (config this)
       | _ => makerAddress (config this)
       end
  /\ tx_to tx1
     = match o with
       | OpRefund => takerAddress (config this)
       | _ => makerAddress (config this)
       end.
Proof.
  intros H1 H2.
  destruct (Mock_perform_memo this o w1 w1' tx1 H1)
    as (M1 & T1 & F1 & O1 & A1 & S1).
  destruct (Sdk_perform_memo kp this o w2 w2' tx2 H2)
    as (M2 & T2 & F2 & O2 & A2 & S2).
  repeat split; congruence.
Qed.

Lemma mock_agrees_with_sdk_witness :
  exists tx1 tx2,
    fst (perform htlc0 (OpClaim secret0) (worldAt (fun _ => early))) = Ok tx1
    /\ fst (performSdk keypair0 htlc0 (OpClaim secret0)
              (worldAt (fun _ => deadline))) = Ok tx2
    /\ tx_memo tx1 = tx_memo tx2.
Proof.
  destruct (perform htlc0 (OpClaim secret0) (worldAt (fun _ => early)))
    as [[tx1|e] w1'] eqn:E1; [|exfalso; vm_compute in E1; discriminate].
  destruct (performSdk keypair0 htlc0 (OpClaim secret0)
              (worldAt (fun _ => deadline)))
    as [[tx2|e] w2'] eqn:E2; [|exfalso; vm_compute in E2; discriminate].
  exists tx1, tx2. split; [reflexivity|]. split; [reflexivity|].
  exact (proj1 (proj2 (proj2 (proj2 (proj2
           (mock_agrees_with_sdk htlc0 (OpClaim secret0) keypair0
              _ w1' _ w2' tx1 tx2 E1 E2)))))).
Defined.

(* ------------------------------------------------------------------ *)
(** ** Extraction from the network, the other direction *)

Lemma memoMatch_claim_memo (c : StellarHTLCConfig) (g : string) :
  g <> EmptyString -> allb JS.isHex g = true ->
  Regex.memoMatch ("HTLC_CLAIM_" ++ generateContractId c ++ "_" ++ g) = Some g.
Proof.
  intros Hne Hhex.
  destruct (generateContractId_hex c) as (Hcid & a & t & Ecid).
  apply memoMatch_here, matchHere_claim_memo; trivial.
  - rewrite Ecid. discriminate.
  - eapply allb_imp; [exact isHex_notUnderscore|exact Hcid].
Qed.

(** X5.  Extraction from the network finds what a claim publishes.
    When the record Horizon returns for the hash has the text memo of a
    claim of this record ([HTLC_CLAIM_], the contract id, [_] and one or
    more hexadecimal digits that [validateSecret] accepts after [0x]),
    [extractSecretFromTransactionHash] returns that secret, without
    looking at the operations.  When the record has no memo and its
    first operation is the [manage_data] entry of a claim
    ([htlc_secret_] and the contract id) whose value is accepted after
    [0x], the secret is returned from the operation. *)
Theorem extractSecretFromTransactionHash_complete
    (c : StellarHTLCConfig) (g txHash : string) (t : HorizonTransaction)
    (w : World) :
  let this := newStellarHTLC c in
  g <> EmptyString -> allb JS.isHex g = true ->
  validateSecret this ("0x" ++ g) = true ->
  transactionCall_at w (tick w) txHash = Ok t ->
  (h_memo t = Some ("HTLC_CLAIM_" ++ contractId this ++ "_" ++ g)
   /\ h_memo_type t = "text")
  \/ (h_memo t = None
      /\ exists rest,
           h_operations t
           = Ok ({| op_type := "manage_data";
                    op_name := Some ("htlc_secret_" ++ contractId this);
                    op_value := Some g |} :: rest)) ->
  fst (Sdk.extractSecretFromTransactionHash this txHash w)
  = Ok (Some ("0x" ++ g)).
Proof.
  intros this Hne Hhex Hv Ht H.
  unfold Sdk.extractSecretFromTransactionHash. unfold_monad. rewrite Ht.
  destruct H as [[Hm Hty]|[Hm (rest & Hops)]].
  - unfold Sdk.secretOfMemo. rewrite Hm, Hty.
    subst this. cbn [contractId newStellarHTLC] in *.
    rewrite (memoMatch_claim_memo c g Hne Hhex), Hv. reflexivity.
  - unfold Sdk.secretOfMemo. rewrite Hm, Hops.
    cbn [Sdk.secretOfOperations op_type op_name op_value].
    rewrite Hv, String.eqb_refl.
    replace (JS.startsWith ("htlc_secret_" ++ contractId this)
               ("htlc_secret_" ++ contractId this)) with true.
    + reflexivity.
    + symmetry.
      rewrite <- (append_nil_r ("htlc_secret_" ++ contractId this)) at 2.
      apply startsWith_app.
Qed.

Lemma extractSecretFromTransactionHash_complete_witness :
  fst (Sdk.extractSecretFromTransactionHash htlc0 "00"
         (worldRevealed (fun _ => early)))
  = Ok (Some secret0).
Proof.
  refine (extractSecretFromTransactionHash_complete config0 bareSecret0 "00"
            _ (worldRevealed (fun _ => early)) _ _ _ eq_refl
            (or_introl (conj _ eq_refl))).
  - discriminate.
  - vm_compute. reflexivity.
  - vm_compute. reflexivity.
  - vm_compute. reflexivity.
Defined.

(* ------------------------------------------------------------------ *)
(** ** The check of the class and the check of the coordinator *)

Lemma eqb_0x (a b : string) :
  String.eqb ("0x" ++ a) ("0x" ++ b) = String.eqb a b.
Proof. reflexivity. Qed.

(** On texts that start with [0x] the check of the coordinator is the
    check of the class. *)
Lemma isValidSecret_prefixed (this : StellarHTLC) (g x : string) :
  hashlock (config this) = "0x" ++ x ->
  isValidSecret ("0x" ++ g) (Some (hashlock (config this)))
  = validateSecret this ("0x" ++ g).
Proof.
  intros Hh. rewrite validateSecret_prefixed, Hh.
  unfold isValidSecret, calculatedHash.
  rewrite replace_0x_prefixed, eqb_0x.
  reflexivity.
Qed.

(** X6.  The two checks of a secret against a hashlock agree on what
    the scripts write, and only there.  For a secret and a hashlock
    that both start with [0x], the re-verification of the coordinator
    ([0x] and the digest of the secret compared with the hashlock)
    answers as [validateSecret] of a record with that hashlock does.
    For a hashlock that does not start with [0x], which
    [validateSecret] takes as well, the re-verification of the
    coordinator fails whatever the secret. *)
Theorem checks_agree_on_prefixed (this : StellarHTLC) (s : string) :
  (forall g x,
      s = "0x" ++ g -> hashlock (config this) = "0x" ++ x ->
      isValidSecret s (Some (hashlock (config this)))
      = validateSecret this s)
  /\ (JS.startsWith "0x" (hashlock (config this)) = false ->
      isValidSecret s (Some (hashlock (config this))) = false).
Proof.
  split.
  - intros g x -> Hh. now apply isValidSecret_prefixed with (x := x).
  - intros Hh. unfold isValidSecret, calculatedHash.
    destruct (hashlock (config this)) as [|a [|b h]]; try reflexivity.
    + cbn [String.eqb append]. destruct (Ascii.eqb "0" a); reflexivity.
    + cbn [String.eqb append JS.startsWith andb] in Hh |- *.
      destruct (Ascii.eqb "0" a); [|reflexivity].
      destruct (Ascii.eqb "x" b); [discriminate|reflexivity].
Qed.

(* ================================================================== *)
(** * The reveal step of the Stellar-to-Base script *)

Import Sample.

(** X7.  [revealSecret] touches the ledger only for a claim that
    passes the guards.  Whenever the step returns, or leaves any
    interaction in the trace, the state holds a Stellar record and a
    secret that [validateSecret] accepts, and the clock was at or before
    the deadline at both readings: the one of the script and the one of
    [createClaimingTransaction] after it. *)
Theorem revealSecret_guarded (st : StellarToBase.SwapState) (w : World) :
  is_ok (fst (StellarToBaseReveal.revealSecret st w)) = true
  \/ trace (snd (StellarToBaseReveal.revealSecret st w)) <> trace w ->
  exists htlc secret,
    StellarToBase.stellarHTLC st = Some htlc
    /\ StellarToBase.s_secret st = Some secret
    /\ validateSecret htlc secret = true
    /\ reading w <= 1000 * timelock (config htlc)
    /\ Date_now_at w (S (tick w)) <= 1000 * timelock (config htlc).
Proof.
  unfold StellarToBaseReveal.revealSecret.
  destruct (StellarToBase.stellarHTLC st) as [htlc|];
    [|unfold_monad; cbn; intros [H|H]; [discriminate|now elim H]].
  destruct (StellarToBase.stellarMaker st) as [mk|];
    [|unfold_monad; cbn; intros [H|H]; [discriminate|now elim H]].
  destruct (StellarToBase.s_secret st) as [secret|];
    [|unfold_monad; cbn; intros [H|H]; [discriminate|now elim H]].
  unfold_monad.
  destruct (validateSecret htlc secret) eqn:Hv; cbn [negb];
    [|cbn; intros [H|H]; [discriminate|now elim H]].
  destruct (Z.ltb_spec (1000 * timelock (config htlc)) (Date_now_at w (tick w)))
    as [Hlt|Hle]; [cbn; intros [H|H]; [discriminate|now elim H]|].
  destruct (Sdk_claim_cases htlc secret mk (advance w []))
    as [[Hf _]|[(_ & _ & E)|(_ & Hle2 & _)]].
  - congruence.
  - rewrite E. cbn. intros [H|H]; [discriminate|now elim H].
  - intros _. exists htlc, secret. repeat split; trivial.
Qed.

Lemma revealSecret_guarded_witness :
  exists htlc secret,
    StellarToBase.stellarHTLC funded = Some htlc
    /\ StellarToBase.s_secret funded = Some secret
    /\ validateSecret htlc secret = true
    /\ reading (worldAt (fun _ => 1000)) <= 1000 * timelock (config htlc)
    /\ Date_now_at (worldAt (fun _ => 1000)) 1 <= 1000 * timelock (config htlc).
Proof.
  apply (revealSecret_guarded funded (worldAt (fun _ => 1000))).
  left. vm_compute. reflexivity.
Defined.

Lemma Ok_pair_inv {A B : Type} (a a' : A) (b b' : B) (w w' : World) :
  (Ok (a, b), w) = (Ok (a', b'), w') -> a = a' /\ b = b' /\ w = w'.
Proof. intros [= -> -> ->]. now repeat split. Qed.

(* ------------------------------------------------------------------ *)
(** ** The reveal under the limit of [Memo.text] *)

Lemma utf8_length (s : string) :
  (String.length s <= List.length (JS.utf8 s))%nat.
Proof.
  induction s as [|a s IH]; [apply Nat.le_refl|].
  cbn [JS.utf8 String.length]. cbv zeta.
  destruct (N_of_ascii a <? 128)%N; cbn [List.length]; lia.
Qed.

(** The claim memo of a record made by the constructor is over the
    limit as soon as the secret, without its [0x], is not empty. *)
Lemma claim_memo_over_limit (c : StellarHTLCConfig) (secret : string) :
  JS.replace "0x" "" secret <> EmptyString ->
  (28 < List.length
          (JS.utf8 ("HTLC_CLAIM_" ++ contractId (newStellarHTLC c) ++ "_"
                      ++ JS.replace "0x" "" secret)))%nat.
Proof.
  intros Hne. eapply Nat.lt_le_trans; [|apply utf8_length].
  cbn [contractId newStellarHTLC].
  rewrite !length_append, generateContractId_length.
  destruct (JS.replace "0x" "" secret) as [|a g]; [congruence|].
  cbn [String.length]. lia.
Qed.

Lemma memoLimit_advance (w : World) (evs : list Event) :
  memoLimit w -> memoLimit (advance w evs).
Proof. intros H n rq. exact (H n rq). Qed.

Lemma memoLimit_worldStrict (clock : nat -> Z) : memoLimit (worldStrict clock).
Proof.
  intros n rq H. cbn [worldStrict buildTransaction_at].
  apply Nat.ltb_lt in H. rewrite H. eexists. reflexivity.
Qed.

(** [createClaimingTransaction] of the SDK class under the limit: it
    throws, nothing is submitted, and once its two guards pass the error
    is the one of its [catch]. *)
Lemma Sdk_claim_memo_limit (c : StellarHTLCConfig) (secret : string)
    (kp : Keypair) (w : World) :
  memoLimit w ->
  JS.replace "0x" "" secret <> EmptyString ->
  exists message w',
    Sdk.createClaimingTransaction (newStellarHTLC c) secret kp w
    = (Throw message, w')
    /\ submitted (trace w') = submitted (trace w)
    /\ (validateSecret (newStellarHTLC c) secret = true ->
        reading w <= 1000 * timelock c ->
        exists e, message = "Failed to create claiming transaction: " ++ e).
Proof.
  intros Hlim Hne. pose proof (claim_memo_over_limit c secret Hne) as Hlen.
  unfold Sdk.createClaimingTransaction.
  destruct (validateSecret (newStellarHTLC c) secret); cbn [negb].
  2:{ unfold throw. do 2 eexists. split; [reflexivity|].
      split; [reflexivity|discriminate]. }
  unfold_monad. cbn [config newStellarHTLC].
  destruct (Z.ltb_spec (1000 * timelock c) (Date_now_at w (tick w)))
    as [Hlt|Hle].
  { do 2 eexists. split; [reflexivity|]. split; [reflexivity|].
    intros _ H. unfold reading in H. lia. }
  match goal with
  | |- context [loadAccount_at ?w1 ?n ?pk] =>
      destruct (loadAccount_at w1 n pk) as [account|e]
  end.
  - match goal with
    | |- context [buildTransaction_at ?w1 ?n ?rq] =>
        destruct (Hlim n rq) as (e & He); [exact Hlen|];
        change (buildTransaction_at w1 n rq)
          with (buildTransaction_at w n rq);
        rewrite He
    end.
    do 2 eexists. split; [reflexivity|]. split; [reflexivity|].
    intros _ _. now exists e.
  - do 2 eexists. split; [reflexivity|]. split; [reflexivity|].
    intros _ _. now exists e.
Qed.

(** The same for [revealSecret], which adds its own two guards. *)
Lemma revealSecret_under_limit (st : StellarToBase.SwapState) (w : World)
    (c : StellarHTLCConfig) (secret : string) :
  memoLimit w ->
  StellarToBase.stellarHTLC st = Some (newStellarHTLC c) ->
  StellarToBase.s_secret st = Some secret ->
  JS.replace "0x" "" secret <> EmptyString ->
  exists message w',
    StellarToBaseReveal.revealSecret st w = (Throw message, w')
    /\ submitted (trace w') = submitted (trace w)
    /\ (forall mk,
          StellarToBase.stellarMaker st = Some mk ->
          validateSecret (newStellarHTLC c) secret = true ->
          reading w <= 1000 * timelock c ->
          Date_now_at w (S (tick w)) <= 1000 * timelock c ->
          exists e,
            message = "Failed to create claiming transaction: " ++ e).
Proof.
  intros Hlim Hh Hs Hne. unfold StellarToBaseReveal.revealSecret.
  rewrite Hh, Hs.
  destruct (StellarToBase.stellarMaker st) as [mk|].
  2:{ unfold_monad. do 2 eexists. split; [reflexivity|].
      split; [reflexivity|discriminate]. }
  unfold_monad. cbn [config newStellarHTLC].
  destruct (validateSecret (newStellarHTLC c) secret) eqn:Hv; cbn [negb].
  2:{ do 2 eexists. split; [reflexivity|].
      split; [reflexivity|discriminate]. }
  destruct (Z.ltb_spec (1000 * timelock c) (Date_now_at w (tick w)))
    as [Hlt|Hle].
  { do 2 eexists. split; [reflexivity|]. split; [reflexivity|].
    intros mk' _ _ H. unfold reading in H. lia. }
  destruct (Sdk_claim_memo_limit c secret mk (advance w [])
              (memoLimit_advance w [] Hlim) Hne)
    as (message & w1 & E & Hsub & Hmsg).
  rewrite E. do 2 eexists. split; [reflexivity|].
  split; [exact Hsub|].
  intros mk' _ _ _ H2. exact (Hmsg Hv H2).
Qed.

(** X8.  [revealSecret] under the limit of [Memo.text].  The claim memo
    of the SDK class has 28 characters besides the secret, and
    [Memo.text] takes at most 28 bytes.  So with a transaction builder
    that keeps this limit, a Stellar record made by the constructor and
    a secret that is not empty once [0x] is removed, [revealSecret]
    never returns, and nothing is submitted to a ledger.  When the
    guards of the script and of the class pass, the step fails with the
    error of [createClaimingTransaction]: its prefix and the message of
    the builder or of the account load. *)
Theorem revealSecret_memo_limit (st : StellarToBase.SwapState) (w : World)
    (c : StellarHTLCConfig) (secret : string) :
  memoLimit w ->
  StellarToBase.stellarHTLC st = Some (newStellarHTLC c) ->
  StellarToBase.s_secret st = Some secret ->
  JS.replace "0x" "" secret <> EmptyString ->
  is_ok (fst (StellarToBaseReveal.revealSecret st w)) = false
  /\ submitted (trace (snd (StellarToBaseReveal.revealSecret st w)))
     = submitted (trace w)
  /\ (forall mk,
        StellarToBase.stellarMaker st = Some mk ->
        validateSecret (newStellarHTLC c) secret = true ->
        reading w <= 1000 * timelock c ->
        Date_now_at w (S (tick w)) <= 1000 * timelock c ->
        exists e,
          fst (StellarToBaseReveal.revealSecret st w)
          = Throw ("Failed to create claiming transaction: " ++ e)).
Proof.
  intros Hlim Hh Hs Hne.
  destruct (revealSecret_under_limit st w c secret Hlim Hh Hs Hne)
    as (message & w1 & E & Hsub & Hmsg).
  rewrite E. cbn [fst snd is_ok]. split; [reflexivity|].
  split; [exact Hsub|].
  intros mk Hm Hv H1 H2.
  destruct (Hmsg mk Hm Hv H1 H2) as (e & ->). now exists e.
Qed.

Lemma revealSecret_memo_limit_witness :
  is_ok (fst (StellarToBaseReveal.revealSecret funded
                (worldStrict (fun _ => 1000))))
  = false.
Proof.
  refine (proj1 (revealSecret_memo_limit funded (worldStrict (fun _ => 1000))
                   fundedConfig fundedSecret _ _ _ _)).
  - apply memoLimit_worldStrict.
  - vm_compute. reflexivity.
  - vm_compute. reflexivity.
  - vm_compute. discriminate.
Defined.

(* ------------------------------------------------------------------ *)
(** ** From the session to the dependent claim *)

Lemma lockETHIntoHTLC_frame (st st' : StellarToBase.SwapState) (b : bool)
    (w w' : World) :
  StellarToBase.lockETHIntoHTLC st w = (Ok (b, st'), w') ->
  StellarToBase.s_secret st' = StellarToBase.s_secret st
  /\ StellarToBase.s_hashlock st' = StellarToBase.s_hashlock st
  /\ StellarToBase.stellarHTLC st' = StellarToBase.stellarHTLC st
  /\ StellarToBase.stellarMaker st' = StellarToBase.stellarMaker st
  /\ exists escrow,
       StellarToBase.baseEscrow st' = Some escrow
       /\ im_hashlock (be_immutables escrow) = StellarToBase.s_hashlock st
       /\ im_amount (be_immutables escrow) = ethAmount
       /\ safetyDeposit (be_immutables escrow) = safetyDepositAmount.
Proof.
  unfold StellarToBase.lockETHIntoHTLC.
  destruct (StellarToBase.baseSigner st) as [signer|];
    [|unfold_monad; discriminate].
  unfold required, Date_now, randomBytes, createDstEscrow, addressOfEscrowDst,
    bind, ret, throw, try_catch.
  cbv beta.
  match goal with
  | |- context [createDstEscrow_at ?w1 ?n ?im ?v] =>
      destruct (createDstEscrow_at w1 n im v) as [receipt|e]
  end; [|discriminate].
  destruct (rc_DstEscrowCreated receipt) as [a|].
  - intros E. apply Ok_pair_inv in E as (_ & <- & _).
    repeat split. eexists. split; [reflexivity|].
    repeat split.
  - match goal with
    | |- context [addressOfEscrowDst_at ?w1 ?n ?im] =>
        destruct (addressOfEscrowDst_at w1 n im) as [a|e]
    end; [|discriminate].
    intros E. apply Ok_pair_inv in E as (_ & <- & _).
    repeat split. eexists. split; [reflexivity|].
    repeat split.
Qed.

(** The record and the secret [generateHashlock] makes: a record of
    the constructor that accepts the secret, which is not empty. *)
Lemma generateHashlock_record (st st1 : StellarToBase.SwapState) (b : bool)
    (w w' : World) :
  StellarToBase.generateHashlock st w = (Ok (b, st1), w') ->
  exists c secretBytes,
    StellarToBase.stellarHTLC st1 = Some (newStellarHTLC c)
    /\ StellarToBase.s_secret st1 = Some (writeSecret secretBytes)
    /\ List.length secretBytes = 32%nat
    /\ validateSecret (newStellarHTLC c) (writeSecret secretBytes) = true
    /\ timelock c = Date_now_at w (2 + tick w)%nat / 1000 + 86400
    /\ StellarToBase.stellarMaker st1 = StellarToBase.stellarMaker st
    /\ StellarToBase.secretReveal st1 = StellarToBase.secretReveal st.
Proof.
  unfold StellarToBase.generateHashlock.
  destruct (StellarToBase.stellarMaker st) as [mk|];
    [|unfold_monad; discriminate].
  destruct (StellarToBase.stellarTaker st) as [tk|];
    [|unfold_monad; discriminate].
  unfold required, Date_now, randomBytes, bind, ret, throw. cbv beta.
  intros E. apply Ok_pair_inv in E as (_ & <- & _).
  cbn [StellarToBase.stellarHTLC StellarToBase.s_secret
       StellarToBase.stellarMaker StellarToBase.secretReveal].
  do 2 eexists. split; [reflexivity|]. split; [reflexivity|].
  split; [apply firstn_pad_length|].
  split.
  - apply validateSecret_writeSecret.
    cbn [config newStellarHTLC hashlock]. now rewrite replace_0x_prefixed.
  - cbn [timelock tick advance Date_now_at]. repeat split.
Qed.

Lemma lockETHIntoHTLC_reveal (st st' : StellarToBase.SwapState) (b : bool)
    (w w' : World) :
  StellarToBase.lockETHIntoHTLC st w = (Ok (b, st'), w') ->
  StellarToBase.secretReveal st' = StellarToBase.secretReveal st.
Proof.
  unfold StellarToBase.lockETHIntoHTLC.
  destruct (StellarToBase.baseSigner st) as [signer|];
    [|unfold_monad; discriminate].
  unfold required, Date_now, randomBytes, createDstEscrow, addressOfEscrowDst,
    bind, ret, throw, try_catch.
  cbv beta.
  match goal with
  | |- context [createDstEscrow_at ?w1 ?n ?im ?v] =>
      destruct (createDstEscrow_at w1 n im v) as [receipt|e]
  end; [|discriminate].
  destruct (rc_DstEscrowCreated receipt) as [a|].
  - intros E. apply Ok_pair_inv in E as (_ & <- & _). reflexivity.
  - match goal with
    | |- context [addressOfEscrowDst_at ?w1 ?n ?im] =>
        destruct (addressOfEscrowDst_at w1 n im) as [a|e]
    end; [|discriminate].
    intros E. apply Ok_pair_inv in E as (_ & <- & _). reflexivity.
Qed.

(** X9.  A session stops at the reveal under the limit of [Memo.text].
    Take the state [generateHashlock] returns and fund the Base escrow
    from it with [lockETHIntoHTLC]: the escrow is then locked on Base,
    and with a transaction builder that keeps the limit [revealSecret]
    never returns from that state, in any world and at any time, and
    submits nothing.  Before the deadline of the record its error is
    the one of [createClaimingTransaction].  No reveal is recorded, so
    [claimAssets] from that state fails with a [TypeError] before it
    verifies anything.  The worlds of the steps are arbitrary: other
    steps may run between them. *)
Theorem swap_stops_at_reveal
    (st0 st1 st2 : StellarToBase.SwapState) (b1 b2 : bool)
    (w0 w0' w1 w1' w2 w3 : World) :
  StellarToBase.generateHashlock st0 w0 = (Ok (b1, st1), w0') ->
  StellarToBase.lockETHIntoHTLC st1 w1 = (Ok (b2, st2), w1') ->
  memoLimit w2 ->
  let deadline := Date_now_at w0 (2 + tick w0) / 1000 + 86400 in
  (exists escrow,
     StellarToBase.baseEscrow st2 = Some escrow
     /\ im_hashlock (be_immutables escrow) = StellarToBase.s_hashlock st2)
  /\ is_ok (fst (StellarToBaseReveal.revealSecret st2 w2)) = false
  /\ submitted (trace (snd (StellarToBaseReveal.revealSecret st2 w2)))
     = submitted (trace w2)
  /\ (reading w2 <= 1000 * deadline ->
      Date_now_at w2 (S (tick w2)) <= 1000 * deadline ->
      exists e,
        fst (StellarToBaseReveal.revealSecret st2 w2)
        = Throw ("Failed to create claiming transaction: " ++ e))
  /\ (StellarToBase.secretReveal st0 = None ->
      StellarToBase.claimAssets st2 w3 = (Throw TypeError, w3)).
Proof.
  intros E1 E2 Hlim deadline. subst deadline.
  destruct (generateHashlock_record st0 st1 b1 w0 w0' E1)
    as (c & b & Hhtlc & Hsec & Hlen & Hv & Htl & Hmk & Hrev).
  destruct (lockETHIntoHTLC_frame st1 st2 b2 w1 w1' E2)
    as (Hsec2 & Hh2 & Hhtlc2 & Hmk2 & escrow & Hesc & Him & _).
  pose proof (lockETHIntoHTLC_reveal st1 st2 b2 w1 w1' E2) as Hrev2.
  rewrite Hsec in Hsec2. rewrite Hhtlc in Hhtlc2. rewrite Hmk in Hmk2.
  assert (Hne : JS.replace "0x" "" (writeSecret b) <> EmptyString).
  { unfold writeSecret. rewrite replace_0x_prefixed.
    intros H. apply (f_equal String.length) in H.
    rewrite toHex_length, Hlen in H. discriminate. }
  destruct (revealSecret_under_limit st2 w2 c (writeSecret b)
              Hlim Hhtlc2 Hsec2 Hne) as (message & w2' & E & Hsub & Hmsg).
  rewrite E. cbn [fst snd is_ok].
  split; [exists escrow; split; [exact Hesc|now rewrite Him, Hh2]|].
  split; [reflexivity|]. split; [exact Hsub|]. split.
  - intros H1 H2. rewrite <- Htl in H1, H2.
    destruct (StellarToBase.stellarMaker st2) as [mk|] eqn:Em.
    + destruct (Hmsg mk eq_refl Hv H1 H2) as (e & ->). now exists e.
    + exfalso. unfold StellarToBase.generateHashlock in E1.
      rewrite <- Hmk2 in E1. unfold_monad. discriminate.
  - intros Hnone. unfold StellarToBase.claimAssets,
      StellarToBase.extractedSecretOf.
    rewrite Hrev2, Hrev, Hnone. reflexivity.
Qed.

Lemma swap_stops_at_reveal_witness :
  is_ok (fst (StellarToBaseReveal.revealSecret funded
                (worldStrict (fun _ => 2000))))
  = false
  /\ StellarToBase.claimAssets funded (worldAt (fun _ => 3000))
     = (Throw TypeError, worldAt (fun _ => 3000)).
Proof.
  destruct (swap_stops_at_reveal connected generated funded true true
              (worldAt clockSecondLater)
              (snd (StellarToBase.generateHashlock connected
                      (worldAt clockSecondLater)))
              (worldAt clockSecondLater)
              (snd (StellarToBase.lockETHIntoHTLC generated
                      (worldAt clockSecondLater)))
              (worldStrict (fun _ => 2000))
              (worldAt (fun _ => 3000)))
    as (_ & Hno & _ & _ & Hclaim).
  - vm_compute. reflexivity.
  - vm_compute. reflexivity.
  - apply memoLimit_worldStrict.
  - split; [exact Hno|]. apply Hclaim. vm_compute. reflexivity.
Defined.

(* ================================================================== *)
(** * The reveal step of the Base-to-Stellar script *)

Lemma take_toHex (n : nat) (l : list byte) :
  JS.take (2 * n) (JS.toHex l) = JS.toHex (firstn n l).
Proof.
  revert l. induction n as [|n IH]; intros [|b l]; try reflexivity.
  replace (2 * S n)%nat with (S (S (2 * n))) by lia.
  cbn [JS.toHex JS.take firstn]. now rewrite IH.
Qed.

(** The memo of the reveal holds the first ten bytes of the secret. *)
Lemma claimMemo_writeSecret (secretBytes : list byte) :
  BaseToStellarReveal.claimMemo (writeSecret secretBytes)
  = "CLAIM_" ++ JS.toHex (firstn 10 secretBytes).
Proof.
  unfold BaseToStellarReveal.claimMemo, sliceBetween, writeSecret.
  change (JS.slice 2 ("0x" ++ JS.toHex secretBytes)) with (JS.toHex secretBytes).
  change (22 - 2)%nat with (2 * 10)%nat. now rewrite take_toHex.
Qed.

(** X10.  The reveal of the Base-to-Stellar script publishes ten bytes
    of the secret, not the secret.  For two secrets that share their
    first ten bytes, [stellarMakerRevealSecret] makes the same
    interactions with the ledger (the same memo in the same
    transaction), leaves the same world and has the same outcome apart
    from the copy of the secret it keeps in its own state: nothing that
    leaves the script depends on the other bytes. *)
Theorem reveal_memo_truncates
    (keys : BaseToStellarReveal.StellarKeys) (st : BaseToStellar.SwapState)
    (b1 b2 : list byte) (w : World) :
  firstn 10 b1 = firstn 10 b2 ->
  let run b :=
    BaseToStellarReveal.stellarMakerRevealSecret keys
      (withSecret st (writeSecret b)) w in
  snd (run b1) = snd (run b2)
  /\ published (fst (run b1)) = published (fst (run b2))
  /\ BaseToStellarReveal.claimMemo (writeSecret b1)
     = "CLAIM_" ++ JS.toHex (firstn 10 b1).
Proof.
  intros Hb run. subst run. cbv beta.
  assert (Hm : BaseToStellarReveal.claimMemo (writeSecret b1)
               = BaseToStellarReveal.claimMemo (writeSecret b2))
    by (now rewrite !claimMemo_writeSecret, Hb).
  split; [|split; [|apply claimMemo_writeSecret]];
    unfold BaseToStellarReveal.stellarMakerRevealSecret;
    cbn [withSecret BaseToStellar.s_secret];
    destruct (BaseToStellarReveal.stellarMaker keys) as [mk|];
    unfold_monad; trivial;
    destruct (loadAccount_at w (tick w) (publicKey mk)) as [acc|e]; trivial;
    rewrite Hm;
    match goal with
    | |- context [buildTransaction_at ?w1 ?n ?rq] =>
        destruct (buildTransaction_at w1 n rq) as [signed|e]
    end; trivial;
    match goal with
    | |- context [submitTransaction_at ?w1 ?n ?x] =>
        destruct (submitTransaction_at w1 n x) as [hash|e]
    end; trivial.
Qed.

Lemma reveal_memo_truncates_witness :
  published
    (fst (BaseToStellarReveal.stellarMakerRevealSecret keys0
            (withSecret mismatched' (writeSecret bytesA))
            (worldAt (fun _ => early))))
  = published
      (fst (BaseToStellarReveal.stellarMakerRevealSecret keys0
              (withSecret mismatched' (writeSecret bytesB))
              (worldAt (fun _ => early)))).
Proof.
  exact (proj1 (proj2 (reveal_memo_truncates keys0 mismatched' bytesA bytesB
                         (worldAt (fun _ => early)) eq_refl))).
Defined.

Lemma isHex_noH (c : ascii) : JS.isHex c = true -> noH c = true.
Proof.
  unfold noH. destruct (Ascii.eqb_spec c "H") as [->|]; [discriminate|reflexivity].
Qed.

Lemma noH_app_H (pre post : string) :
  allb noH (pre ++ String "H" post) = false.
Proof.
  rewrite allb_app. cbn [allb]. rewrite andb_false_r. reflexivity.
Qed.

(** X11.  The memo of that reveal is not one the class can read.  For
    every secret the script writes, the memo has at most 26 characters,
    the pattern of [extractSecretFromTransaction] does not match it
    (it has no [HTLC_CLAIM_]), and the memo part of
    [extractSecretFromTransactionHash] finds no secret in a Horizon
    record that carries it. *)
Theorem reveal_memo_not_extractable (secretBytes : list byte)
    (this : StellarHTLC) (t : HorizonTransaction) :
  let memo := BaseToStellarReveal.claimMemo (writeSecret secretBytes) in
  (String.length memo <= 26)%nat
  /\ Regex.memoMatch memo = None
  /\ (h_memo t = Some memo -> Sdk.secretOfMemo this t = None).
Proof.
  intros memo.
  assert (Hnone : Regex.memoMatch memo = None).
  { destruct (Regex.memoMatch memo) as [g|] eqn:E; trivial. exfalso.
    destruct (memoMatch_sound _ _ E) as (_ & _ & pre & mid & post & Hs).
    assert (Hall : allb noH memo = true).
    { subst memo. rewrite claimMemo_writeSecret, allb_app.
      apply andb_true_iff. split; [reflexivity|].
      eapply allb_imp; [exact isHex_noH|apply toHex_allHex]. }
    rewrite Hs in Hall.
    change ("HTLC_CLAIM_" ++ mid ++ "_" ++ g ++ post)
      with (String "H" ("TLC_CLAIM_" ++ mid ++ "_" ++ g ++ post)) in Hall.
    rewrite noH_app_H in Hall. discriminate. }
  split; [|split; trivial].
  - subst memo. rewrite claimMemo_writeSecret, length_append, toHex_length.
    rewrite length_firstn. cbn [String.length]. lia.
  - intros Hm. unfold Sdk.secretOfMemo. rewrite Hm, Hnone.
    now destruct (negb _ && _).
Qed.

(* ================================================================== *)
(** * The order scripts *)

Lemma validDate_claimed (order : Orders.Order) (h : string) :
  Orders.o_timestamp (Orders.claimed order h) = Orders.o_timestamp order.
Proof. reflexivity. Qed.

(** A string without a dot does not contain [.ts]. *)
Lemma includes_ts_occurs (s : string) :
  occurs "." s = false -> includes ".ts" s = false.
Proof.
  induction s as [|a s IH]; [reflexivity|].
  cbn [occurs includes JS.startsWith].
  destruct (Ascii.eqb "." a); cbn [orb andb]; [discriminate|exact IH].
Qed.

Lemma occurs_string_of_uint (d : Decimal.uint) :
  occurs "." (NilEmpty.string_of_uint d) = false.
Proof. induction d; cbn [NilEmpty.string_of_uint occurs]; trivial. Qed.

(** The text of an integer has no dot. *)
Lemma occurs_numberToString (n : Z) :
  occurs "." (JS.numberToString n) = false.
Proof.
  unfold JS.numberToString, NilEmpty.string_of_int.
  destruct (Z.to_int n); cbn [occurs Ascii.eqb Bool.eqb orb];
    apply occurs_string_of_uint.
Qed.

(** The ids the creation script gives pass the first check of the claim
    script. *)
Lemma created_id_accepted (n : Z) :
  String.eqb ("stellar_order_" ++ JS.numberToString n) EmptyString
  || includes ".ts" ("stellar_order_" ++ JS.numberToString n) = false.
Proof.
  apply Bool.orb_false_intro; [reflexivity|].
  apply includes_ts_occurs. cbn [append occurs Ascii.eqb Bool.eqb orb].
  apply occurs_numberToString.
Qed.

(** A run of the claim script that returns was given an id that is not
    empty and does not contain [.ts]. *)
Lemma makerClaim_id (ordersDir orderId : string) (disk disk' : Orders.Disk)
    (w w' : World) (r : Orders.ClaimResult) :
  Orders.makerClaim ordersDir orderId disk w = (Ok (r, disk'), w') ->
  String.eqb orderId EmptyString || includes ".ts" orderId = false.
Proof.
  unfold Orders.makerClaim.
  destruct (String.eqb orderId EmptyString || includes ".ts" orderId);
    [discriminate|reflexivity].
Qed.

(** What a run of the claim script that returns has gone through, after
    the check of the id. *)
Lemma makerClaim_inv (ordersDir orderId : string) (disk disk' : Orders.Disk)
    (w w' : World) (r : Orders.ClaimResult) :
  Orders.makerClaim ordersDir orderId disk w = (Ok (r, disk'), w') ->
  exists order taker info escrow tx,
    Orders.orderFiles disk (orderPathOf ordersDir orderId) = Some order
    /\ Orders.validDate (Orders.o_timestamp order) = true
    /\ Orders.o_status order = Orders.FUNDED
    /\ Orders.o_taker order = Some taker
    /\ Orders.o_stellarHTLC order = Some info
    /\ Orders.o_evmEscrow order = Some escrow
    /\ calculatedHash (Orders.o_secret order) = Orders.o_hashlock order
    /\ validateSecret (Orders.htlcOfOrder order taker info)
         (Orders.o_secret order) = true
    /\ Date_now_at w (1 + tick w) <= 1000 * Orders.sh_claimBefore info
    /\ Date_now_at w (2 + tick w) <= 1000 * Orders.sh_claimBefore info
    /\ Mock.createClaimingTransaction (Orders.htlcOfOrder order taker info)
         (Orders.o_secret order) (advance (advance w []) []) = (Ok tx, w')
    /\ Orders.cr_order r = Orders.claimed order (tx_hash tx)
    /\ Orders.cr_claimTx r = tx_hash tx
    /\ Orders.cr_revealedSecret r = Orders.o_secret order
    /\ Orders.cr_success r = true
    /\ disk'
       = Orders.writeOrder disk (orderPathOf ordersDir orderId)
           (Orders.claimed order (tx_hash tx)).
Proof.
  unfold Orders.makerClaim, orderPathOf. cbv zeta.
  destruct (String.eqb orderId EmptyString || includes ".ts" orderId);
    [discriminate|].
  destruct (Orders.orderFiles disk
              (Orders.pathJoin ordersDir (orderId ++ ".json")))
    as [order|]; [|discriminate].
  destruct (Orders.validDate (Orders.o_timestamp order)) eqn:Hd;
    cbn [negb]; [|discriminate].
  destruct (Orders.o_status order) eqn:Hst; cbn [Orders.OrderStatus_eqb negb];
    try discriminate.
  destruct (Orders.o_taker order) as [taker|] eqn:Ht; [|discriminate].
  destruct (Orders.o_stellarHTLC order) as [info|] eqn:Hi; [|discriminate].
  destruct (Orders.o_evmEscrow order) as [escrow|] eqn:He; [|discriminate].
  destruct (String.eqb_spec
              ("0x" ++ SHA256.sha256hex
                         (JS.hexDecode (JS.slice 2 (Orders.o_secret order))))
              (Orders.o_hashlock order)) as [Hh|Hh];
    cbn [negb]; [|discriminate].
  unfold_monad.
  cbn [tick advance Date_now_at].
  destruct (Z.ltb_spec
              (1000 * timelock (config (Orders.htlcOfOrder order taker info)))
              (Date_now_at w (S (tick w)))) as [Hlt|Hle]; [discriminate|].
  destruct (validateSecret (Orders.htlcOfOrder order taker info)
              (Orders.o_secret order)) eqn:Hv; cbn [negb]; [|discriminate].
  destruct (Mock_claim_cases (Orders.htlcOfOrder order taker info)
              (Orders.o_secret order) (advance (advance w []) []))
    as [[Hf _]|[(_ & _ & E)|(_ & Hle2 & tx & w2 & E & _)]].
  - congruence.
  - rewrite E. discriminate.
  - rewrite E. intros [= <- <- <-].
    exists order, taker, info, escrow, tx. repeat split; trivial.
Qed.

(** X12.  The claim script claims an order once.  When a run of the
    script returns, the file of the order holds the order with status
    [COMPLETED] and the hash of the claim, no other file is changed, and
    every later run of the script for the same order, at any time,
    fails with the status error before anything else is read. *)
Theorem makerClaim_once (ordersDir orderId : string)
    (disk disk' : Orders.Disk) (w w' : World) (r : Orders.ClaimResult) :
  Orders.makerClaim ordersDir orderId disk w = (Ok (r, disk'), w') ->
  Orders.orderFiles disk' (orderPathOf ordersDir orderId)
  = Some (Orders.cr_order r)
  /\ Orders.o_status (Orders.cr_order r) = Orders.COMPLETED
  /\ (exists t,
        Orders.o_transactions (Orders.cr_order r) = Some t
        /\ Orders.stellarHTLCClaim t = Some (Orders.cr_claimTx r))
  /\ (forall p,
        p <> orderPathOf ordersDir orderId ->
        Orders.orderFiles disk' p = Orders.orderFiles disk p)
  /\ (forall w2,
        Orders.makerClaim ordersDir orderId disk' w2
        = (Throw
             "❌ Order status is COMPLETED, expected FUNDED (Stellar HTLC must be funded first)",
           w2)).
Proof.
  intros E. pose proof (makerClaim_id _ _ _ _ _ _ _ E) as Hid.
  destruct (makerClaim_inv _ _ _ _ _ _ _ E)
    as (order & taker & info & escrow & tx & Hf & Hd & _ & _ & _ & _ & _ & _
        & _ & _ & _ & Ho & Hc & _ & _ & ->).
  rewrite Ho, Hc. repeat split.
  - cbn [Orders.writeOrder Orders.orderFiles]. now rewrite String.eqb_refl.
  - eexists. split; reflexivity.
  - intros p Hp. cbn [Orders.writeOrder Orders.orderFiles].
    destruct (String.eqb_spec p (orderPathOf ordersDir orderId)); congruence.
  - intros w2. unfold Orders.makerClaim. rewrite Hid. cbv zeta.
    fold (orderPathOf ordersDir orderId).
    cbn [Orders.writeOrder Orders.orderFiles]. rewrite String.eqb_refl.
    rewrite validDate_claimed, Hd. reflexivity.
Qed.

Lemma makerClaim_once_witness :
  exists r disk',
    fst (Orders.makerClaim "orders" (Orders.o_orderId order0) diskFunded
           (worldAt (fun _ => 1000))) = Ok (r, disk')
    /\ fst (Orders.makerClaim "orders" (Orders.o_orderId order0) disk'
              (worldAt (fun _ => 5000)))
       = Throw
           "❌ Order status is COMPLETED, expected FUNDED (Stellar HTLC must be funded first)".
Proof.
  destruct (Orders.makerClaim "orders" (Orders.o_orderId order0) diskFunded
              (worldAt (fun _ => 1000))) as [[[r disk']|e] w'] eqn:E;
    [|exfalso; vm_compute in E; discriminate].
  exists r, disk'. split; [reflexivity|].
  destruct (makerClaim_once "orders" (Orders.o_orderId order0) diskFunded
              disk' (worldAt (fun _ => 1000)) w' r E)
    as (_ & _ & _ & _ & Hagain).
  now rewrite Hagain.
Defined.

(** The other direction: an order that meets the requirements, under an
    id that passes the first check, is claimed. *)
Lemma makerClaim_ok (ordersDir orderId : string) (disk : Orders.Disk)
    (w : World) (order : Orders.Order) (taker : Orders.Taker)
    (info : Orders.StellarHTLCInfo) (escrow : Orders.EvmEscrow) :
  String.eqb orderId EmptyString || includes ".ts" orderId = false ->
  Orders.orderFiles disk (orderPathOf ordersDir orderId) = Some order ->
  Orders.validDate (Orders.o_timestamp order) = true ->
  Orders.o_status order = Orders.FUNDED ->
  Orders.o_taker order = Some taker ->
  Orders.o_stellarHTLC order = Some info ->
  Orders.o_evmEscrow order = Some escrow ->
  calculatedHash (Orders.o_secret order) = Orders.o_hashlock order ->
  validateSecret (Orders.htlcOfOrder order taker info)
    (Orders.o_secret order) = true ->
  Date_now_at w (1 + tick w) <= 1000 * Orders.sh_claimBefore info ->
  Date_now_at w (2 + tick w) <= 1000 * Orders.sh_claimBefore info ->
  exists r disk' w',
    Orders.makerClaim ordersDir orderId disk w = (Ok (r, disk'), w').
Proof.
  intros Hid Hf Hd Hst Ht Hi He Hh Hv H1 H2.
  change (1 + tick w)%nat with (S (tick w)) in H1.
  change (2 + tick w)%nat with (S (S (tick w))) in H2.
  unfold Orders.makerClaim. rewrite Hid. cbv zeta.
  fold (orderPathOf ordersDir orderId).
  rewrite Hf, Hd, Hst, Ht, Hi, He. cbn [negb Orders.OrderStatus_eqb].
  fold (calculatedHash (Orders.o_secret order)).
  rewrite Hh, String.eqb_refl. cbn [negb].
  unfold_monad. cbn [tick advance Date_now_at].
  destruct (Z.ltb_spec
              (1000 * timelock (config (Orders.htlcOfOrder order taker info)))
              (Date_now_at w (S (tick w)))) as [Hlt|Hle].
  { cbn [Orders.htlcOfOrder newStellarHTLC config timelock] in Hlt. lia. }
  rewrite Hv. cbn [negb].
  destruct (Mock_claim_cases (Orders.htlcOfOrder order taker info)
              (Orders.o_secret order) (advance (advance w []) []))
    as [[Hf' _]|[(_ & Hlt & _)|(_ & _ & tx & w2 & E & _)]].
  - congruence.
  - cbn [Orders.htlcOfOrder newStellarHTLC config timelock] in Hlt.
    unfold reading in Hlt. cbn [tick advance Date_now_at] in Hlt. lia.
  - rewrite E. do 3 eexists. reflexivity.
Qed.

(** X13.  What the claim script requires.  A run of the script returns
    exactly when the order id it is given is not empty and does not
    contain [.ts] (otherwise the script prints its usage and exits with
    code 1), the order file exists, its timestamp is a date, the status
    is [FUNDED], the taker, the Stellar record and the EVM escrow are
    there, [0x] and the digest of the secret is the hashlock,
    [validateSecret] of the record rebuilt from the order accepts the
    secret, and the clock is at or before [claimBefore] at the second
    and at the third reading (the first reading is only printed).  With
    an empty id or one that contains [.ts] the script exits before it
    reads anything.  The secret a run returns is the secret of the
    order, which hashes to the hashlock of the order. *)
Theorem makerClaim_requirements (ordersDir orderId : string)
    (disk : Orders.Disk) (w : World) :
  (is_ok (fst (Orders.makerClaim ordersDir orderId disk w)) = true
   <-> orderId <> EmptyString
       /\ includes ".ts" orderId = false
       /\ exists order taker info escrow,
        Orders.orderFiles disk (orderPathOf ordersDir orderId) = Some order
        /\ Orders.validDate (Orders.o_timestamp order) = true
        /\ Orders.o_status order = Orders.FUNDED
        /\ Orders.o_taker order = Some taker
        /\ Orders.o_stellarHTLC order = Some info
        /\ Orders.o_evmEscrow order = Some escrow
        /\ calculatedHash (Orders.o_secret order) = Orders.o_hashlock order
        /\ validateSecret (Orders.htlcOfOrder order taker info)
             (Orders.o_secret order) = true
        /\ Date_now_at w (1 + tick w) <= 1000 * Orders.sh_claimBefore info
        /\ Date_now_at w (2 + tick w) <= 1000 * Orders.sh_claimBefore info)
  /\ (orderId = EmptyString \/ includes ".ts" orderId = true ->
      Orders.makerClaim ordersDir orderId disk w
      = (Throw Orders.processExit1, w))
  /\ (forall r disk' w',
        Orders.makerClaim ordersDir orderId disk w = (Ok (r, disk'), w') ->
        Orders.cr_success r = true
        /\ Some (Orders.cr_revealedSecret r)
           = option_map Orders.o_secret
               (Orders.orderFiles disk (orderPathOf ordersDir orderId))
        /\ calculatedHash (Orders.cr_revealedSecret r)
           = Orders.o_hashlock (Orders.cr_order r)).
Proof.
  split; [|split].
  - split.
    + destruct (Orders.makerClaim ordersDir orderId disk w)
        as [[[r disk']|e] w'] eqn:E; [|discriminate].
      intros _.
      apply makerClaim_id in E as Hid.
      apply Bool.orb_false_elim in Hid as [Hne Hts].
      split; [now apply String.eqb_neq|]. split; [exact Hts|].
      destruct (makerClaim_inv _ _ _ _ _ _ _ E)
        as (order & taker & info & escrow & tx & H).
      exists order, taker, info, escrow. tauto.
    + intros (Hne & Hts & order & taker & info & escrow & Hf & Hd & Hst & Ht
              & Hi & He & Hh & Hv & H1 & H2).
      assert (Hid : String.eqb orderId EmptyString
                    || includes ".ts" orderId = false).
      { apply Bool.orb_false_intro; [now apply String.eqb_neq|exact Hts]. }
      destruct (makerClaim_ok ordersDir orderId disk w order taker info
                  escrow Hid Hf Hd Hst Ht Hi He Hh Hv H1 H2)
        as (r & disk' & w' & E).
      now rewrite E.
  - intros Hbad. unfold Orders.makerClaim.
    assert (Hid : String.eqb orderId EmptyString
                  || includes ".ts" orderId = true).
    { destruct Hbad as [-> | ->]; [reflexivity|apply Bool.orb_true_r]. }
    now rewrite Hid.
  - intros r disk' w' E.
    destruct (makerClaim_inv _ _ _ _ _ _ _ E)
      as (order & taker & info & escrow & tx & Hf & _ & _ & _ & _ & _
          & Hh & _ & _ & _ & _ & Ho & _ & Hs & Hok & _).
    rewrite Hf, Hs, Ho, Hok. cbn [option_map]. now repeat split.
Qed.

(* ------------------------------------------------------------------ *)
(** ** From the creation of an order to its claim *)

(** What the creation script makes. *)
Lemma createOrder_inv (cfg : Orders.StellarConfig) (chainId : Z)
    (makerEvm ordersDir htlcDir : string) (disk : Orders.Disk) (w : World) :
  let claimBefore := Date_now_at w (3 + tick w) / 1000 + 86400 in
  Orders.validDate (claimBefore * 1000) = true ->
  exists order disk' w' secretBytes info file,
    Orders.createOrder cfg chainId makerEvm ordersDir htlcDir disk w
    = (Ok (order, disk'), w')
    /\ List.length secretBytes = 32%nat
    /\ Orders.o_secret order = writeSecret secretBytes
    /\ Orders.o_hashlock order = deriveHashlock secretBytes
    /\ Orders.o_status order = Orders.CREATED
    /\ Orders.o_taker order = None
    /\ Orders.o_evmEscrow order = None
    /\ Orders.o_transactions order = None
    /\ Orders.o_timestamp order = Date_now_at w (2 + tick w)
    /\ Orders.o_orderId order
       = "stellar_order_" ++ JS.numberToString (Date_now_at w (1 + tick w))
    /\ Orders.o_stellarHTLC order = Some info
    /\ Orders.sh_claimBefore info = claimBefore
    /\ Orders.sh_amount info = "10.0"
    /\ Orders.sh_contractId info
       = generateContractId
           {| secret := writeSecret secretBytes;
              hashlock := deriveHashlock secretBytes;
              amount := "10.0";
              makerAddress := Orders.sc_makerAddress cfg;
              takerAddress := Orders.sc_takerAddress cfg;
              timelock := claimBefore;
              network := testnet |}
    /\ Orders.orderFiles disk' (orderPathOf ordersDir (Orders.o_orderId order))
       = Some order
    /\ (forall p,
          p <> orderPathOf ordersDir (Orders.o_orderId order) ->
          Orders.orderFiles disk' p = Orders.orderFiles disk p)
    /\ Orders.contractFiles disk'
         (Orders.pathJoin htlcDir (Orders.sh_contractId info ++ ".json"))
       = Some file
    /\ Orders.cf_orderId file = Orders.o_orderId order
    /\ hashlock (Orders.cf_config file) = Orders.o_hashlock order
    /\ timelock (Orders.cf_config file) = claimBefore.
Proof.
  intros claimBefore Hd. subst claimBefore.
  unfold Orders.createOrder, getSummary, Mock.createFundingTransaction,
    Mock.createMockXDR.
  unfold_monad. cbn [tick advance Date_now_at].
  change (24 * 60 * 60) with 86400.
  change (3 + tick w)%nat with (S (S (S (tick w)))) in Hd.
  rewrite Hd. cbn [negb].
  do 6 eexists. split; [reflexivity|].
  cbn [Orders.o_secret Orders.o_hashlock Orders.o_status Orders.o_taker
       Orders.o_evmEscrow Orders.o_transactions Orders.o_timestamp
       Orders.o_orderId Orders.o_stellarHTLC Orders.sh_claimBefore
       Orders.sh_amount Orders.sh_contractId Orders.wn_amount
       Orders.cf_orderId Orders.cf_config hashlock timelock
       getContractId contractId newStellarHTLC].
  split; [apply firstn_pad_length|].
  unfold Orders.ethers_sha256, writeSecret, deriveHashlock.
  match goal with
  | |- context [JS.slice 2 ("0x" ++ JS.toHex ?b)] =>
      change (JS.slice 2 ("0x" ++ JS.toHex b)) with (JS.toHex b)
  end.
  rewrite hexDecode_toHex. unfold SHA256.sha256hex.
  repeat split.
  - unfold orderPathOf.
    cbn [Orders.writeContract Orders.writeOrder Orders.orderFiles].
    now rewrite String.eqb_refl.
  - intros p Hp. unfold orderPathOf in Hp.
    cbn [Orders.writeContract Orders.writeOrder Orders.orderFiles].
    match goal with
    | |- context [String.eqb p ?q] => destruct (String.eqb_spec p q)
    end; congruence.
  - cbn [Orders.writeContract Orders.contractFiles].
    now rewrite String.eqb_refl.
  - reflexivity.
  - reflexivity.
  - reflexivity.
Qed.

(** The same, read off a run that returned. *)
Lemma createOrder_facts (cfg : Orders.StellarConfig) (chainId : Z)
    (makerEvm ordersDir htlcDir : string) (disk disk' : Orders.Disk)
    (w w' : World) (order : Orders.Order) :
  Orders.createOrder cfg chainId makerEvm ordersDir htlcDir disk w
  = (Ok (order, disk'), w') ->
  let claimBefore := Date_now_at w (3 + tick w) / 1000 + 86400 in
  exists secretBytes info,
    List.length secretBytes = 32%nat
    /\ Orders.o_secret order = writeSecret secretBytes
    /\ Orders.o_hashlock order = deriveHashlock secretBytes
    /\ Orders.o_status order = Orders.CREATED
    /\ Orders.o_timestamp order = Date_now_at w (2 + tick w)
    /\ Orders.o_stellarHTLC order = Some info
    /\ Orders.sh_claimBefore info = claimBefore
    /\ Orders.sh_amount info = "10.0"
    /\ Orders.sh_contractId info
       = generateContractId
           {| secret := writeSecret secretBytes;
              hashlock := deriveHashlock secretBytes;
              amount := "10.0";
              makerAddress := Orders.sc_makerAddress cfg;
              takerAddress := Orders.sc_takerAddress cfg;
              timelock := claimBefore;
              network := testnet |}
    /\ Orders.orderFiles disk' (orderPathOf ordersDir (Orders.o_orderId order))
       = Some order.
Proof.
  intros E claimBefore.
  destruct (Orders.validDate (claimBefore * 1000)) eqn:Hd.
  - destruct (createOrder_inv cfg chainId makerEvm ordersDir htlcDir disk w Hd)
      as (order1 & disk1 & w1 & b & info & file & E1 & Hlen & Hs & Hh & Hst
          & _ & _ & _ & Hts & _ & Hi & Hcb & Ham & Hcid & Hf & _).
    rewrite E in E1. injection E1 as <- <- <-.
    exists b, info. repeat split; trivial.
  - exfalso. subst claimBefore.
    unfold Orders.createOrder in E. unfold_monad.
    cbn [tick advance Date_now_at] in E.
    change (24 * 60 * 60) with 86400 in E.
    change (3 + tick w)%nat with (S (S (S (tick w)))) in Hd.
    rewrite Hd in E. discriminate.
Qed.

(** The id of the order the creation script returns passes the first
    check of the claim script. *)
Lemma createOrder_id (cfg : Orders.StellarConfig) (chainId : Z)
    (makerEvm ordersDir htlcDir : string) (disk disk' : Orders.Disk)
    (w w' : World) (order : Orders.Order) :
  Orders.createOrder cfg chainId makerEvm ordersDir htlcDir disk w
  = (Ok (order, disk'), w') ->
  String.eqb (Orders.o_orderId order) EmptyString
  || includes ".ts" (Orders.o_orderId order) = false.
Proof.
  intros E.
  destruct (Orders.validDate
              ((Date_now_at w (3 + tick w) / 1000 + 86400) * 1000)) eqn:Hd.
  - destruct (createOrder_inv cfg chainId makerEvm ordersDir htlcDir disk w Hd)
      as (order1 & disk1 & w1 & b & info & file & E1 & _ & _ & _ & _
          & _ & _ & _ & _ & Hid & _).
    rewrite E in E1. injection E1 as <- <- <-.
    rewrite Hid. apply created_id_accepted.
  - exfalso.
    unfold Orders.createOrder in E. unfold_monad.
    cbn [tick advance Date_now_at] in E.
    change (24 * 60 * 60) with 86400 in E.
    change (3 + tick w)%nat with (S (S (S (tick w)))) in Hd.
    rewrite Hd in E. discriminate.
Qed.

Lemma calculatedHash_writeSecret (secretBytes : list byte) :
  calculatedHash (writeSecret secretBytes) = deriveHashlock secretBytes.
Proof.
  unfold calculatedHash, writeSecret, deriveHashlock.
  change (JS.slice 2 ("0x" ++ JS.toHex secretBytes))
    with (JS.toHex secretBytes).
  now rewrite hexDecode_toHex.
Qed.

(** X14.  An order the creation script writes is consistent.  Whenever
    the script returns, the file of the order holds the order it
    returns, with status [CREATED], a 32-byte secret and the hashlock
    derived from its bytes, and a Stellar deadline 86400 seconds after
    the fourth reading of the world, in whole seconds.  The checks the
    claim script makes on the secret both accept it.  The contract id
    stored in the order is the one the claim script derives again,
    provided the two scripts are configured with the same maker address
    and the taker added to the order has the Stellar address of the
    creation. *)
Theorem createOrder_consistent (cfg : Orders.StellarConfig) (chainId : Z)
    (makerEvm ordersDir htlcDir : string) (disk disk' : Orders.Disk)
    (w w' : World) (order : Orders.Order) :
  Orders.createOrder cfg chainId makerEvm ordersDir htlcDir disk w
  = (Ok (order, disk'), w') ->
  exists secretBytes info,
    List.length secretBytes = 32%nat
    /\ Orders.o_secret order = writeSecret secretBytes
    /\ Orders.o_hashlock order = deriveHashlock secretBytes
    /\ Orders.o_status order = Orders.CREATED
    /\ Orders.o_stellarHTLC order = Some info
    /\ Orders.sh_claimBefore info
       = Date_now_at w (3 + tick w) / 1000 + 86400
    /\ Orders.orderFiles disk' (orderPathOf ordersDir (Orders.o_orderId order))
       = Some order
    /\ calculatedHash (Orders.o_secret order) = Orders.o_hashlock order
    /\ (forall taker,
          validateSecret (Orders.htlcOfOrder order taker info)
            (Orders.o_secret order) = true)
    /\ (forall taker,
          Orders.sc_makerAddress cfg = Orders.makerAddressOfClaim ->
          Orders.tk_stellarAddress taker = Orders.sc_takerAddress cfg ->
          contractId (Orders.htlcOfOrder order taker info)
          = Orders.sh_contractId info).
Proof.
  intros E.
  destruct (createOrder_facts _ _ _ _ _ _ _ _ _ _ E)
    as (b & info & Hlen & Hs & Hh & Hst & _ & Hi & Hcb & Ham & Hcid & Hf).
  exists b, info. repeat split; trivial.
  - rewrite Hs, Hh. apply calculatedHash_writeSecret.
  - intros taker. rewrite Hs. apply validateSecret_writeSecret.
    cbn [Orders.htlcOfOrder newStellarHTLC config hashlock]. rewrite Hh.
    unfold deriveHashlock. now rewrite replace_0x_prefixed.
  - intros taker Hmk Htk.
    cbn [Orders.htlcOfOrder newStellarHTLC contractId].
    rewrite Hcid, Hs, Hh, Ham, Hcb, Htk, <- Hmk. reflexivity.
Qed.

Lemma createOrder_consistent_witness :
  calculatedHash (Orders.o_secret order0) = Orders.o_hashlock order0.
Proof.
  destruct (createOrder_consistent stellarConfig0 8453
              "0x71A076E706c058cee2c7c87bA2Dc6fAe23Ec208e" "orders" "contracts"
              emptyDisk disk0 (worldAt (fun _ => 0))
              (snd (Orders.createOrder stellarConfig0 8453
                      "0x71A076E706c058cee2c7c87bA2Dc6fAe23Ec208e" "orders"
                      "contracts" emptyDisk (worldAt (fun _ => 0))))
              order0)
    as (b & info & _ & _ & _ & _ & _ & _ & _ & H & _).
  - vm_compute. reflexivity.
  - exact H.
Defined.

(** X15.  An order that was only created cannot be claimed.  On the
    disk the creation script leaves, every run of the claim script for
    the new order fails, at any time; when the timestamp of the order is
    a date, with the status error. *)
Theorem created_order_not_claimable (cfg : Orders.StellarConfig) (chainId : Z)
    (makerEvm ordersDir htlcDir : string) (disk disk' : Orders.Disk)
    (w w' w2 : World) (order : Orders.Order) :
  Orders.createOrder cfg chainId makerEvm ordersDir htlcDir disk w
  = (Ok (order, disk'), w') ->
  is_ok (fst (Orders.makerClaim ordersDir (Orders.o_orderId order) disk' w2))
  = false
  /\ (Orders.validDate (Date_now_at w (2 + tick w)) = true ->
      Orders.makerClaim ordersDir (Orders.o_orderId order) disk' w2
      = (Throw
           "❌ Order status is CREATED, expected FUNDED (Stellar HTLC must be funded first)",
         w2)).
Proof.
  intros E. pose proof (createOrder_id _ _ _ _ _ _ _ _ _ _ E) as Hid.
  destruct (createOrder_facts _ _ _ _ _ _ _ _ _ _ E)
    as (b & info & _ & _ & _ & Hst & Hts & _ & _ & _ & _ & Hf).
  unfold Orders.makerClaim. rewrite Hid. cbv zeta.
  fold (orderPathOf ordersDir (Orders.o_orderId order)).
  rewrite Hf, Hst, Hts.
  destruct (Orders.validDate (Date_now_at w (2 + tick w)));
    cbn [negb Orders.OrderStatus_eqb Orders.statusText]; split; trivial.
  discriminate.
Qed.

Lemma created_order_not_claimable_witness :
  is_ok (fst (Orders.makerClaim "orders" (Orders.o_orderId order0) disk0
                (worldAt (fun _ => 1000))))
  = false.
Proof.
  refine (proj1 (created_order_not_claimable stellarConfig0 8453
            "0x71A076E706c058cee2c7c87bA2Dc6fAe23Ec208e" "orders" "contracts"
            emptyDisk disk0 (worldAt (fun _ => 0))
            (snd (Orders.createOrder stellarConfig0 8453
                    "0x71A076E706c058cee2c7c87bA2Dc6fAe23Ec208e" "orders"
                    "contracts" emptyDisk (worldAt (fun _ => 0))))
            (worldAt (fun _ => 1000)) order0 _)).
  vm_compute. reflexivity.
Defined.

(** X16.  A created order that has been funded is claimed before its
    deadline.  Take the order the creation script wrote, let the taker
    and the EVM escrow be added and the status set to [FUNDED] (what the
    funding scripts do): then, whatever taker and escrow were added, the
    claim script returns whenever its second and third clock readings
    are at or before the deadline the creation script set, and the
    secret it returns is the one the creation script drew. *)
Theorem funded_order_claimable (cfg : Orders.StellarConfig) (chainId : Z)
    (makerEvm ordersDir htlcDir : string) (disk disk1 : Orders.Disk)
    (w w1 w2 : World) (order : Orders.Order) (taker : Orders.Taker)
    (escrow : Orders.EvmEscrow) :
  let deadline := Date_now_at w (3 + tick w) / 1000 + 86400 in
  let disk2 :=
    Orders.writeOrder disk1 (orderPathOf ordersDir (Orders.o_orderId order))
      (fundedWith order taker escrow) in
  Orders.createOrder cfg chainId makerEvm ordersDir htlcDir disk w
  = (Ok (order, disk1), w1) ->
  Orders.validDate (Orders.o_timestamp order) = true ->
  Date_now_at w2 (1 + tick w2) <= 1000 * deadline ->
  Date_now_at w2 (2 + tick w2) <= 1000 * deadline ->
  exists r disk3 w3,
    Orders.makerClaim ordersDir (Orders.o_orderId order) disk2 w2
    = (Ok (r, disk3), w3)
    /\ Orders.cr_revealedSecret r = Orders.o_secret order
    /\ Orders.o_status (Orders.cr_order r) = Orders.COMPLETED.
Proof.
  intros deadline disk2 E Hd H1 H2.
  pose proof (createOrder_id _ _ _ _ _ _ _ _ _ _ E) as Hid.
  destruct (createOrder_facts _ _ _ _ _ _ _ _ _ _ E)
    as (b & info & Hlen & Hs & Hh & Hst & _ & Hi & Hcb & Ham & Hcid & Hf).
  assert (Hfile : Orders.orderFiles disk2
                    (orderPathOf ordersDir (Orders.o_orderId order))
                  = Some (fundedWith order taker escrow)).
  { subst disk2. cbn [Orders.writeOrder Orders.orderFiles].
    now rewrite String.eqb_refl. }
  destruct (makerClaim_ok ordersDir (Orders.o_orderId order) disk2 w2
              (fundedWith order taker escrow) taker info escrow)
    as (r & disk3 & w3 & E2); trivial.
  - cbn [fundedWith Orders.o_secret Orders.o_hashlock]. rewrite Hs, Hh.
    apply calculatedHash_writeSecret.
  - cbn [fundedWith Orders.o_secret]. rewrite Hs.
    apply validateSecret_writeSecret.
    cbn [Orders.htlcOfOrder newStellarHTLC config hashlock fundedWith
         Orders.o_hashlock].
    rewrite Hh. unfold deriveHashlock. now rewrite replace_0x_prefixed.
  - now rewrite Hcb.
  - now rewrite Hcb.
  - exists r, disk3, w3. split; trivial.
    destruct (makerClaim_inv _ _ _ _ _ _ _ E2)
      as (order' & taker' & info' & escrow' & tx & Hf' & _ & _ & _ & _ & _
          & _ & _ & _ & _ & _ & Ho & _ & Hsec & _).
    rewrite Hfile in Hf'. injection Hf' as <-.
    rewrite Hsec, Ho. split; reflexivity.
Qed.

Lemma funded_order_claimable_witness :
  exists r disk3 w3,
    Orders.makerClaim "orders" (Orders.o_orderId order0) diskFunded
      (worldAt (fun _ => 1000))
    = (Ok (r, disk3), w3)
    /\ Orders.cr_revealedSecret r = Orders.o_secret order0
    /\ Orders.o_status (Orders.cr_order r) = Orders.COMPLETED.
Proof.
  refine (funded_order_claimable stellarConfig0 8453
            "0x71A076E706c058cee2c7c87bA2Dc6fAe23Ec208e" "orders" "contracts"
            emptyDisk disk0 (worldAt (fun _ => 0))
            (snd (Orders.createOrder stellarConfig0 8453
                    "0x71A076E706c058cee2c7c87bA2Dc6fAe23Ec208e" "orders"
                    "contracts" emptyDisk (worldAt (fun _ => 0))))
            (worldAt (fun _ => 1000)) order0 taker0 escrow0 _ _ _ _).
  - vm_compute. reflexivity.
  - vm_compute. reflexivity.
  - vm_compute. discriminate.
  - vm_compute. discriminate.
Defined.

(* ================================================================== *)
(** * The packed timelocks, further *)

(** X17.  The word the scripts send as [timelocks] fits the [uint256]
    of the contract exactly while the clock is below 2^32 seconds.  For
    the schedule of [lockETHIntoHTLC] (3600, 21600 and 86400 seconds)
    and for the one of [testETHRefund] (10, 20 and 30 seconds), at every
    time that is not negative, the packed word is not negative, and it is
    below 2^256 exactly when the time in seconds is below 2^32. *)
Theorem packedTimelocks_uint256 (now : Z) :
  0 <= now ->
  let p := packedTimelocks now (lockTimelocks now) in
  let q := packedTimelocks now (shortTimelocks now) in
  0 <= p /\ 0 <= q
  /\ (p < 2 ^ 256 <-> now < 2 ^ 32)
  /\ (q < 2 ^ 256 <-> now < 2 ^ 32).
Proof.
  intros Hn p q. subst p q.
  rewrite !packedTimelocks_value
    by (cbn [withdrawal publicWithdrawal cancellation lockTimelocks
             shortTimelocks]; lia).
  cbn [withdrawal publicWithdrawal cancellation lockTimelocks shortTimelocks].
  replace (now + 3600 - now) with 3600 by lia.
  replace (now + 21600 - now) with 21600 by lia.
  replace (now + 86400 - now) with 86400 by lia.
  replace (now + 10 - now) with 10 by lia.
  replace (now + 20 - now) with 20 by lia.
  replace (now + 30 - now) with 30 by lia.
  change (2 ^ 256) with (2 ^ 32 * 2 ^ 224).
  assert (H224 : 2 ^ 224 = 26959946667150639794667015087019630673637144422540572481103610249216)
    by reflexivity.
  assert (H64 : 2 ^ 64 = 18446744073709551616) by reflexivity.
  assert (H32 : 2 ^ 32 = 4294967296) by reflexivity.
  rewrite H64, H32, H224. lia.
Qed.

Lemma packedTimelocks_uint256_witness :
  packedTimelocks 1700000000 (lockTimelocks 1700000000) < 2 ^ 256.
Proof.
  assert (H0 : 0 <= 1700000000) by lia.
  apply (proj2 (proj1 (proj2 (proj2 (packedTimelocks_uint256 1700000000 H0))))).
  reflexivity.
Defined.

Lemma packedTimelocks_inj (now now' : Z) (tl tl' : Timelocks) :
  0 <= now -> 0 <= now' ->
  0 <= withdrawal tl - now < 2 ^ 32 ->
  0 <= publicWithdrawal tl - now < 2 ^ 32 ->
  0 <= cancellation tl - now < 2 ^ 32 ->
  0 <= withdrawal tl' - now' < 2 ^ 32 ->
  0 <= publicWithdrawal tl' - now' < 2 ^ 32 ->
  0 <= cancellation tl' - now' < 2 ^ 32 ->
  packedTimelocks now tl = packedTimelocks now' tl' ->
  now = now' /\ tl = tl'.
Proof.
  intros Hn Hn' Hw Hp Hc Hw' Hp' Hc'.
  rewrite !packedTimelocks_value by trivial.
  assert (H224 : 2 ^ 224 = 26959946667150639794667015087019630673637144422540572481103610249216)
    by reflexivity.
  assert (H64 : 2 ^ 64 = 18446744073709551616) by reflexivity.
  assert (H32 : 2 ^ 32 = 4294967296) by reflexivity.
  rewrite H64, H32, H224 in *. intros E.
  assert (En : now = now') by lia. subst now'.
  split; trivial.
  destruct tl as [a b c], tl' as [a' b' c'].
  cbn [withdrawal publicWithdrawal cancellation] in *.
  f_equal; lia.
Qed.

(** X18.  Packing loses nothing.  Two schedules whose offsets are
    between 0 and 2^32-1, packed at times that are not negative, give
    different words as soon as the times or one of the checkpoints
    differ. *)
Theorem packedTimelocks_injective (now now' : Z) (tl tl' : Timelocks) :
  0 <= now -> 0 <= now' ->
  0 <= withdrawal tl - now < 2 ^ 32 ->
  0 <= publicWithdrawal tl - now < 2 ^ 32 ->
  0 <= cancellation tl - now < 2 ^ 32 ->
  0 <= withdrawal tl' - now' < 2 ^ 32 ->
  0 <= publicWithdrawal tl' - now' < 2 ^ 32 ->
  0 <= cancellation tl' - now' < 2 ^ 32 ->
  now <> now' \/ tl <> tl' ->
  (packedTimelocks now tl =? packedTimelocks now' tl') = false.
Proof.
  intros Hn Hn' Hw Hp Hc Hw' Hp' Hc' Hne.
  apply Z.eqb_neq. intros E.
  destruct (packedTimelocks_inj now now' tl tl') as [E1 E2]; trivial.
  destruct Hne as [H|H]; now elim H.
Qed.

Lemma packedTimelocks_injective_witness :
  (packedTimelocks 1700000000 (lockTimelocks 1700000000)
   =? packedTimelocks 1700000000 (shortTimelocks 1700000000)) = false.
Proof.
  apply (packedTimelocks_injective 1700000000 1700000000
           (lockTimelocks 1700000000) (shortTimelocks 1700000000));
    cbn [withdrawal publicWithdrawal cancellation lockTimelocks
         shortTimelocks]; try lia.
  right. discriminate.
Defined.

(* ================================================================== *)
(** * What the reveal step reports, and the claim that needs none *)

(** X19.  The failures of [revealSecret].  The step fails only with
    the error of a missing part of the state, with one of its own two
    messages, with the expiry message of [createClaimingTransaction]
    (when the clock passes the deadline between the reading of the
    script and the reading of the class), or with a failure of Horizon
    or of the transaction builder.  It never fails with the
    invalid-secret message of the class, and never because a submission
    was refused. *)
Theorem revealSecret_failures (st : StellarToBase.SwapState) (w : World)
    (message : string) :
  fst (StellarToBaseReveal.revealSecret st w) = Throw message ->
  message = TypeError
  \/ message = "Invalid secret for HTLC"
  \/ message = "HTLC timelock has expired"
  \/ (message = "Timelock has expired, cannot claim"
      /\ exists htlc,
           StellarToBase.stellarHTLC st = Some htlc
           /\ reading w <= 1000 * timelock (config htlc)
              < Date_now_at w (S (tick w)))
  \/ exists e, message = "Failed to create claiming transaction: " ++ e.
Proof.
  unfold StellarToBaseReveal.revealSecret.
  destruct (StellarToBase.stellarHTLC st) as [htlc|];
    [|unfold_monad; cbn; intros [= <-]; now left].
  destruct (StellarToBase.stellarMaker st) as [mk|];
    [|unfold_monad; cbn; intros [= <-]; now left].
  destruct (StellarToBase.s_secret st) as [secret|];
    [|unfold_monad; cbn; intros [= <-]; now left].
  unfold Sdk.submitTransaction. unfold_monad.
  destruct (validateSecret htlc secret) eqn:Hv; cbn [negb];
    [|cbn; intros [= <-]; right; now left].
  destruct (Z.ltb_spec (1000 * timelock (config htlc)) (Date_now_at w (tick w)))
    as [Hlt|Hle]; [cbn; intros [= <-]; right; right; now left|].
  destruct (Sdk_claim_cases htlc secret mk (advance w []))
    as [[Hf _]|[(_ & Hlt & E)|(_ & _ & [(e & w1 & E)|(tx & w1 & E & _)])]].
  - congruence.
  - rewrite E. cbn. intros [= <-]. right; right; right; left.
    split; trivial. exists htlc. split; trivial. split; trivial.
  - rewrite E. cbn. intros [= <-]. right; right; right; right. now exists e.
  - rewrite E.
    match goal with
    | |- context [submitTransaction_at ?w2 ?n ?x] =>
        destruct (submitTransaction_at w2 n x) as [hash|e]
    end; cbn; discriminate.
Qed.

Lemma revealSecret_failures_witness :
  exists htlc,
    StellarToBase.stellarHTLC funded = Some htlc
    /\ reading (worldAt clockJumping) <= 1000 * timelock (config htlc)
       < Date_now_at (worldAt clockJumping) 1.
Proof.
  destruct (revealSecret_failures funded (worldAt clockJumping)
              "Timelock has expired, cannot claim")
    as [H|[H|[H|[[_ H]|[e H]]]]]; try discriminate.
  - vm_compute. reflexivity.
  - exact H.
Defined.

(* ------------------------------------------------------------------ *)
(** ** The claim on Base of the Base-to-Stellar script *)

Lemma BaseToStellar_lock_frame (st st' : BaseToStellar.SwapState) (b : bool)
    (w w' : World) :
  BaseToStellar.lockETHIntoHTLC st w = (Ok (b, st'), w') ->
  BaseToStellar.s_secret st' = BaseToStellar.s_secret st
  /\ BaseToStellar.s_hashlock st' = BaseToStellar.s_hashlock st
  /\ exists escrow,
       BaseToStellar.baseEscrow st' = Some escrow
       /\ im_hashlock (be_immutables escrow) = BaseToStellar.s_hashlock st.
Proof.
  unfold BaseToStellar.lockETHIntoHTLC.
  destruct (BaseToStellar.makerSigner st) as [mk|];
    [|unfold_monad; discriminate].
  destruct (BaseToStellar.takerSigner st) as [tk|];
    [|unfold_monad; discriminate].
  unfold required, Date_now, randomBytes, createDstEscrow, addressOfEscrowDst,
    bind, ret, throw, try_catch.
  cbv beta.
  match goal with
  | |- context [createDstEscrow_at ?w1 ?n ?im ?v] =>
      destruct (createDstEscrow_at w1 n im v) as [receipt|e]
  end; [|discriminate].
  destruct (rc_DstEscrowCreated receipt) as [a|].
  - intros E. apply Ok_pair_inv in E as (_ & <- & _).
    repeat split. eexists. split; reflexivity.
  - match goal with
    | |- context [addressOfEscrowDst_at ?w1 ?n ?im] =>
        destruct (addressOfEscrowDst_at w1 n im) as [a|e]
    end; [|discriminate].
    intros E. apply Ok_pair_inv in E as (_ & <- & _).
    repeat split. eexists. split; reflexivity.
Qed.

(** X20.  In the Base-to-Stellar script the claim on Base needs no
    reveal.  [generateHashlock] always succeeds, with a 32-byte secret
    and its hashlock; once [lockETHIntoHTLC] has funded the escrow from
    that state, [ethTakerClaimETH] returns [true] in every world and
    makes no interaction with a ledger, whether or not
    [stellarMakerRevealSecret] has run: the secret it verifies is the
    one of the script's own state. *)
Theorem taker_claim_needs_no_reveal
    (st0 st2 : BaseToStellar.SwapState) (b2 : bool) (w0 w1 w1' w : World) :
  exists st1 w0' secretBytes,
    BaseToStellar.generateHashlock st0 w0 = (Ok (true, st1), w0')
    /\ List.length secretBytes = 32%nat
    /\ BaseToStellar.s_secret st1 = Some (writeSecret secretBytes)
    /\ BaseToStellar.s_hashlock st1 = Some (deriveHashlock secretBytes)
    /\ (BaseToStellar.lockETHIntoHTLC st1 w1 = (Ok (b2, st2), w1') ->
        BaseToStellar.ethTakerClaimETH st2 w = (Ok true, w)).
Proof.
  unfold BaseToStellar.generateHashlock. unfold_monad.
  do 3 eexists. split; [reflexivity|].
  cbn [BaseToStellar.s_secret BaseToStellar.s_hashlock].
  split; [apply firstn_pad_length|].
  split; [reflexivity|]. split; [reflexivity|].
  intros E.
  destruct (BaseToStellar_lock_frame _ _ _ _ _ E)
    as (Hs & Hh & escrow & He & _).
  cbn [BaseToStellar.s_secret BaseToStellar.s_hashlock] in Hs, Hh.
  unfold BaseToStellar.ethTakerClaimETH. rewrite Hs, Hh, He. unfold_monad.
  unfold isValidSecret.
  fold (writeSecret (firstn 32 (randomBytes_at w0 (tick w0) ++ repeat x00 32))).
  rewrite calculatedHash_writeSecret. unfold deriveHashlock.
  rewrite String.eqb_refl. reflexivity.
Qed.

Lemma taker_claim_needs_no_reveal_witness :
  BaseToStellar.ethTakerClaimETH fundedB (worldAt (fun _ => 2000))
  = (Ok true, worldAt (fun _ => 2000)).
Proof.
  destruct (taker_claim_needs_no_reveal connectedB fundedB true
              (worldAt clockSecondLater) (worldAt clockSecondLater)
              (snd (BaseToStellar.lockETHIntoHTLC generatedB
                      (worldAt clockSecondLater)))
              (worldAt (fun _ => 2000)))
    as (st1 & w0' & b & E & _ & _ & _ & H).
  apply H. vm_compute in E. injection E as <- _.
  vm_compute. reflexivity.
Defined.

(* ------------------------------------------------------------------ *)
(** ** Shape of the transactions of the mock class *)

(** X21.  Identifiers of the mock class.  Every transaction the mock
    class returns has an [id] of 32 hexadecimal digits and a [hash] of
    64 hexadecimal digits, and the hash is the SHA-256 of the text of
    its [xdr]: two transactions with the same XDR text have the same
    hash. *)
Theorem Mock_transaction_shape (this : StellarHTLC) (o : Op) (w w' : World)
    (tx : StellarHTLCTransaction) :
  perform this o w = (Ok tx, w') ->
  String.length (tx_id tx) = 32%nat
  /\ allb JS.isHex (tx_id tx) = true
  /\ String.length (tx_hash tx) = 64%nat
  /\ allb JS.isHex (tx_hash tx) = true
  /\ tx_hash tx = SHA256.sha256hex (JS.utf8 (tx_xdr tx)).
Proof.
  assert (Hid : forall l : list byte,
             String.length (JS.toHex (firstn 16 (l ++ repeat x00 16))) = 32%nat).
  { intros l. now rewrite toHex_length, firstn_pad_length. }
  assert (Hx : forall l : list byte,
             allb JS.isHex (JS.toHex (firstn 16 (l ++ repeat x00 16))) = true)
    by (intros l; apply toHex_allHex).
  destruct o as [|s|]; cbn [perform].
  - unfold Mock.createFundingTransaction, Mock.createMockXDR. unfold_monad.
    intros [= <- _]. cbn [tx_id tx_hash tx_xdr].
    repeat split;
      try exact (Hid (randomBytes_at w (tick w)));
      try exact (Hid (randomBytes_at w (S (tick w))));
      try exact (Hx (randomBytes_at w (tick w)));
      try exact (Hx (randomBytes_at w (S (tick w))));
      auto using sha256hex_length, sha256hex_allHex.
  - unfold Mock.createClaimingTransaction, Mock.createMockXDR.
    destruct (validateSecret this s); cbn [negb]; [|discriminate].
    unfold_monad.
    destruct (1000 * timelock (config this) <? Date_now_at w (tick w));
      [discriminate|].
    intros [= <- _]. cbn [tx_id tx_hash tx_xdr].
    repeat split;
      try exact (Hid (randomBytes_at w (tick w)));
      try exact (Hid (randomBytes_at w (S (tick w))));
      try exact (Hx (randomBytes_at w (tick w)));
      try exact (Hx (randomBytes_at w (S (tick w))));
      auto using sha256hex_length, sha256hex_allHex.
  - unfold Mock.createRefundTransaction, Mock.createMockXDR. unfold_monad.
    destruct (1000 * timelock (config this) <? Date_now_at w (tick w));
      cbn [negb]; [|discriminate].
    intros [= <- _]. cbn [tx_id tx_hash tx_xdr].
    repeat split;
      try exact (Hid (randomBytes_at w (tick w)));
      try exact (Hid (randomBytes_at w (S (tick w))));
      try exact (Hx (randomBytes_at w (tick w)));
      try exact (Hx (randomBytes_at w (S (tick w))));
      auto using sha256hex_length, sha256hex_allHex.
Qed.

Lemma Mock_transaction_shape_witness :
  exists tx,
    fst (perform htlc0 OpFund (worldAt (fun _ => late))) = Ok tx
    /\ String.length (tx_hash tx) = 64%nat.
Proof.
  destruct (perform htlc0 OpFund (worldAt (fun _ => late)))
    as [[tx|e] w'] eqn:E; [|exfalso; vm_compute in E; discriminate].
  exists tx. split; [reflexivity|].
  exact (proj1 (proj2 (proj2
           (Mock_transaction_shape htlc0 OpFund (worldAt (fun _ => late))
              w' tx E)))).
Defined.

(* ------------------------------------------------------------------ *)
(** ** Ledger interactions of the class and of the claim step *)

Lemma quiet_Date_now : quiet Date_now.
Proof. intros w. now exists []. Qed.

Lemma quiet_randomBytes (n : nat) : quiet (randomBytes n).
Proof. intros w. now exists []. Qed.

Lemma quiet_loadAccount (pk : string) : quiet (loadAccount pk).
Proof. intros w. now exists [EvLoadAccount pk]. Qed.

Lemma quiet_buildTransaction (rq : TxRequest) : quiet (buildTransaction rq).
Proof. intros w. now exists [EvBuildTransaction rq]. Qed.

Lemma quiet_isTimelockExpired (this : StellarHTLC) :
  quiet (isTimelockExpired this).
Proof.
  apply quiet_bind; [apply quiet_Date_now|intros; apply quiet_ret].
Qed.

(** X23.  Creating a transaction never submits it.  In the SDK class
    [createFundingTransaction], [createClaimingTransaction] and
    [createRefundTransaction] only load the account and build: whatever
    they return, the interactions they add to the trace hold no
    submission.  The mock class makes no interaction at all: the trace
    is unchanged. *)
Theorem create_never_submits (this : StellarHTLC) (o : Op) (kp : Keypair)
    (w : World) :
  (exists evs,
     trace (snd (performSdk kp this o w)) = (evs ++ trace w)%list
     /\ submitted evs = false)
  /\ trace (snd (perform this o w)) = trace w.
Proof.
  split.
  - revert w. change (quiet (performSdk kp this o)).
    destruct o as [|s|]; cbn [performSdk].
    + apply quiet_try_catch; [|intros; apply quiet_throw].
      apply quiet_bind; [apply quiet_loadAccount|]. intros acc.
      apply quiet_bind; [apply quiet_buildTransaction|].
      intros; apply quiet_ret.
    + unfold Sdk.createClaimingTransaction.
      destruct (negb (validateSecret this s)); [apply quiet_throw|].
      apply quiet_bind; [apply quiet_isTimelockExpired|]. intros [|];
        [apply quiet_throw|].
      apply quiet_try_catch; [|intros; apply quiet_throw].
      apply quiet_bind; [apply quiet_loadAccount|]. intros acc.
      apply quiet_bind; [apply quiet_buildTransaction|].
      intros; apply quiet_ret.
    + unfold Sdk.createRefundTransaction.
      apply quiet_bind; [apply quiet_isTimelockExpired|]. intros [|];
        cbn [negb]; [|apply quiet_throw].
      apply quiet_try_catch; [|intros; apply quiet_throw].
      apply quiet_bind; [apply quiet_loadAccount|]. intros acc.
      apply quiet_bind; [apply quiet_buildTransaction|].
      intros; apply quiet_ret.
  - destruct o as [|s|]; cbn [perform].
    + unfold Mock.createFundingTransaction, Mock.createMockXDR. unfold_monad.
      reflexivity.
    + unfold Mock.createClaimingTransaction, Mock.createMockXDR.
      destruct (validateSecret this s); cbn [negb]; [|reflexivity].
      unfold_monad.
      destruct (1000 * timelock (config this) <? Date_now_at w (tick w));
        reflexivity.
    + unfold Mock.createRefundTransaction, Mock.createMockXDR. unfold_monad.
      destruct (1000 * timelock (config this) <? Date_now_at w (tick w));
        reflexivity.
Qed.

Lemma extractSecretFromTransactionHash_trace (this : StellarHTLC)
    (txHash : string) (w : World) :
  trace (snd (Sdk.extractSecretFromTransactionHash this txHash w))
  = EvTransactionCall txHash :: trace w.
Proof.
  unfold Sdk.extractSecretFromTransactionHash. unfold_monad.
  destruct (transactionCall_at w (tick w) txHash) as [t|e]; [|reflexivity].
  destruct (Sdk.secretOfMemo this t); [reflexivity|].
  destruct (h_operations t); reflexivity.
Qed.

Lemma claimAssets_world (st : StellarToBase.SwapState) (w : World) :
  snd (StellarToBase.claimAssets st w)
  = snd (StellarToBase.extractedSecretOf st w).
Proof.
  unfold StellarToBase.claimAssets, try_catch, bind, throw, ret, required.
  destruct (StellarToBase.extractedSecretOf st w) as [[e|m] w1];
    [|reflexivity].
  destruct (negb _); [reflexivity|].
  destruct (StellarToBase.baseEscrow st); reflexivity.
Qed.

(** X24.  [claimAssets] reads the ledger at most once.  The only
    interaction it can add to the trace is one read of the transaction
    whose hash the reveal recorded, and it makes that read only when
    the reveal is not simulated; with a simulated reveal, or in a state
    without a reveal, it leaves the trace as it was. *)
Theorem claimAssets_reads_once (st : StellarToBase.SwapState) (w : World) :
  trace (snd (StellarToBase.claimAssets st w)) = trace w
  \/ exists reveal,
       StellarToBase.secretReveal st = Some reveal
       /\ sr_simulated reveal = false
       /\ trace (snd (StellarToBase.claimAssets st w))
          = EvTransactionCall (sr_hash reveal) :: trace w.
Proof.
  rewrite claimAssets_world.
  unfold StellarToBase.extractedSecretOf. unfold_monad.
  destruct (StellarToBase.secretReveal st) as [reveal|]; [|now left].
  destruct (sr_simulated reveal) eqn:Hsim.
  - left. destruct (StellarToBase.s_secret st); reflexivity.
  - destruct (StellarToBase.stellarHTLC st) as [htlc|].
    + right. exists reveal. split; trivial. split; trivial.
      pose proof (extractSecretFromTransactionHash_trace htlc
                    (sr_hash reveal) w) as Ht.
      destruct (Sdk.extractSecretFromTransactionHash htlc (sr_hash reveal) w)
        as [[[s|]|m] w1]; cbn [snd] in Ht.
      * destruct (String.eqb s EmptyString); [|exact Ht].
        destruct (StellarToBase.s_secret st); exact Ht.
      * destruct (StellarToBase.s_secret st); exact Ht.
      * destruct (StellarToBase.s_secret st); exact Ht.
    + left. destruct (StellarToBase.s_secret st); reflexivity.
Qed.

(* ================================================================== *)
(** * The simulation of the swap *)

(** The contract id of the simulation is the one of the class. *)
Lemma Sim_generateContractId_class (c : StellarHTLCConfig) :
  Sim.generateContractId (hashlock c) (makerAddress c) (takerAddress c)
    (amount c) (timelock c)
  = generateContractId c.
Proof. reflexivity. Qed.

Lemma toHex_nonempty (l : list byte) :
  l <> [] -> JS.toHex l <> EmptyString.
Proof. destruct l; [congruence|discriminate]. Qed.

(** X22.  The checks of the simulation pass for every secret it can
    draw.  [testOrderCreation] always returns an order; for that order,
    in every world, [testClaimProcess] returns, the secret it extracts
    from the memo of its claim is the secret of the order (the
    comparison it prints is [PASSED]) and it leaves the order
    [COMPLETED]; and [testHTLCFunctionality] returns, with [htlcValid]
    true exactly when its clock reading is at or before the deadline of
    the order, 3600 seconds after the creation. *)
Theorem simulation_passes (w0 w : World) :
  exists order w0',
    Sim.testOrderCreation w0 = (Ok order, w0')
    /\ (exists claimTx order' w',
          Sim.testClaimProcess order w
          = (Ok (claimTx, order', Some (Orders.o_secret order)), w')
          /\ Orders.o_status order' = Orders.COMPLETED)
    /\ (exists fundingTx w',
          Sim.testHTLCFunctionality order w
          = (Ok (fundingTx,
                 negb (1000 * (Date_now_at w0 (2 + tick w0) / 1000 + 3600)
                       <? reading w)), w')).
Proof.
  unfold Sim.testOrderCreation. unfold_monad.
  do 2 eexists. split; [reflexivity|].
  set (b := firstn 32 (randomBytes_at w0 (tick w0) ++ repeat x00 32)).
  assert (Hlen : List.length b = 32%nat) by apply firstn_pad_length.
  assert (Hne : JS.toHex b <> EmptyString).
  { apply toHex_nonempty. intros E. rewrite E in Hlen. discriminate. }
  split.
  - unfold Sim.testClaimProcess, Sim.createMockXDR, required, randomBytes,
      Date_now, bind, ret.
    cbn [Orders.o_stellarHTLC Orders.o_secret Orders.sh_contractId
         Orders.sh_amount tx_memo].
    rewrite replace_0x_prefixed.
    match goal with
    | |- context [Sim.generateContractId ?h ?m ?t ?a ?tl] =>
        pose proof (memoMatch_claim_memo
                      {| secret := EmptyString; hashlock := h; amount := a;
                         makerAddress := m; takerAddress := t; timelock := tl;
                         network := testnet |}
                      (JS.toHex b) Hne (toHex_allHex b)) as Hm;
        rewrite <- Sim_generateContractId_class in Hm;
        cbn [hashlock makerAddress takerAddress amount timelock] in Hm
    end.
    rewrite Hm.
    do 3 eexists. split; reflexivity.
  - unfold Sim.testHTLCFunctionality, Sim.createMockXDR. unfold_monad.
    cbn [Orders.o_stellarHTLC Orders.o_secret Orders.o_hashlock
         Orders.sh_claimBefore tick advance Date_now_at].
    replace (Sim.validateSecret ("0x" ++ JS.toHex b)
               (Sim.sha256 ("0x" ++ JS.toHex b))) with true.
    + do 2 eexists. reflexivity.
    + symmetry. unfold Sim.validateSecret, Sim.sha256. cbv zeta.
      rewrite !replace_0x_prefixed.
      change (JS.slice 2 ("0x" ++ JS.toHex b)) with (JS.toHex b).
      apply String.eqb_refl.
Qed.
